(** * Synaptic Resonator: waveform and fragment synthesis, raw PCM codec

    A shallow embedding of [synaptic_resonator/generator.py], of the
    byte-level contract of [main.py] and of the conversion utility
    [play_audio.py], followed by the properties of the specification
    that were checked against it.

    Conventions.
    - A Python [str] is the list of its code points ([str := list N]).
    - A [np.float64] is a primitive binary64 [float]; a [np.float32]
      array element is its 32-bit storage word, decoded to a
      [spec_float] of precision 24 when arithmetic is done on it.
    - Exceptions are values of [exn]; a computation that may raise
      returns a [result].
    - What NumPy and the Python standard library supply and the
      repository only calls (the bit generator, [np.sin], [uuid.uuid5],
      the allocation of arrays) is the interface [Runtime].
    - What the machine may refuse to [play_audio.py] (a line the
      console cannot take, a file name, the opening of a file for
      writing) is a [platform].  The functions of [play_audio.py] are
      first given on any platform ([convert_to_wav_on], [info_on],
      [main_on]); [convert_to_wav], [info] and [main] are these on the
      platform that refuses nothing. *)

From Stdlib Require Import ZArith NArith List String Ascii Floats Lia DecimalString.
From Stdlib.Strings Require Import Byte.
From stdpp Require Import base option list gmap.

Local Open Scope Z_scope.

(* ===================================================================== *)
(** * Python values *)
(* ===================================================================== *)

(** A Python string, as the sequence of its Unicode code points. *)
Definition str := list N.

(** An ASCII literal of the source as a [str]. *)
Definition lit (s : string) : str :=
  List.map N_of_ascii (list_ascii_of_string s).


(** [str.isspace] on one character: the code points Python's
    [str.split()] treats as separators. *)
Definition isspace (c : N) : bool :=
  ((9 <=? c) && (c <=? 13) || (28 <=? c) && (c <=? 32)
   || (c =? 133) || (c =? 160) || (c =? 5760)
   || (8192 <=? c) && (c <=? 8202)
   || (c =? 8232) || (c =? 8233) || (c =? 8239) || (c =? 8287)
   || (c =? 12288))%N.

(** [text.split()]: maximal runs of non-whitespace characters.  [cur]
    is the word being read, reversed. *)
Fixpoint split_from (cur : str) (s : str) : list str :=
  match s with
  | [] => match cur with [] => [] | _ => [rev cur] end
  | c :: s' =>
      if isspace c then
        match cur with
        | [] => split_from [] s'
        | _ => rev cur :: split_from [] s'
        end
      else split_from (c :: cur) s'
  end.

Definition split (text : str) : list str := split_from [] text.

(** [sep.join(parts)]. *)
Fixpoint join (sep : str) (parts : list str) : str :=
  match parts with
  | [] => []
  | [p] => p
  | p :: rest => p ++ sep ++ join sep rest
  end.

(** [sum(ord(c) for c in text)]. *)
Definition sum_ord (text : str) : Z :=
  fold_right (fun c acc => Z.of_N c + acc) 0 text.

(** The exceptions the modelled code can meet, all of class
    [Exception]. *)
Inductive exn :=
| ValueError (msg : str)
| OverflowError (msg : str)
| FileNotFoundError (name : str)
| UnicodeEncodeError (msg : str)
| MemoryError (msg : str).

Inductive result (A : Type) :=
| Ok (a : A)
| Raise (e : exn).
Arguments Ok {A} a.
Arguments Raise {A} e.

Definition rbind {A B} (r : result A) (k : A -> result B) : result B :=
  match r with
  | Ok a => k a
  | Raise e => Raise e
  end.

Declare Scope py_scope.
Delimit Scope py_scope with py.
Notation "x ← y ; z" := (rbind y (fun x => z))
  (at level 20, y at level 100, z at level 200, only parsing) : py_scope.
Notation "' x ← y ; z" := (rbind y (fun x => z))
  (at level 20, x pattern, y at level 100, z at level 200, only parsing)
  : py_scope.
Local Open Scope py_scope.

(** ** Text *)

(** [str(n)] for an [int]. *)
Definition str_of_Z (n : Z) : str :=
  lit (DecimalString.NilZero.string_of_int (Z.to_int n)).

(** One hexadecimal digit, in lower case. *)
Definition hex_digit (d : N) : N :=
  if (d <? 10)%N then (48 + d)%N else (87 + d)%N.

(** The [k] low hexadecimal digits of [n], most significant first. *)
Fixpoint hex_fixed (k : nat) (n : N) : str :=
  match k with
  | O => []
  | S k' => hex_fixed k' (n / 16) ++ [hex_digit (n mod 16)]
  end.

Definition backslash : N := 92%N.

(** A character as Python escapes it in a [repr] and in the message of
    an encoding error: [\xhh], [\uhhhh] or [\Uhhhhhhhh]. *)
Definition escape (c : N) : str :=
  if (c <? 256)%N then backslash :: 120%N :: hex_fixed 2 c
  else if (c <? 65536)%N then backslash :: 117%N :: hex_fixed 4 c
  else backslash :: 85%N :: hex_fixed 8 c.

(** The number of leading characters of [s] that satisfy [bad]. *)
Fixpoint run_length (bad : N -> bool) (s : str) : Z :=
  match s with
  | [] => 0
  | c :: s' => if bad c then 1 + run_length bad s' else 0
  end.

(** What [s.encode(codec)] raises under the strict error handler, if
    anything: [has] tells the characters the codec can encode, [pos] is
    the position of the head of [s].  The error names the first run of
    characters the codec lacks. *)
Fixpoint encode_error_from (codec reason : str) (has : N -> bool) (pos : Z)
    (s : str) : option exn :=
  match s with
  | [] => None
  | c :: s' =>
      if has c then encode_error_from codec reason has (pos + 1) s'
      else
        let more := run_length (fun d => negb (has d)) s' in
        Some (UnicodeEncodeError
          (lit "'" ++ codec ++ lit "' codec can't encode " ++
           (if more =? 0
            then lit "character '" ++ escape c ++ lit "' in position " ++
                 str_of_Z pos
            else lit "characters in position " ++ str_of_Z pos ++ lit "-" ++
                 str_of_Z (pos + more)) ++
           lit ": " ++ reason))
  end.

Definition encode_error (codec reason : str) (has : N -> bool) (s : str)
    : option exn :=
  encode_error_from codec reason has 0 s.

(** A surrogate code point; UTF-8 encodes every character but these. *)
Definition is_surrogate (c : N) : bool := ((55296 <=? c) && (c <=? 57343))%N.

Definition utf8_has (c : N) : bool := negb (is_surrogate c).

Definition latin1_has (c : N) : bool := (c <? 256)%N.

(** [repr(s)] for a [str]: [isprintable] is [str.isprintable] on one
    character beyond ASCII (the Unicode database of the interpreter). *)
Definition repr_char (isprintable : N -> bool) (quote : N) (c : N) : str :=
  if (c =? quote)%N || (c =? backslash)%N then [backslash; c]
  else if (c =? 9)%N then [backslash; 116%N]
  else if (c =? 10)%N then [backslash; 110%N]
  else if (c =? 13)%N then [backslash; 114%N]
  else if (c <? 32)%N || (c =? 127)%N then escape c
  else if (c <? 127)%N then [c]
  else if isprintable c then [c]
  else escape c.

Definition py_repr (isprintable : N -> bool) (s : str) : str :=
  let has (q : N) := existsb (fun c => (c =? q)%N) s in
  let quote := if has 39%N && negb (has 34%N) then 34%N else 39%N in
  quote :: flat_map (repr_char isprintable quote) s ++ [quote].

(** A string read back from a NumPy array of strings: the array is of
    fixed width, padded with U+0000, and the padding is dropped on
    reading, together with any U+0000 the string itself ended in. *)
Fixpoint rstrip_nul (s : str) : str :=
  match s with
  | [] => []
  | c :: s' =>
      match rstrip_nul s' with
      | [] => if (c =? 0)%N then [] else [c]
      | r => c :: r
      end
  end.

(* ===================================================================== *)
(** * Floating point *)
(* ===================================================================== *)

(** ** binary64: Python [float], [np.float64] *)

(** The binary64 nearest to an integer (ties to even). *)
Definition float_of_Z (z : Z) : float :=
  SF2Prim (binary_normalize prec emax z 0 false).

(** [float(n)] for a Python [int], as the implicit conversion of
    [sample_rate * duration] performs it. *)
Definition float_of_int (n : Z) : result float :=
  let x := float_of_Z n in
  if is_infinity x
  then Raise (OverflowError (lit "int too large to convert to float"))
  else Ok x.

(** The integer part of a finite value, rounded toward zero. *)
Definition truncate (s : bool) (m : positive) (e : Z) : Z :=
  cond_Zopp s (Z.shiftl (Zpos m) e).

(** [int(x)] for a Python [float]. *)
Definition int_of_float (x : float) : result Z :=
  match Prim2SF x with
  | S754_nan => Raise (ValueError (lit "cannot convert float NaN to integer"))
  | S754_infinity _ =>
      Raise (OverflowError (lit "cannot convert float infinity to integer"))
  | S754_zero _ => Ok 0
  | S754_finite s m e => Ok (truncate s m e)
  end.

(** [n / d] for positive integers, rounded to the nearest integer, ties
    to even. *)
Definition round_half_even_div (n d : Z) : Z :=
  let q := n / d in
  match 2 * (n mod d) ?= d with
  | Lt => q
  | Gt => q + 1
  | Eq => if Z.even q then q else q + 1
  end.

(** [round(x)] for a Python [float]: the rounding the specification
    names for the buffer length.  The source does not call it. *)
Definition py_round (x : float) : result Z :=
  match Prim2SF x with
  | S754_nan => Raise (ValueError (lit "cannot convert float NaN to integer"))
  | S754_infinity _ =>
      Raise (OverflowError (lit "cannot convert float infinity to integer"))
  | S754_zero _ => Ok 0
  | S754_finite s m e =>
      Ok (cond_Zopp s
            (if 0 <=? e then Zpos m * 2 ^ e
             else round_half_even_div (Zpos m) (2 ^ (- e))))
  end.

(** [n / d] for Python [int]s (exact below 2^53, which covers every
    length that occurs here). *)
Definition truediv (n d : Z) : float := (float_of_Z n / float_of_Z d)%float.

Definition np_pi : float := 0x1.921fb54442d18p+1%float.

(** ** binary32: [np.float32] *)

Definition prec32 : Z := 24.
Definition emax32 : Z := 128.

(** A [np.float32] array element, as its 32-bit storage word. *)
Definition float32 := Z.

Definition is_float32 (w : float32) : Prop := 0 <= w < 2 ^ 32.

(** The value a 32-bit word stands for (IEEE 754 binary32). *)
Definition f32_value (w : float32) : spec_float :=
  let s := Z.testbit w 31 in
  let E := Z.land (Z.shiftr w 23) 255 in
  let f := Z.land w (2 ^ 23 - 1) in
  if E =? 0 then
    match f with
    | Zpos m => S754_finite s m (-149)
    | _ => S754_zero s
    end
  else if E =? 255 then
    (if f =? 0 then S754_infinity s else S754_nan)
  else
    match f + 2 ^ 23 with
    | Zpos m => S754_finite s m (E - 150)
    | _ => S754_nan
    end.

Definition sign_word (s : bool) : Z := if s then 2 ^ 31 else 0.

(** The word that stores a binary32 value.  A NaN is stored as the
    quiet NaN with an empty payload; its sign is not modelled. *)
Definition f32_word (v : spec_float) : float32 :=
  match v with
  | S754_zero s => sign_word s
  | S754_infinity s => sign_word s + 255 * 2 ^ 23
  | S754_nan => 255 * 2 ^ 23 + 2 ^ 22
  | S754_finite s m e => sign_word s + (e + 149) * 2 ^ 23 + Zpos m
  end.

(** Rounding of a binary64 value to binary32 (nearest, ties to even). *)
Definition SF64_to_SF32 (v : spec_float) : spec_float :=
  match v with
  | S754_finite s m e => binary_round prec32 emax32 s m e
  | _ => v
  end.

(** [x.astype(np.float32)] on one element. *)
Definition astype_float32 (x : float) : float32 :=
  f32_word (SF64_to_SF32 (Prim2SF x)).

Definition f32_mul (a b : spec_float) : spec_float := SFmul prec32 emax32 a b.

Definition f32_one : spec_float := S754_finite false 8388608 (-23).
Definition f32_minus_one : spec_float := S754_finite true 8388608 (-23).
Definition f32_32767 : spec_float := S754_finite false 16776704 (-9).

(** ** int16 *)

Definition wrap16 (z : Z) : Z := (z + 2 ^ 15) mod 2 ^ 16 - 2 ^ 15.

(* ===================================================================== *)
(** * NumPy and the Python runtime *)
(* ===================================================================== *)

(** What a process can observe besides its arguments. *)
Record ambient := {
  wall_clock : Z;
  process_id : Z;
  os_entropy : Z
}.

(** The library code the repository calls and does not define.
    [generator] is the state of a [np.random.Generator]; each draw
    returns the value and the advanced state. *)
Class Runtime := {
  generator : Type;
  (** [Generator(PCG64(SeedSequence(entropy)))] *)
  seed_generator : Z -> generator;
  (** one double in [0, 1) *)
  next_double : generator -> float * generator;
  (** one standard normal variate *)
  next_normal : generator -> float * generator;
  (** [integers(0, n)] for [0 < n] *)
  next_bounded : Z -> generator -> Z * generator;
  next_bounded_range :
    forall n g, 0 < n -> 0 <= fst (next_bounded n g) < n;
  np_sin : float -> float;
  (** [uuid.uuid5(uuid.NAMESPACE_DNS, name).int], for a name that
      UTF-8 can encode *)
  uuid5_dns_int : str -> Z;
  (** what a float-to-int16 cast leaves for a NaN or an infinity *)
  int16_of_invalid : Z;
  (** what the allocation of an array of [n] doubles raises, if
      anything (a length beyond what the machine can hold) *)
  array_refused : Z -> option exn
}.

Section NumPy.
Context `{RT : Runtime}.

(** [np.random.default_rng(seed)]: with no seed, fresh entropy is
    pulled from the operating system. *)
Definition default_rng (seed : option Z) (a : ambient) : generator :=
  match seed with
  | Some s => seed_generator s
  | None => seed_generator (os_entropy a)
  end.

(** [n] successive draws from one stream. *)
Fixpoint draws {A} (next : generator -> A * generator) (n : nat)
    (g : generator) : list A * generator :=
  match n with
  | O => ([], g)
  | S n' =>
      let '(x, g1) := next g in
      let '(xs, g2) := draws next n' g1 in
      (x :: xs, g2)
  end.

(** [rng.uniform(low, high)]. *)
Definition uniform (low high : float) (g : generator) : float * generator :=
  let '(u, g') := next_double g in
  ((low + (high - low) * u)%float, g').

(** [rng.uniform(low, high, size=n)]. *)
Definition uniform_n (low high : float) (n : nat) (g : generator)
    : list float * generator :=
  draws (uniform low high) n g.

(** [rng.standard_normal(n)]. *)
Definition standard_normal (n : nat) (g : generator)
    : list float * generator :=
  draws next_normal n g.

(** [rng.choice(a)] for a list of strings: the list becomes an array of
    strings, an index below [len(a)] is drawn and the element at that
    index is read back from the array; an empty [a] is refused. *)
Definition choice (a : list str) (g : generator)
    : result (str * generator) :=
  match a with
  | [] =>
      Raise (ValueError (lit "a cannot be empty unless no samples are taken"))
  | d :: _ =>
      let '(i, g') := next_bounded (Z.of_nat (length a)) g in
      Ok (rstrip_nul (nth (Z.to_nat i) a d), g')
  end.

(** [rng.choice(a, size=n)], with replacement. *)
Fixpoint choice_n (a : list str) (n : nat) (g : generator)
    : result (list str * generator) :=
  match n with
  | O => Ok ([], g)
  | S n' =>
      '(x, g1) ← choice a g;
      '(xs, g2) ← choice_n a n' g1;
      Ok (x :: xs, g2)
  end.

(** [np.linspace(start, stop, num, endpoint=False)].  The array is
    allocated here; the arrays made after it in [generate_waveform] have
    its length and are taken to be allocated as well. *)
Definition linspace (start stop : float) (num : Z) : result (list float) :=
  if num <? 0 then
    Raise (ValueError (lit "Number of samples must be non-negative."))
  else if array_refused num is Some e then Raise e
  else
    let delta := (stop - start)%float in
    let y := List.map (fun i => float_of_Z (Z.of_nat i)) (seq 0 (Z.to_nat num)) in
    let div := float_of_Z num in
    let y :=
      if 0 <? num then
        let step := (delta / div)%float in
        if (step =? 0)%float
        then List.map (fun v => (v / div * delta)%float) y
        else List.map (fun v => (v * step)%float) y
      else List.map (fun v => (v * delta)%float) y in
    Ok (List.map (fun v => (v + start)%float) y).

Definition zeros_like (t : list float) : list float :=
  List.map (fun _ => 0%float) t.

(** Element-wise [a + b] of two arrays of one shape. *)
Fixpoint add_arrays (a b : list float) : list float :=
  match a, b with
  | x :: a', y :: b' => (x + y)%float :: add_arrays a' b'
  | _, _ => []
  end.

(** [np.maximum]: the larger operand, a NaN if either is one. *)
Definition np_maximum (a b : float) : float :=
  if is_nan a then a
  else if is_nan b then b
  else if (a <? b)%float then b else a.

(** [np.max(a)]. *)
Definition np_max (a : list float) : result float :=
  match a with
  | [] =>
      Raise (ValueError (lit
        "zero-size array to reduction operation maximum which has no identity"))
  | x :: rest => Ok (fold_left np_maximum rest x)
  end.

Definition np_abs (a : list float) : list float := List.map abs a.

End NumPy.

(* ===================================================================== *)
(** * synaptic_resonator/generator.py *)
(* ===================================================================== *)

Section Generator.
Context `{RT : Runtime}.

(** One pass of the mixing loop: [waveform += np.sin(2*np.pi*f*t + phase)]
    with [phase] drawn from the stream. *)
Definition add_component (t : list float) (f : float)
    (st : list float * generator) : list float * generator :=
  let '(waveform, rng) := st in
  let '(phase, rng) := uniform 0 (2 * np_pi) rng in
  let component :=
    List.map (fun ti => np_sin (2 * np_pi * f * ti + phase)%float) t in
  (add_arrays waveform component, rng).

(** [uuid.uuid5(uuid.NAMESPACE_DNS, name).int]: the name is hashed as
    its UTF-8 bytes, and a name with a surrogate has none. *)
Definition uuid5_dns (name : str) : result Z :=
  match encode_error (lit "utf-8") (lit "surrogates not allowed") utf8_has name with
  | Some e => Raise e
  | None => Ok (uuid5_dns_int name)
  end.

(** The value of [waveform] after the noise has been added (lines 6 to
    15 of [generate_waveform]), before normalization. *)
Definition mixed_waveform (a : ambient) (text : str) (duration : float)
    (sample_rate : Z) : result (list float) :=
  uuid ← uuid5_dns text;
  let seed := Z.land uuid 0xFFFFFFFF in
  let rng := default_rng (Some seed) a in
  rate ← float_of_int sample_rate;
  num ← int_of_float (rate * duration)%float;
  t ← linspace 0 duration num;
  let '(freqs, rng) := uniform_n 100 1200 5 rng in
  let waveform := zeros_like t in
  let '(waveform, rng) :=
    fold_left (fun st f => add_component t f st) freqs (waveform, rng) in
  let '(noise, rng) := standard_normal (length t) rng in
  let waveform :=
    add_arrays waveform
      (List.map (fun x => (0x1.999999999999ap-4 * x)%float) noise) in
  Ok waveform.

(** [waveform /= np.max(np.abs(waveform))]. *)
Definition normalize (waveform : list float) : result (list float) :=
  peak ← np_max (np_abs waveform);
  Ok (List.map (fun x => (x / peak)%float) waveform).

Definition generate_waveform (a : ambient) (text : str) (duration : float)
    (sample_rate : Z) : result (list float32 * Z) :=
  waveform ← mixed_waveform a text duration sample_rate;
  waveform ← normalize waveform;
  Ok (List.map astype_float32 waveform, sample_rate).

Definition abstract : list str :=
  [lit "veil"; lit "echo"; lit "rift"; lit "pulse";
   lit "haze"; lit "shard"; lit "lumen"; lit "flux"].

Definition generate_fragment (a : ambient) (text : str) : result str :=
  let words := split text in
  let seed := sum_ord text in
  let rng := default_rng (Some seed) a in
  '(cryptic_word, rng) ←
    match words return result (str * generator) with
    | [] => Ok (lit "echo", rng)
    | _ => choice words rng
    end;
  '(fragment_words, rng) ← choice_n abstract 3 rng;
  let fragment := join (lit " ") fragment_words in
  Ok (cryptic_word ++ lit " " ++ fragment).

End Generator.

(* ===================================================================== *)
(** * Bytes, files and the console *)
(* ===================================================================== *)

Definition byte_of_Z (z : Z) : byte :=
  match Byte.of_N (Z.to_N (z mod 256)) with
  | Some b => b
  | None => x00
  end.

Definition Z_of_byte (b : byte) : Z := Z.of_N (Byte.to_N b).

(** The [n] low bytes of [z], least significant first. *)
Fixpoint le_bytes (n : nat) (z : Z) : list byte :=
  match n with
  | O => []
  | S n' => byte_of_Z z :: le_bytes n' (z / 256)
  end.

(** [a.tobytes()] for a [float32] array: the storage words, little-endian. *)
Definition tobytes_float32 (a : list float32) : list byte :=
  concat (List.map (le_bytes 4) a).

(** [a.tobytes()] for an [int16] array (two's complement). *)
Definition tobytes_int16 (a : list Z) : list byte :=
  concat (List.map (fun z => le_bytes 2 (z mod 2 ^ 16)) a).

(** Four bytes at a time, least significant first; a tail shorter than
    four bytes is not a word. *)
Fixpoint words_of_bytes (bs : list byte) : list float32 :=
  match bs with
  | b0 :: b1 :: b2 :: b3 :: rest =>
      (Z_of_byte b0 + 256 * (Z_of_byte b1 + 256 * (Z_of_byte b2
         + 256 * Z_of_byte b3))) :: words_of_bytes rest
  | _ => []
  end.

(** [np.frombuffer(data, dtype=np.float32)]. *)
Definition frombuffer_float32 (data : list byte) : result (list float32) :=
  if Z.of_nat (length data) mod 4 =? 0
  then Ok (words_of_bytes data)
  else Raise (ValueError (lit "buffer size must be a multiple of element size")).

(** Files by name, and the lines printed so far (oldest first).  The
    files are the regular files that can be read; a name that has none
    is the name of nothing. *)
Record world := {
  files : gmap str (list byte);
  stdout : list str
}.

(** A statement block: it may read and change the world, and ends with a
    value or a raised exception. *)
Definition io (A : Type) := world -> result A * world.

Definition io_ret {A} (a : A) : io A := fun w => (Ok a, w).

Definition io_bind {A B} (m : io A) (k : A -> io B) : io B :=
  fun w =>
    match m w with
    | (Ok a, w') => k a w'
    | (Raise e, w') => (Raise e, w')
    end.

Definition lift {A} (r : result A) : io A := fun w => (r, w).

(** [try: body / except Exception as e: handler(e)]. *)
Definition try_except {A} (body : io A) (handler : exn -> io A) : io A :=
  fun w =>
    match body w with
    | (Ok a, w') => (Ok a, w')
    | (Raise e, w') => handler e w'
    end.

(** What the machine may refuse. *)
Record platform := {
  (** what [sys.stdout.write] raises for a text, if anything (a
      character that the encoding of the console lacks); the separator
      and the end of line that [print] adds are taken to be accepted *)
  console_refuses : str -> option exn;
  (** what the conversion of a file name for the operating system
      raises, if anything (an embedded U+0000, a character that the
      encoding of file names lacks) *)
  name_refused : str -> option exn;
  (** what opening a file of that name for writing raises, if anything
      (an empty name, a missing directory, a lack of permission) *)
  open_refused : str -> option exn;
  (** [str.isprintable] on one character beyond ASCII *)
  isprintable : N -> bool
}.

(** [open(name, 'rb').read()]. *)
Definition read_file_on (p : platform) (name : str) : io (list byte) :=
  fun w =>
    match name_refused p name with
    | Some e => (Raise e, w)
    | None =>
        match files w !! name with
        | Some data => (Ok data, w)
        | None => (Raise (FileNotFoundError name), w)
        end
    end.

(** A file opened with mode ['wb'], written and closed. *)
Definition write_file_on (p : platform) (name : str) (data : list byte)
    : io unit :=
  fun w =>
    match name_refused p name with
    | Some e => (Raise e, w)
    | None =>
        match open_refused p name with
        | Some e => (Raise e, w)
        | None =>
            (Ok tt, {| files := <[name := data]> (files w); stdout := stdout w |})
        end
    end.

(** [print(line)]: the line is written in one piece, then the end of
    line. *)
Definition print_on (p : platform) (line : str) : io unit :=
  fun w =>
    match console_refuses p line with
    | Some e => (Raise e, w)
    | None => (Ok tt, {| files := files w; stdout := stdout w ++ [line] |})
    end.

(** [print(a, b)]: [a], a space, [b] and the end of line are written one
    after the other; when [b] is refused, [a] and the space have been
    written, and are kept as a line that was not ended. *)
Definition print2_on (p : platform) (a b : str) : io unit :=
  fun w =>
    match console_refuses p a with
    | Some e => (Raise e, w)
    | None =>
        match console_refuses p b with
        | Some e =>
            (Raise e, {| files := files w; stdout := stdout w ++ [a ++ lit " "] |})
        | None =>
            (Ok tt, {| files := files w;
                       stdout := stdout w ++ [a ++ lit " " ++ b] |})
        end
    end.

(** The platform that refuses nothing. *)
Definition permissive : platform := {|
  console_refuses := fun _ => None;
  name_refused := fun _ => None;
  open_refused := fun _ => None;
  isprintable := fun _ => true
|}.

Declare Scope io_scope.
Delimit Scope io_scope with io.
Notation "x ← y ; z" := (io_bind y (fun x => z))
  (at level 20, y at level 100, z at level 200, only parsing) : io_scope.
Notation "x ;; z" := (io_bind x (fun _ => z))
  (at level 100, z at level 200, only parsing, right associativity) : io_scope.

(** ** Text formatting *)

(** Groups of three digits from the right, separated by commas; the
    argument is a reversed digit string. *)
Fixpoint group3 (k : nat) (rev_digits : str) : str :=
  match rev_digits with
  | [] => []
  | c :: rest =>
      match k, rest with
      | 2%nat, _ :: _ => c :: 44%N :: group3 0 rest
      | _, _ => c :: group3 (S k) rest
      end
  end.

(** [f"{n:,}"] for [0 <= n]. *)
Definition format_comma (n : Z) : str :=
  rev (group3 0 (rev (str_of_Z n))).

Definition two_digits (n : Z) : str :=
  if n <? 10 then lit "0" ++ str_of_Z n else str_of_Z n.

(** [f"{x:.2f}"]: the exact value of [x], rounded to hundredths (ties to
    even). *)
Definition format_2f (x : float) : str :=
  match Prim2SF x with
  | S754_nan => lit "nan"
  | S754_infinity s => if s then lit "-inf" else lit "inf"
  | S754_zero s => (if s then lit "-" else []) ++ lit "0.00"
  | S754_finite s m e =>
      let h :=
        if 0 <=? e then Zpos m * 2 ^ e * 100
        else round_half_even_div (Zpos m * 100) (2 ^ (- e)) in
      (if s then lit "-" else []) ++
      str_of_Z (h / 100) ++ lit "." ++ two_digits (h mod 100)
  end.

(** [str(e)] for a caught exception. *)
Definition exn_str (p : platform) (e : exn) : str :=
  match e with
  | ValueError msg => msg
  | OverflowError msg => msg
  | FileNotFoundError name =>
      lit "[Errno 2] No such file or directory: " ++ py_repr (isprintable p) name
  | UnicodeEncodeError msg => msg
  | MemoryError msg => msg
  end.

Fixpoint is_prefix (p s : str) : bool :=
  match p, s with
  | [], _ => true
  | c :: p', d :: s' => (c =? d)%N && is_prefix p' s'
  | _ :: _, [] => false
  end.

(** [s.replace(old, new)] for a non-empty [old]: every occurrence, left
    to right, without overlap.  [skip] characters of a match just
    replaced remain to be dropped. *)
Fixpoint replace_from (skip : nat) (old new s : str) : str :=
  match s with
  | [] => []
  | c :: s' =>
      match skip with
      | S k => replace_from k old new s'
      | O =>
          if is_prefix old s
          then new ++ replace_from (length old - 1) old new s'
          else c :: replace_from 0 old new s'
      end
  end.

Definition replace (old new s : str) : str := replace_from 0 old new s.

(* ===================================================================== *)
(** * play_audio.py *)
(* ===================================================================== *)

(** [np.clip(a, lo, hi)] on one [float32] element: [min(max(x, lo), hi)]
    with a NaN passed through. *)
Definition clip32 (lo hi : spec_float) (w : float32) : float32 :=
  let is_nan32 (u : float32) :=
    match f32_value u with S754_nan => true | _ => false end in
  let y := if is_nan32 w || SFltb lo (f32_value w) then w else f32_word lo in
  if is_nan32 y || SFltb (f32_value y) hi then y else f32_word hi.

Definition tag (s : string) : list byte :=
  List.map byte_of_ascii (list_ascii_of_string s).

(** The [wave] module: a canonical 44-byte RIFF header and the frames. *)
Definition wave_file (nchannels sampwidth framerate : Z) (frames : list byte)
    : list byte :=
  let datalength := Z.of_nat (length frames) in
  tag "RIFF" ++ le_bytes 4 (36 + datalength) ++ tag "WAVE" ++ tag "fmt " ++
  le_bytes 4 16 ++ le_bytes 2 1 ++ le_bytes 2 nchannels ++
  le_bytes 4 framerate ++ le_bytes 4 (nchannels * framerate * sampwidth) ++
  le_bytes 2 (nchannels * sampwidth) ++ le_bytes 2 (sampwidth * 8) ++
  tag "data" ++ le_bytes 4 datalength ++ frames.

Section PlayAudio.
Context `{RT : Runtime}.
Local Open Scope io_scope.

(** [x.astype(np.int16)] on one [float32] value: the fraction is
    dropped; what a NaN or an infinity gives is the platform's. *)
Definition astype_int16 (v : spec_float) : Z :=
  match v with
  | S754_zero _ => 0
  | S754_finite s m e => wrap16 (truncate s m e)
  | _ => int16_of_invalid
  end.

(** [(np.clip(audio_data, -1.0, 1.0) * 32767).astype(np.int16)] on one
    element. *)
Definition pcm16 (w : float32) : Z :=
  let clipped := clip32 f32_minus_one f32_one w in
  astype_int16 (f32_mul (f32_value clipped) f32_32767).

Definition convert_to_wav_on (p : platform) (raw_file : str)
    (wav_file : option str) : io (option str) :=
  try_except
    (data ← read_file_on p raw_file;
     audio_data ← lift (frombuffer_float32 data);
     let audio_data := List.map (clip32 f32_minus_one f32_one) audio_data in
     let audio_int16 :=
       List.map (fun w => astype_int16 (f32_mul (f32_value w) f32_32767))
         audio_data in
     let wav_file :=
       match wav_file with
       | None => replace (lit ".raw") (lit ".wav") raw_file
       | Some name => name
       end in
     write_file_on p wav_file (wave_file 1 2 44100 (tobytes_int16 audio_int16));;
     print_on p ([10003%N] ++ lit " Converted " ++ raw_file ++ lit " to " ++ wav_file);;
     print_on p (lit "  Duration: " ++
                 format_2f (truediv (Z.of_nat (length audio_data)) 44100) ++
                 lit " seconds");;
     print_on p (lit "  Samples: " ++ format_comma (Z.of_nat (length audio_data)));;
     io_ret (Some wav_file))
    (fun e =>
       print_on p (lit "Error converting file: " ++ exn_str p e);;
       io_ret None).

Definition info_on (p : platform) (raw_file : str) : io unit :=
  try_except
    (data ← read_file_on p raw_file;
     let samples := Z.of_nat (length data) / 4 in
     let duration := truediv samples 44100 in
     print_on p (lit "File: " ++ raw_file);;
     print_on p (lit "Size: " ++ format_comma (Z.of_nat (length data)) ++ lit " bytes");;
     print_on p (lit "Samples: " ++ format_comma samples);;
     print_on p (lit "Duration: " ++ format_2f duration ++ lit " seconds");;
     print_on p (lit "Format: 32-bit float PCM");;
     print_on p (lit "Sample Rate: 44100 Hz");;
     print_on p (lit "Channels: Mono"))
    (fun e => print_on p (lit "Error reading file: " ++ exn_str p e)).

(** On the platform that refuses nothing. *)
Definition convert_to_wav (raw_file : str) (wav_file : option str)
    : io (option str) :=
  convert_to_wav_on permissive raw_file wav_file.

Definition info (raw_file : str) : io unit := info_on permissive raw_file.

End PlayAudio.

(** ** Playing, and the command line *)

(** The parsed command line. *)
Record Args := {
  arg_file : str;
  arg_convert : bool;
  arg_play : bool;
  arg_info : bool;
  arg_output : option str
}.

Section CommandLine.
Context `{RT : Runtime}.

(** [subprocess.run(cmd, check=True)]: the external player, which may
    do anything to the files and the console and may raise an
    exception (of class [Exception]). *)
Variable subprocess_run : list str -> io unit.

Local Open Scope io_scope.

Definition play_with_ffplay_on (p : platform) (raw_file : str) : io unit :=
  try_except
    (let cmd := [lit "ffplay"; lit "-f"; lit "f32le"; lit "-ar"; lit "44100";
                 lit "-ac"; lit "1"; lit "-autoexit"; raw_file] in
     subprocess_run cmd)
    (fun e =>
       match e with
       | FileNotFoundError _ =>
           print_on p
             (lit "Error: ffplay not found. Install ffmpeg to use this feature.");;
           print2_on p
             (lit "  Or convert to WAV first: python3 play_audio.py --convert")
             raw_file
       | _ => print_on p (lit "Error playing file: " ++ exn_str p e)
       end).

Definition main_on (p : platform) (args : Args) : io unit :=
  (if arg_info args || (negb (arg_convert args) && negb (arg_play args))
   then info_on p (arg_file args)
   else io_ret tt);;
  (if arg_convert args
   then (_ ← convert_to_wav_on p (arg_file args) (arg_output args); io_ret tt)
   else io_ret tt);;
  (if arg_play args
   then play_with_ffplay_on p (arg_file args)
   else io_ret tt).

(** On the platform that refuses nothing. *)
Definition play_with_ffplay (raw_file : str) : io unit :=
  play_with_ffplay_on permissive raw_file.

Definition main (args : Args) : io unit := main_on permissive args.

End CommandLine.

(* ===================================================================== *)
(** * main.py *)
(* ===================================================================== *)

Record Response := {
  content : list byte;
  media_type : str;
  headers : list (str * str)
}.

(** What [Response(...)] raises for its headers, if anything: the
    names and the values are encoded as Latin-1, one header after the
    other.  (The names are put in lower case first, which changes
    nothing for the ASCII names of this program.) *)
Fixpoint headers_error (hs : list (str * str)) : option exn :=
  match hs with
  | [] => None
  | (k, v) :: rest =>
      let latin1 := encode_error (lit "latin-1") (lit "ordinal not in range(256)")
                      latin1_has in
      match latin1 k with
      | Some e => Some e
      | None =>
          match latin1 v with
          | Some e => Some e
          | None => headers_error rest
          end
      end
  end.

(** [Response(content=..., media_type=..., headers=...)]. *)
Definition new_response (content : list byte) (media_type : str)
    (headers : list (str * str)) : result Response :=
  match headers_error headers with
  | Some e => Raise e
  | None =>
      Ok {| content := content; media_type := media_type; headers := headers |}
  end.

Section Main.
Context `{RT : Runtime}.

Definition resonate (a : ambient) (input_text : str) : result Response :=
  '(waveform, sr) ← generate_waveform a input_text 2 44100;
  fragment ← generate_fragment a input_text;
  let audio_bytes := tobytes_float32 waveform in
  let headers := [(lit "X-Memory-Fragment", fragment);
                  (lit "X-Sample-Rate", str_of_Z sr)] in
  new_response audio_bytes (lit "application/octet-stream") headers.

End Main.

(* ===================================================================== *)
(** * Small runtimes and machines *)
(* ===================================================================== *)

(** Instances of [Runtime] on which the embedding can be run.  They
    stand in for NumPy's generator and for the C library's sine; nothing
    proved for every runtime depends on them. *)

Definition lcg_step (g : Z) : Z :=
  (6364136223846793005 * g + 1442695040888963407) mod 2 ^ 64.

Definition lcg_double (g : Z) : float * Z :=
  let g' := lcg_step g in
  ((float_of_Z (g' / 2 ^ 11) * 0x1p-53)%float, g').

Definition lcg_bounded (n g : Z) : Z * Z :=
  let g' := lcg_step g in ((g' / 2 ^ 32) mod n, g').

Definition soft_sign (x : float) : float := (x / (1 + abs x))%float.

Definition poly_hash (text : str) : Z :=
  fold_left (fun h c => (31 * h + Z.of_N c) mod 2 ^ 128) text 7.

(** A machine that holds arrays of up to 2^31 elements. *)
Definition small_arrays (n : Z) : option exn :=
  if n <=? 2 ^ 31 then None
  else Some (MemoryError (lit "Unable to allocate the array")).

Lemma lcg_bounded_range n g : 0 < n -> 0 <= fst (lcg_bounded n g) < n.
Proof. intros Hn. unfold lcg_bounded. simpl. apply Z.mod_pos_bound, Hn. Qed.

(** A linear congruential generator; the normal variate is a centred
    uniform one. *)
Definition lcg_runtime : Runtime := {|
  generator := Z;
  seed_generator := fun s => s mod 2 ^ 64;
  next_double := lcg_double;
  next_normal := fun g => let '(u, g') := lcg_double g in ((2 * u - 1)%float, g');
  next_bounded := lcg_bounded;
  next_bounded_range := lcg_bounded_range;
  np_sin := soft_sign;
  uuid5_dns_int := poly_hash;
  int16_of_invalid := 0;
  array_refused := small_arrays
|}.

Lemma zero_bounded_range (n : Z) (g : unit) :
  0 < n -> 0 <= fst (0, g) < n.
Proof. simpl. lia. Qed.

(** A generator whose every draw is zero. *)
Definition stuck_runtime : Runtime := {|
  generator := unit;
  seed_generator := fun _ => tt;
  next_double := fun g => (0%float, g);
  next_normal := fun g => (0%float, g);
  next_bounded := fun _ g => (0, g);
  next_bounded_range := zero_bounded_range;
  np_sin := soft_sign;
  uuid5_dns_int := poly_hash;
  int16_of_invalid := 0;
  array_refused := small_arrays
|}.

(** A machine whose console has the characters [has] of an encoding:
    a line with any other character is refused, as is a file name with
    U+0000 and the opening of a file without a name.  Its Unicode
    database is cut down to Latin-1. *)
Definition terminal (codec reason : str) (has : N -> bool) : platform := {|
  console_refuses := encode_error codec reason has;
  name_refused := fun name =>
    if existsb (fun c => (c =? 0)%N) name
    then Some (ValueError (lit "embedded null byte"))
    else None;
  open_refused := fun name =>
    match name with
    | [] => Some (FileNotFoundError [])
    | _ => None
    end;
  isprintable := fun c => ((161 <=? c) && (c <=? 255) && negb (c =? 173))%N
|}.

Definition ascii_has (c : N) : bool := (c <? 128)%N.

Definition ascii_terminal : platform :=
  terminal (lit "ascii") (lit "ordinal not in range(128)") ascii_has.

Definition utf8_terminal : platform :=
  terminal (lit "utf-8") (lit "surrogates not allowed") utf8_has.

Definition sample_ambient : ambient :=
  {| wall_clock := 1793718000; process_id := 4711; os_entropy := 271828 |}.

Definition other_ambient : ambient :=
  {| wall_clock := 1793718001; process_id := 4712; os_entropy := 314159 |}.

(* ===================================================================== *)
(** * Properties *)
(* ===================================================================== *)

(** ** Bytes and words *)

Lemma Z_of_byte_range (b : byte) : 0 <= Z_of_byte b < 256.
Proof.
  unfold Z_of_byte. pose proof (Byte.to_N_bounded b). lia.
Qed.

Lemma Z_of_byte_of_Z (z : Z) : Z_of_byte (byte_of_Z z) = z mod 256.
Proof.
  unfold Z_of_byte, byte_of_Z.
  pose proof (Z.mod_pos_bound z 256 ltac:(lia)) as Hr.
  destruct (Byte.of_N (Z.to_N (z mod 256))) as [b|] eqn:Hb.
  - apply Byte.to_of_N in Hb. rewrite Hb. lia.
  - apply Byte.of_N_None_iff in Hb. lia.
Qed.

Lemma byte_of_Z_of_byte (b : byte) : byte_of_Z (Z_of_byte b) = b.
Proof.
  unfold byte_of_Z. pose proof (Z_of_byte_range b) as Hr.
  rewrite Z.mod_small by lia. unfold Z_of_byte.
  rewrite N2Z.id, Byte.of_to_N. reflexivity.
Qed.

Lemma length_le_bytes (n : nat) (z : Z) : length (le_bytes n z) = n.
Proof. revert z. induction n as [|n IH]; intros z; simpl; [|rewrite IH]; reflexivity. Qed.

Lemma length_tobytes_float32 (a : list float32) :
  length (tobytes_float32 a) = (4 * length a)%nat.
Proof.
  unfold tobytes_float32. induction a as [|w a IH]; [reflexivity|].
  cbn [List.map concat]. rewrite length_app, length_le_bytes, IH.
  cbn [length]. lia.
Qed.

(** Reading back the four bytes of a word. *)
Lemma words_of_le_bytes (w : float32) (rest : list byte) :
  is_float32 w ->
  words_of_bytes (le_bytes 4 w ++ rest) = w :: words_of_bytes rest.
Proof.
  intros Hw. unfold is_float32 in Hw.
  change (2 ^ 32) with 4294967296 in Hw.
  cbn [le_bytes app words_of_bytes]. f_equal.
  rewrite !Z_of_byte_of_Z.
  assert (Hhi : 0 <= w / 256 / 256 / 256 < 256).
  { rewrite !Z.div_div by lia.
    split; [apply Z.div_pos; lia | apply Z.div_lt_upper_bound; lia]. }
  rewrite (Z.mod_small (w / 256 / 256 / 256) 256) by exact Hhi.
  pose proof (Z.div_mod w 256 ltac:(lia)).
  pose proof (Z.div_mod (w / 256) 256 ltac:(lia)).
  pose proof (Z.div_mod (w / 256 / 256) 256 ltac:(lia)).
  lia.
Qed.

Lemma words_of_tobytes (a : list float32) :
  Forall is_float32 a -> words_of_bytes (tobytes_float32 a) = a.
Proof.
  unfold tobytes_float32.
  induction 1 as [|w a Hw _ IH]; [reflexivity|].
  cbn [List.map concat]. rewrite words_of_le_bytes by exact Hw.
  rewrite IH. reflexivity.
Qed.

(** C3. Decoding the bytes that encode a float32 buffer gives the buffer
    back: the same number of samples and, sample by sample, the same
    32-bit word, hence the same value. *)
Theorem codec_round_trip (buffer : list float32) :
  Forall is_float32 buffer ->
  frombuffer_float32 (tobytes_float32 buffer) = Ok buffer.
Proof.
  intros Hbuf. unfold frombuffer_float32.
  rewrite length_tobytes_float32.
  replace (Z.of_nat (4 * length buffer) mod 4) with 0.
  2:{ rewrite Nat2Z.inj_mul, Z.mul_comm, Z.mod_mul by lia. reflexivity. }
  cbn [Z.eqb]. rewrite words_of_tobytes by exact Hbuf. reflexivity.
Qed.

Lemma codec_round_trip_witness :
  Forall is_float32 [1065353216; 3212836864; 0; 2143289344] /\
  frombuffer_float32 (tobytes_float32 [1065353216; 3212836864; 0; 2143289344])
  = Ok [1065353216; 3212836864; 0; 2143289344].
Proof.
  assert (H : Forall is_float32 [1065353216; 3212836864; 0; 2143289344]).
  { repeat constructor; unfold is_float32; lia. }
  split; [exact H | exact (codec_round_trip _ H)].
Defined.

(** ** Byte lengths that are not a multiple of four *)

Definition element_size_message : str :=
  lit "buffer size must be a multiple of element size".

Lemma frombuffer_rejects (data : list byte) :
  Z.of_nat (length data) mod 4 <> 0 ->
  frombuffer_float32 data = Raise (ValueError element_size_message).
Proof.
  intros Hlen. unfold frombuffer_float32.
  destruct (Z.eqb_spec (Z.of_nat (length data) mod 4) 0) as [E|_]; [contradiction|].
  reflexivity.
Qed.

Lemma frombuffer_accepts (data : list byte) :
  Z.of_nat (length data) mod 4 = 0 ->
  frombuffer_float32 data = Ok (words_of_bytes data).
Proof. intros Hlen. unfold frombuffer_float32. rewrite Hlen. reflexivity. Qed.

(** What [info] prints for a file that exists. *)
Definition info_lines (raw_file : str) (data : list byte) : list str :=
  let samples := Z.of_nat (length data) / 4 in
  [lit "File: " ++ raw_file;
   lit "Size: " ++ format_comma (Z.of_nat (length data)) ++ lit " bytes";
   lit "Samples: " ++ format_comma samples;
   lit "Duration: " ++ format_2f (truediv samples 44100) ++ lit " seconds";
   lit "Format: 32-bit float PCM";
   lit "Sample Rate: 44100 Hz";
   lit "Channels: Mono"].

Lemma info_of_file (w : world) (raw_file : str) (data : list byte) :
  files w !! raw_file = Some data ->
  info raw_file w =
    (Ok tt, {| files := files w; stdout := stdout w ++ info_lines raw_file data |}).
Proof.
  intros Hfile.
  unfold info, info_on, try_except, io_bind, read_file_on, print_on.
  cbn [permissive name_refused console_refuses]. rewrite Hfile.
  cbn [files stdout]. unfold info_lines.
  rewrite <- !app_assoc. reflexivity.
Qed.

Lemma info_of_missing_file (w : world) (raw_file : str) :
  files w !! raw_file = None ->
  info raw_file w =
    (Ok tt, {| files := files w;
               stdout := stdout w ++
                 [lit "Error reading file: " ++
                  exn_str permissive (FileNotFoundError raw_file)] |}).
Proof.
  intros Hfile.
  unfold info, info_on, try_except, io_bind, read_file_on, print_on.
  cbn [permissive name_refused console_refuses]. rewrite Hfile.
  reflexivity.
Qed.

(** A world with one five-byte file. *)
Definition five_byte_world : world :=
  {| files := {[ lit "odd.raw" := [x00; x00; x80; x3f; x01] ]}; stdout := [] |}.

(** C4, as stated, fails for [info]: on a file of five bytes it reports
    no error, counts one sample and prints a duration. *)
Lemma info_five_bytes :
  Z.of_nat (length [x00; x00; x80; x3f; x01]) mod 4 <> 0 /\
  info (lit "odd.raw") five_byte_world =
    (Ok tt,
     {| files := files five_byte_world;
        stdout := [lit "File: odd.raw"; lit "Size: 5 bytes"; lit "Samples: 1";
                   lit "Duration: 0.00 seconds"; lit "Format: 32-bit float PCM";
                   lit "Sample Rate: 44100 Hz"; lit "Channels: Mono"] |}).
Proof. split; [discriminate | vm_compute; reflexivity]. Qed.

(** C4, amended. For a byte sequence whose length is not a multiple of
    four, decoding raises an error and interprets nothing, while [info]
    reports no error: it prints the sample count [len // 4] and the
    duration computed from it. *)
Theorem odd_length_decode_and_info (data : list byte) :
  Z.of_nat (length data) mod 4 <> 0 ->
  frombuffer_float32 data = Raise (ValueError element_size_message) /\
  forall (w : world) (raw_file : str),
    files w !! raw_file = Some data ->
    info raw_file w =
      (Ok tt,
       {| files := files w; stdout := stdout w ++ info_lines raw_file data |}).
Proof.
  intros Hlen. split.
  - apply frombuffer_rejects, Hlen.
  - intros w raw_file Hfile. apply info_of_file, Hfile.
Qed.

Lemma odd_length_decode_and_info_witness :
  frombuffer_float32 [x00; x00; x80; x3f; x01]
    = Raise (ValueError element_size_message) /\
  forall (w : world) (raw_file : str),
    files w !! raw_file = Some [x00; x00; x80; x3f; x01] ->
    info raw_file w =
      (Ok tt,
       {| files := files w;
          stdout := stdout w ++ info_lines raw_file [x00; x00; x80; x3f; x01] |}).
Proof.
  apply (odd_length_decode_and_info [x00; x00; x80; x3f; x01]).
  discriminate.
Defined.

Section ConvertProperties.
Context `{RT : Runtime}.

(** C10. When the raw file's length is not a multiple of four,
    [convert_to_wav] raises nothing and returns [None]; it prints the
    decode error and leaves every file as it was, so no WAV file is
    created. *)
Theorem convert_to_wav_odd_length (w : world) (raw_file : str)
    (wav_file : option str) (data : list byte) :
  files w !! raw_file = Some data ->
  Z.of_nat (length data) mod 4 <> 0 ->
  convert_to_wav raw_file wav_file w =
    (Ok None,
     {| files := files w;
        stdout := stdout w ++
          [lit "Error converting file: " ++ element_size_message] |}).
Proof.
  intros Hfile Hlen.
  unfold convert_to_wav, convert_to_wav_on, try_except, io_bind, read_file_on,
    lift.
  cbn [permissive name_refused]. rewrite Hfile, (frombuffer_rejects data Hlen).
  reflexivity.
Qed.

End ConvertProperties.

Lemma convert_to_wav_odd_length_witness :
  files five_byte_world !! lit "odd.raw" = Some [x00; x00; x80; x3f; x01] /\
  Z.of_nat (length [x00; x00; x80; x3f; x01]) mod 4 <> 0 /\
  @convert_to_wav lcg_runtime (lit "odd.raw") None five_byte_world =
    (Ok None,
     {| files := files five_byte_world;
        stdout := stdout five_byte_world ++
          [lit "Error converting file: " ++ element_size_message] |}).
Proof.
  assert (Hfile : files five_byte_world !! lit "odd.raw"
                  = Some [x00; x00; x80; x3f; x01]) by (vm_compute; reflexivity).
  assert (Hlen : Z.of_nat (length [x00; x00; x80; x3f; x01]) mod 4 <> 0)
    by discriminate.
  split; [exact Hfile|]. split; [exact Hlen|].
  exact (@convert_to_wav_odd_length lcg_runtime _ _ None _ Hfile Hlen).
Defined.

(** ** Words and tokens *)

(** A token: at least one character, none of them whitespace. *)
Definition token (w : str) : Prop :=
  w <> [] /\ Forall (fun c => isspace c = false) w.

Lemma token_rev (w : str) : token w -> token (rev w).
Proof.
  intros [Hne Hall]. split.
  - intros E. apply Hne. rewrite <- (rev_involutive w), E. reflexivity.
  - apply Forall_forall. intros c Hc. apply list_elem_of_In, in_rev in Hc.
    rewrite Forall_forall in Hall. apply Hall, list_elem_of_In, Hc.
Qed.

(** Every word [split] returns is a token. *)
Lemma split_from_tokens (s cur : str) :
  Forall (fun c => isspace c = false) cur ->
  Forall token (split_from cur s).
Proof.
  revert cur. induction s as [|c s IH]; intros cur Hcur; cbn [split_from].
  - destruct cur as [|d cur]; constructor; [|constructor].
    apply token_rev. split; [discriminate | exact Hcur].
  - destruct (isspace c) eqn:Hc.
    + destruct cur as [|d cur].
      * apply IH. constructor.
      * constructor; [|apply IH; constructor].
        apply token_rev. split; [discriminate | exact Hcur].
    + apply IH. constructor; assumption.
Qed.

Lemma split_tokens (text : str) : Forall token (split text).
Proof. apply split_from_tokens. constructor. Qed.






Lemma echo_token : token (lit "echo").
Proof. split; [discriminate | vm_compute; repeat constructor]. Qed.

(** What is read back from an array of strings is the string without
    the U+0000 it ended in. *)
Lemma rstrip_nul_padding (s : str) :
  exists pad, s = rstrip_nul s ++ pad /\ Forall (fun c => c = 0%N) pad.
Proof.
  induction s as [|c s (pad & Hs & Hpad)]; [exists []; split; [reflexivity | constructor]|].
  cbn [rstrip_nul]. destruct (rstrip_nul s) as [|d r] eqn:Hr.
  - destruct (N.eqb_spec c 0) as [->|Hc].
    + exists (0%N :: pad). split; [cbn in Hs |- *; congruence|].
      constructor; [reflexivity | exact Hpad].
    + exists pad. cbn in Hs |- *. split; [congruence | exact Hpad].
  - exists pad. split; [|exact Hpad]. cbn [app] in Hs |- *. congruence.
Qed.

Lemma rstrip_nul_Forall (P : N -> Prop) (s : str) :
  Forall P s -> Forall P (rstrip_nul s).
Proof.
  intros Hs. destruct (rstrip_nul_padding s) as (pad & Heq & _).
  rewrite Heq in Hs. apply Forall_app in Hs. apply Hs.
Qed.


Lemma abstract_unpadded (t : str) : t ∈ abstract -> rstrip_nul t = t.
Proof.
  intros Hin. apply list_elem_of_In in Hin. unfold abstract in Hin.
  cbn [In] in Hin.
  repeat (destruct Hin as [<- | Hin]; [reflexivity|]). contradiction.
Qed.

Section FragmentProperties.
Context `{RT : Runtime}.

(** The index [choice] draws in a population of [n] elements. *)
Definition drawn_index (n : nat) (g : generator) : nat :=
  Z.to_nat (fst (next_bounded (Z.of_nat n) g)).

Lemma drawn_index_range (n : nat) (g : generator) :
  (0 < n)%nat -> (drawn_index n g < n)%nat.
Proof.
  intros Hn. unfold drawn_index.
  pose proof (next_bounded_range (Z.of_nat n) g ltac:(lia)). lia.
Qed.

(** [choice] answers for every non-empty population, with the element
    at the index drawn, read back from the array. *)
Lemma choice_elem (a : list str) (g : generator) (d : str) :
  a <> [] ->
  choice a g =
    Ok (rstrip_nul (nth (drawn_index (length a) g) a d),
        snd (next_bounded (Z.of_nat (length a)) g)) /\
  nth (drawn_index (length a) g) a d ∈ a.
Proof.
  intros Hne. destruct a as [|d0 a']; [contradiction|].
  unfold choice. set (pop := d0 :: a').
  pose proof (drawn_index_range (length pop) g ltac:(subst pop; cbn; lia))
    as Hrange.
  unfold drawn_index in *.
  destruct (next_bounded (Z.of_nat (length pop)) g) as [i g'] eqn:Hdraw.
  cbn [fst snd] in *. split.
  - rewrite (nth_indep pop d0 d Hrange). reflexivity.
  - apply list_elem_of_In, nth_In, Hrange.
Qed.

Lemma choice_n_abstract (n : nat) (g : generator) :
  exists xs g',
    choice_n abstract n g = Ok (xs, g') /\ length xs = n /\
    Forall (.∈ abstract) xs.
Proof.
  revert g. induction n as [|n IH]; intros g.
  - exists [], g. repeat split. constructor.
  - destruct (choice_elem abstract g [] ltac:(discriminate)) as (Hx & Hin).
    destruct (IH (snd (next_bounded (Z.of_nat (length abstract)) g)))
      as (xs & g2 & Hxs & Hlen & Hall).
    eexists (_ :: xs), g2. cbn [choice_n]. rewrite Hx. cbn [rbind].
    rewrite Hxs. cbn [rbind]. repeat split.
    + cbn [length]. rewrite Hlen. reflexivity.
    + constructor; [|exact Hall]. rewrite (abstract_unpadded _ Hin). exact Hin.
Qed.

(** The first word of the fragment, before it is read back from the
    array. *)
Definition cryptic_choice (text : str) (word : str) : Prop :=
  match split text with
  | [] => word = lit "echo"
  | _ :: _ => word ∈ split text
  end.

(** The generator of [generate_fragment], and its state once the first
    word has been drawn. *)
Definition fragment_rng (a : ambient) (text : str) : generator :=
  default_rng (Some (sum_ord text)) a.

Definition drawn_word (a : ambient) (text : str) : str :=
  nth (drawn_index (length (split text)) (fragment_rng a text)) (split text)
    (lit "echo").

Definition rng_after_word (a : ambient) (text : str) : generator :=
  match split text with
  | [] => fragment_rng a text
  | _ :: _ =>
      snd (next_bounded (Z.of_nat (length (split text))) (fragment_rng a text))
  end.

(** Line 24 of [generate_fragment]. *)
Lemma cryptic_word_drawn (a : ambient) (text : str) :
  exists word,
    match split text return result (str * generator) with
    | [] => Ok (lit "echo", fragment_rng a text)
    | _ :: _ => choice (split text) (fragment_rng a text)
    end = Ok (rstrip_nul word, rng_after_word a text) /\
    cryptic_choice text word /\
    (split text <> [] -> word = drawn_word a text) /\
    token word.
Proof.
  unfold cryptic_choice, rng_after_word, drawn_word.
  pose proof (split_tokens text) as Hwords.
  destruct (split text) as [|w ws] eqn:Hs.
  - exists (lit "echo").
    split; [reflexivity|]. split; [reflexivity|].
    split; [intros E; contradiction | apply echo_token].
  - destruct (choice_elem (w :: ws) (fragment_rng a text) (lit "echo")
                ltac:(discriminate)) as (Hc & Hin).
    eexists. split; [exact Hc|]. split; [exact Hin|].
    split; [reflexivity|].
    rewrite Forall_forall in Hwords. apply (Hwords _ Hin).
Qed.

(** The fragment, as the words drawn. *)
Lemma generate_fragment_drawn (a : ambient) (text : str) :
  exists (word t1 t2 t3 : str) (g : generator),
    generate_fragment a text
      = Ok (join (lit " ") [rstrip_nul word; t1; t2; t3]) /\
    cryptic_choice text word /\
    (split text <> [] -> word = drawn_word a text) /\
    token word /\
    choice_n abstract 3 (rng_after_word a text) = Ok ([t1; t2; t3], g) /\
    t1 ∈ abstract /\ t2 ∈ abstract /\ t3 ∈ abstract.
Proof.
  unfold generate_fragment. fold (fragment_rng a text).
  destruct (cryptic_word_drawn a text) as (word & Hword & Hsel & Hidx & Htok).
  destruct (choice_n_abstract 3 (rng_after_word a text))
    as (ts & g2 & Hts & Hlen & Hall).
  destruct ts as [|t1 [|t2 [|t3 [|? ?]]]]; try discriminate Hlen.
  inversion Hall as [|? ? H1 Hall1]; subst.
  inversion Hall1 as [|? ? H2 Hall2]; subst.
  inversion Hall2 as [|? ? H3 _]; subst.
  exists word, t1, t2, t3, g2.
  rewrite Hword. cbn [rbind]. rewrite Hts. cbn [rbind].
  repeat (split; [first [reflexivity | assumption]|]). assumption.
Qed.


(** The scenario of the specification: the first token for
    ["the quiet lake"] is one of its three words. *)
Lemma generate_fragment_the_quiet_lake (a : ambient) :
  exists word rest : str,
    generate_fragment a (lit "the quiet lake") = Ok (word ++ lit " " ++ rest) /\
    word ∈ [lit "the"; lit "quiet"; lit "lake"].
Proof.
  destruct (generate_fragment_drawn a (lit "the quiet lake"))
    as (word & t1 & t2 & t3 & g & Hfrag & Hsel & _).
  exists (rstrip_nul word), (join (lit " ") [t1; t2; t3]).
  split; [exact Hfrag|].
  unfold cryptic_choice in Hsel.
  change (split (lit "the quiet lake"))
    with [lit "the"; lit "quiet"; lit "lake"] in Hsel.
  apply list_elem_of_In in Hsel. cbn [In] in Hsel.
  repeat (destruct Hsel as [<- | Hsel]; [apply list_elem_of_In; cbn; tauto|]).
  contradiction.
Qed.

End FragmentProperties.


(** ** Shapes of the arrays *)

(** ** Encoding errors *)

Lemma encode_error_from_cases (codec reason : str) (has : N -> bool) (s : str)
    (pos : Z) :
  (encode_error_from codec reason has pos s = None /\
   Forall (fun c => has c = true) s) \/
  (exists msg,
     encode_error_from codec reason has pos s = Some (UnicodeEncodeError msg) /\
     ~ Forall (fun c => has c = true) s).
Proof.
  revert pos. induction s as [|c s IH]; intros pos.
  - left. split; [reflexivity | constructor].
  - cbn [encode_error_from]. destruct (has c) eqn:Hc.
    + destruct (IH (pos + 1)) as [[Hnone Hall] | (msg & Hsome & Hnot)].
      * left. split; [exact Hnone | constructor; assumption].
      * right. exists msg. split; [exact Hsome|].
        intros Hall. apply Hnot. inversion Hall; assumption.
    + right. eexists. split; [reflexivity|].
      intros Hall. inversion Hall as [|? ? Hc' _]. congruence.
Qed.

(** A text is encoded exactly when the codec has all its characters;
    otherwise the error is a [UnicodeEncodeError]. *)
Lemma encode_error_none (codec reason : str) (has : N -> bool) (s : str) :
  encode_error codec reason has s = None <-> Forall (fun c => has c = true) s.
Proof.
  unfold encode_error.
  destruct (encode_error_from_cases codec reason has s 0)
    as [[Hnone Hall] | (msg & Hsome & Hnot)].
  - split; intros _; assumption.
  - split; [rewrite Hsome; discriminate | intros Hall; contradiction].
Qed.

Lemma encode_error_some (codec reason : str) (has : N -> bool) (s : str) :
  ~ Forall (fun c => has c = true) s ->
  exists msg, encode_error codec reason has s = Some (UnicodeEncodeError msg).
Proof.
  intros Hnot. unfold encode_error.
  destruct (encode_error_from_cases codec reason has s 0)
    as [[_ Hall] | (msg & Hsome & _)]; [contradiction|].
  exists msg. exact Hsome.
Qed.

(** A text that UTF-8 can encode: one without a surrogate. *)
Definition utf8_text (text : str) : Prop :=
  Forall (fun c => is_surrogate c = false) text.

Lemma utf8_text_has (text : str) :
  utf8_text text <-> Forall (fun c => utf8_has c = true) text.
Proof.
  unfold utf8_text, utf8_has. split; intros H; eapply Forall_impl; try exact H;
    cbv beta; intros c Hc; destruct (is_surrogate c); auto; discriminate.
Qed.

Section WaveformShape.
Context `{RT : Runtime}.

Lemma uuid5_dns_returns (text : str) :
  utf8_text text -> uuid5_dns text = Ok (uuid5_dns_int text).
Proof.
  intros Htext. unfold uuid5_dns.
  rewrite (proj2 (encode_error_none _ _ _ _) (proj1 (utf8_text_has _) Htext)).
  reflexivity.
Qed.

Lemma uuid5_dns_raises (text : str) :
  ~ utf8_text text ->
  exists msg, uuid5_dns text = Raise (UnicodeEncodeError msg).
Proof.
  intros Htext. unfold uuid5_dns.
  destruct (encode_error_some (lit "utf-8") (lit "surrogates not allowed")
              utf8_has text) as (msg & Hmsg).
  { intros Hall. apply Htext, utf8_text_has, Hall. }
  rewrite Hmsg. exists msg. reflexivity.
Qed.

Lemma utf8_text_dec (text : str) : {utf8_text text} + {~ utf8_text text}.
Proof.
  unfold utf8_text. apply Forall_dec. intros c.
  destruct (is_surrogate c); [right; discriminate | left; reflexivity].
Qed.

Lemma draws_length {A} (next : generator -> A * generator) (n : nat)
    (g : generator) :
  length (fst (draws next n g)) = n.
Proof.
  revert g. induction n as [|n IH]; intros g; [reflexivity|].
  cbn [draws]. destruct (next g) as [x g1].
  specialize (IH g1). destruct (draws next n g1) as [xs g2].
  cbn [fst length] in *. rewrite IH. reflexivity.
Qed.

Lemma add_arrays_length (a b : list float) :
  length a = length b -> length (add_arrays a b) = length a.
Proof.
  revert b. induction a as [|x a IH]; intros [|y b] Hlen;
    try discriminate; [reflexivity|].
  cbn [add_arrays length]. rewrite IH; [reflexivity|].
  cbn [length] in Hlen. lia.
Qed.

Lemma linspace_length (start stop : float) (num : Z) :
  0 <= num ->
  array_refused num = None ->
  exists t, linspace start stop num = Ok t /\ length t = Z.to_nat num.
Proof.
  intros Hnum Hroom. unfold linspace.
  destruct (Z.ltb_spec num 0) as [Hneg|_]; [lia|]. rewrite Hroom.
  eexists. split; [reflexivity|].
  rewrite length_map.
  destruct (0 <? num); [destruct (_ =? _)%float|];
    rewrite !length_map, length_seq; reflexivity.
Qed.

(** [linspace] answers only for a length that is not negative and that
    the machine can hold. *)
Lemma linspace_inv (start stop : float) (num : Z) (t : list float) :
  linspace start stop num = Ok t ->
  0 <= num /\ array_refused num = None /\ length t = Z.to_nat num.
Proof.
  intros Ht. unfold linspace in Ht.
  destruct (Z.ltb_spec num 0) as [Hneg|Hpos]; [discriminate Ht|].
  destruct (array_refused num) as [e|] eqn:Hroom; [discriminate Ht|].
  destruct (linspace_length start stop num Hpos Hroom) as (t' & Ht' & Hlen).
  unfold linspace in Ht'.
  destruct (Z.ltb_spec num 0) as [Hneg|_]; [lia|]. rewrite Hroom in Ht'.
  rewrite Ht in Ht'. injection Ht' as <-. auto.
Qed.

Lemma add_component_length (t : list float) (f : float)
    (st : list float * generator) :
  length (fst st) = length t ->
  length (fst (add_component t f st)) = length t.
Proof.
  destruct st as [waveform rng]. cbn [fst]. intros Hlen.
  unfold add_component. destruct (uniform _ _ rng) as [phase rng1].
  cbn [fst]. rewrite add_arrays_length; [exact Hlen|].
  rewrite length_map. exact Hlen.
Qed.

Lemma mixing_loop_length (t freqs : list float)
    (st : list float * generator) :
  length (fst st) = length t ->
  length (fst (fold_left (fun st f => add_component t f st) freqs st))
  = length t.
Proof.
  revert st. induction freqs as [|f freqs IH]; intros st Hlen; [exact Hlen|].
  cbn [fold_left]. apply IH, add_component_length, Hlen.
Qed.

(** Lines 10 to 15 of [generate_waveform]: the mix has the length of
    [t]. *)
Lemma mixing_length (t : list float) (rng : generator) :
  exists waveform,
    (let '(freqs, rng) := uniform_n 100 1200 5 rng in
     let waveform := zeros_like t in
     let '(waveform, rng) :=
       fold_left (fun st f => add_component t f st) freqs (waveform, rng) in
     let '(noise, rng) := standard_normal (length t) rng in
     let waveform :=
       add_arrays waveform
         (List.map (fun x => (0x1.999999999999ap-4 * x)%float) noise) in
     Ok waveform) = Ok waveform /\
    length waveform = length t.
Proof.
  destruct (uniform_n 100 1200 5 rng) as [freqs rng1]. cbv zeta.
  pose proof (mixing_loop_length t freqs (zeros_like t, rng1)) as Hloop.
  destruct (fold_left _ freqs _) as [waveform rng2].
  pose proof (draws_length next_normal (length t) rng2) as Hnoise.
  unfold standard_normal. destruct (draws next_normal _ rng2) as [noise rng3].
  cbn [fst] in *.
  eexists. split; [reflexivity|].
  assert (Hw : length waveform = length t).
  { apply Hloop. unfold zeros_like. apply length_map. }
  rewrite add_arrays_length; [congruence|].
  rewrite length_map. congruence.
Qed.

(** When the text can be hashed, the requested number of points is an
    integer [num >= 0] and the machine can hold as many, the mixed
    waveform exists and has [num] samples. *)
Lemma mixed_waveform_length (a : ambient) (text : str) (duration : float)
    (sample_rate : Z) (rate : float) (num : Z) :
  utf8_text text ->
  float_of_int sample_rate = Ok rate ->
  int_of_float (rate * duration) = Ok num ->
  0 <= num ->
  array_refused num = None ->
  exists waveform,
    mixed_waveform a text duration sample_rate = Ok waveform /\
    length waveform = Z.to_nat num.
Proof.
  intros Htext Hrate Hnum Hpos Hroom. unfold mixed_waveform.
  rewrite (uuid5_dns_returns text Htext). cbn [rbind].
  rewrite Hrate. cbn [rbind]. rewrite Hnum. cbn [rbind].
  destruct (linspace_length 0 duration num Hpos Hroom) as (t & Ht & Hlen).
  rewrite Ht. cbn [rbind].
  destruct (mixing_length t
              (default_rng (Some (Z.land (uuid5_dns_int text) 0xFFFFFFFF)) a))
    as (waveform & Hmix & Hw).
  exists waveform. split; [exact Hmix | congruence].
Qed.

(** Conversely, a mixed waveform exists only under these conditions. *)
Lemma mixed_waveform_inv (a : ambient) (text : str) (duration : float)
    (sample_rate : Z) (waveform : list float) :
  mixed_waveform a text duration sample_rate = Ok waveform ->
  utf8_text text /\
  exists rate num,
    float_of_int sample_rate = Ok rate /\
    int_of_float (rate * duration) = Ok num /\
    0 <= num /\ array_refused num = None /\
    length waveform = Z.to_nat num.
Proof.
  intros Hmix. unfold mixed_waveform in Hmix.
  destruct (utf8_text_dec text) as [Htext|Htext].
  2:{ destruct (uuid5_dns_raises text Htext) as (msg & Hmsg).
      rewrite Hmsg in Hmix. discriminate Hmix. }
  split; [exact Htext|].
  rewrite (uuid5_dns_returns text Htext) in Hmix. cbn [rbind] in Hmix.
  destruct (float_of_int sample_rate) as [rate|e] eqn:Hrate;
    [|discriminate Hmix].
  cbn [rbind] in Hmix.
  destruct (int_of_float (rate * duration)) as [num|e] eqn:Hnum;
    [|discriminate Hmix].
  cbn [rbind] in Hmix.
  destruct (linspace 0 duration num) as [t|e] eqn:Ht; [|discriminate Hmix].
  cbn [rbind] in Hmix.
  destruct (linspace_inv _ _ _ _ Ht) as (Hpos & Hroom & Hlen).
  destruct (mixing_length t
              (default_rng (Some (Z.land (uuid5_dns_int text) 0xFFFFFFFF)) a))
    as (waveform' & Hmix' & Hw).
  pose proof (eq_trans (eq_sym Hmix') Hmix) as Heq. injection Heq as <-.
  exists rate, num. repeat split; try assumption; try lia; congruence.
Qed.

Lemma normalize_length (waveform : list float) :
  waveform <> [] ->
  exists normalized,
    normalize waveform = Ok normalized /\
    length normalized = length waveform.
Proof.
  intros Hne. destruct waveform as [|x rest]; [contradiction|].
  set (w := x :: rest). unfold normalize, np_abs.
  change (np_max (List.map abs w))
    with (Ok (fold_left np_maximum (List.map abs rest) (abs x))).
  cbn [rbind]. eexists. split; [reflexivity|]. apply length_map.
Qed.

Lemma normalize_empty :
  exists msg, normalize [] = Raise (ValueError msg).
Proof. eexists. reflexivity. Qed.

(** [generate_waveform] answers when the text can be hashed, at least
    one sample is requested and the machine can hold the samples, with
    as many samples as requested. *)
Lemma generate_waveform_returns (a : ambient) (text : str) (duration : float)
    (sample_rate : Z) (rate : float) (num : Z) :
  utf8_text text ->
  float_of_int sample_rate = Ok rate ->
  int_of_float (rate * duration) = Ok num ->
  1 <= num ->
  array_refused num = None ->
  exists buffer,
    generate_waveform a text duration sample_rate = Ok (buffer, sample_rate) /\
    length buffer = Z.to_nat num.
Proof.
  intros Htext Hrate Hnum Hpos Hroom. unfold generate_waveform.
  destruct (mixed_waveform_length a text duration sample_rate rate num
              Htext Hrate Hnum ltac:(lia) Hroom) as (waveform & Hmix & Hlen).
  rewrite Hmix. cbn [rbind].
  destruct (normalize_length waveform) as (normalized & Hnorm & Hlen').
  { intros ->. cbn [length] in Hlen. lia. }
  rewrite Hnorm. cbn [rbind].
  eexists. split; [reflexivity|].
  rewrite length_map. congruence.
Qed.

(** And it answers only then. *)
Lemma generate_waveform_inv (a : ambient) (text : str) (duration : float)
    (sample_rate : Z) (buffer : list float32) (sr : Z) :
  generate_waveform a text duration sample_rate = Ok (buffer, sr) ->
  sr = sample_rate /\ utf8_text text /\
  exists rate num,
    float_of_int sample_rate = Ok rate /\
    int_of_float (rate * duration) = Ok num /\
    1 <= num /\ array_refused num = None /\
    length buffer = Z.to_nat num.
Proof.
  intros Hgen. unfold generate_waveform in Hgen.
  destruct (mixed_waveform a text duration sample_rate) as [waveform|e] eqn:Hmix;
    [|discriminate Hgen].
  cbn [rbind] in Hgen.
  destruct (mixed_waveform_inv _ _ _ _ _ Hmix)
    as (Htext & rate & num & Hrate & Hnum & Hpos & Hroom & Hlen).
  destruct waveform as [|x rest].
  { destruct normalize_empty as (msg & Hmsg). rewrite Hmsg in Hgen.
    discriminate Hgen. }
  destruct (normalize_length (x :: rest) ltac:(discriminate))
    as (normalized & Hnorm & Hlen').
  rewrite Hnorm in Hgen. cbn [rbind] in Hgen. injection Hgen as <- <-.
  split; [reflexivity|]. split; [exact Htext|].
  exists rate, num. repeat split; try assumption.
  - cbn [length] in Hlen. lia.
  - rewrite length_map. congruence.
Qed.

Lemma generate_waveform_no_samples (a : ambient) (text : str)
    (duration : float) (sample_rate : Z) (rate : float) :
  utf8_text text ->
  float_of_int sample_rate = Ok rate ->
  int_of_float (rate * duration) = Ok 0 ->
  array_refused 0 = None ->
  exists msg,
    generate_waveform a text duration sample_rate = Raise (ValueError msg).
Proof.
  intros Htext Hrate Hnum Hroom. unfold generate_waveform.
  destruct (mixed_waveform_length a text duration sample_rate rate 0
              Htext Hrate Hnum ltac:(lia) Hroom) as (waveform & Hmix & Hlen).
  destruct waveform; [|discriminate Hlen].
  rewrite Hmix. cbn [rbind]. destruct normalize_empty as (msg & Hmsg).
  rewrite Hmsg. exists msg. reflexivity.
Qed.

(** A text with a surrogate cannot be hashed: waveform synthesis raises
    before anything else is looked at. *)
Lemma generate_waveform_surrogate (a : ambient) (text : str)
    (duration : float) (sample_rate : Z) :
  ~ utf8_text text ->
  exists msg,
    generate_waveform a text duration sample_rate
      = Raise (UnicodeEncodeError msg).
Proof.
  intros Htext. unfold generate_waveform, mixed_waveform.
  destruct (uuid5_dns_raises text Htext) as (msg & Hmsg).
  rewrite Hmsg. exists msg. reflexivity.
Qed.

End WaveformShape.

(** ** Determinism *)

Section Determinism.
Context `{RT : Runtime}.

(** C1. Both syntheses are functions of their arguments alone: run
    under any two states of the process (clock, process id, entropy
    of the operating system) they give the same buffer, bit for bit,
    and the same fragment. *)
Theorem synthesis_deterministic (a1 a2 : ambient) (text : str)
    (duration : float) (sample_rate : Z) :
  generate_waveform a1 text duration sample_rate
    = generate_waveform a2 text duration sample_rate /\
  generate_fragment a1 text = generate_fragment a2 text.
Proof.
  split.
  - unfold generate_waveform, mixed_waveform, default_rng. reflexivity.
  - unfold generate_fragment, default_rng. reflexivity.
Qed.

Lemma resonate_deterministic (a1 a2 : ambient) (input_text : str) :
  resonate a1 input_text = resonate a2 input_text.
Proof.
  unfold resonate, generate_waveform, mixed_waveform, generate_fragment,
    default_rng. reflexivity.
Qed.

End Determinism.

(** The seed is what makes this so: a generator made without one
    differs from process to process. *)
Lemma unseeded_generator_differs :
  @default_rng lcg_runtime None sample_ambient
  <> @default_rng lcg_runtime None other_ambient.
Proof. vm_compute. discriminate. Qed.

(** ** Length of the buffer *)

Section BufferLength.
Context `{RT : Runtime}.

(** C2, amended. Whenever waveform synthesis returns a buffer, the
    buffer has exactly [int(sample_rate * duration)] samples, and at
    least one: the product is truncated, not rounded. *)
Theorem buffer_length_truncated (a : ambient) (text : str) (duration : float)
    (sample_rate : Z) (buffer : list float32) (sr : Z) :
  generate_waveform a text duration sample_rate = Ok (buffer, sr) ->
  exists rate num,
    float_of_int sample_rate = Ok rate /\
    int_of_float (rate * duration) = Ok num /\
    Z.of_nat (length buffer) = num /\
    1 <= num.
Proof.
  intros Hgen.
  destruct (generate_waveform_inv _ _ _ _ _ _ Hgen)
    as (_ & _ & rate & num & Hrate & Hnum & Hpos & _ & Hlen).
  exists rate, num. repeat split; try assumption. lia.
Qed.

End BufferLength.

Lemma buffer_length_truncated_witness :
  @generate_waveform lcg_runtime sample_ambient (lit "hello") 0.5 3
    = Ok ([1065353216], 3) /\
  exists rate num,
    float_of_int 3 = Ok rate /\
    int_of_float (rate * 0.5) = Ok num /\
    Z.of_nat (length [1065353216]) = num /\
    1 <= num.
Proof.
  assert (Hgen : @generate_waveform lcg_runtime sample_ambient (lit "hello") 0.5 3
                 = Ok ([1065353216], 3)) by (vm_compute; reflexivity).
  split; [exact Hgen|].
  exact (@buffer_length_truncated lcg_runtime sample_ambient (lit "hello")
           0.5%float 3 [1065353216] 3 Hgen).
Defined.

(** C2, as stated, fails: for half a second at 3 Hz the product is 1.5,
    which rounds to 2, and the buffer has one sample. *)
Lemma buffer_length_not_rounded :
  (0 <? 0.5)%float = true /\ 0 < 3 /\
  py_round (3 * 0.5) = Ok 2 /\
  exists buffer,
    @generate_waveform lcg_runtime sample_ambient (lit "hello") 0.5 3
      = Ok (buffer, 3) /\
    length buffer = 1%nat.
Proof.
  split; [vm_compute; reflexivity|]. split; [lia|].
  split; [vm_compute; reflexivity|].
  eexists. split; [vm_compute; reflexivity | reflexivity].
Qed.

(** ** Totality *)


Section Totality.
Context `{RT : Runtime}.

Lemma generate_fragment_returns (a : ambient) (text : str) :
  exists fragment, generate_fragment a text = Ok fragment.
Proof.
  destruct (generate_fragment_drawn a text) as (word & t1 & t2 & t3 & g & H & _).
  eexists. exact H.
Qed.


End Totality.



(** ** The all-zero buffer *)

Definition is_zero_sample (x : float) : Prop := (x =? 0)%float = true.

Definition nan32 : float32 := f32_word S754_nan.

Lemma zero_sample_cases (x : float) :
  is_zero_sample x -> x = 0%float \/ x = (-0)%float.
Proof.
  unfold is_zero_sample. rewrite FloatAxioms.eqb_spec.
  change (Prim2SF 0) with (S754_zero false).
  intros Heq. rewrite <- (SF2Prim_Prim2SF x).
  destruct (Prim2SF x) as [[|]| [|] | |[|] m e]; try discriminate Heq.
  - right. reflexivity.
  - left. reflexivity.
Qed.

Lemma max_abs_of_zeros (rest : list float) :
  Forall is_zero_sample rest ->
  fold_left np_maximum (List.map abs rest) 0%float = 0%float.
Proof.
  induction 1 as [|x rest Hx _ IH]; [reflexivity|].
  cbn [List.map fold_left].
  destruct (zero_sample_cases x Hx) as [-> | ->]; exact IH.
Qed.

Lemma normalize_zeros (waveform : list float) :
  waveform <> [] ->
  Forall is_zero_sample waveform ->
  normalize waveform = Ok (List.map (fun _ => nan) waveform).
Proof.
  intros Hne Hzero. destruct waveform as [|x rest]; [contradiction|].
  unfold normalize, np_abs.
  assert (Hpeak : np_max (List.map abs (x :: rest)) = Ok 0%float).
  { inversion Hzero as [|? ? Hx Hrest]; subst. cbn [List.map np_max].
    destruct (zero_sample_cases x Hx) as [-> | ->];
      (change (abs 0) with 0%float || change (abs (-0)) with 0%float);
      rewrite max_abs_of_zeros by exact Hrest; reflexivity. }
  rewrite Hpeak. cbn [rbind]. f_equal.
  apply map_ext_in. intros y Hy.
  rewrite Forall_forall in Hzero.
  destruct (zero_sample_cases y (Hzero y (proj2 (list_elem_of_In _ _) Hy)))
    as [-> | ->]; reflexivity.
Qed.

Section ZeroBuffer.
Context `{RT : Runtime}.

(** C5, amended. When the mixed waveform has at least one sample and
    is identically zero, waveform synthesis performs the division and
    returns, without an error, a buffer in which every sample is
    NaN. *)
Theorem zero_waveform_becomes_nan (a : ambient) (text : str)
    (duration : float) (sample_rate : Z) (waveform : list float) :
  mixed_waveform a text duration sample_rate = Ok waveform ->
  waveform <> [] ->
  Forall is_zero_sample waveform ->
  generate_waveform a text duration sample_rate
    = Ok (List.map (fun _ => nan32) waveform, sample_rate) /\
  f32_value nan32 = S754_nan.
Proof.
  intros Hmix Hne Hzero. split; [|reflexivity].
  unfold generate_waveform. rewrite Hmix. cbn [rbind].
  rewrite (normalize_zeros waveform Hne Hzero). cbn [rbind].
  rewrite List.map_map. reflexivity.
Qed.

End ZeroBuffer.

Lemma zero_waveform_becomes_nan_witness :
  @mixed_waveform stuck_runtime sample_ambient (lit "hello") 1 1 = Ok [0%float] /\
  [0%float] <> [] /\
  Forall is_zero_sample [0%float] /\
  @generate_waveform stuck_runtime sample_ambient (lit "hello") 1 1
    = Ok (List.map (fun _ => nan32) [0%float], 1) /\
  f32_value nan32 = S754_nan.
Proof.
  assert (Hmix : @mixed_waveform stuck_runtime sample_ambient (lit "hello") 1 1
                 = Ok [0%float]) by (vm_compute; reflexivity).
  assert (Hne : [0%float] <> []) by discriminate.
  assert (Hzero : Forall is_zero_sample [0%float]).
  { constructor; [reflexivity | constructor]. }
  split; [exact Hmix|]. split; [exact Hne|]. split; [exact Hzero|].
  exact (@zero_waveform_becomes_nan stuck_runtime sample_ambient (lit "hello")
           1%float 1 [0%float] Hmix Hne Hzero).
Defined.

(** C5, as stated, fails: an all-zero waveform is divided by its peak,
    zero, and the NaN that results is returned as a sample; nothing is
    raised and nothing is skipped. *)
Lemma zero_waveform_divided :
  normalize [0%float] = Ok [nan] /\
  @mixed_waveform stuck_runtime sample_ambient (lit "hello") 1 1 = Ok [0%float] /\
  @generate_waveform stuck_runtime sample_ambient (lit "hello") 1 1
    = Ok ([nan32], 1) /\
  f32_value nan32 = S754_nan.
Proof. repeat split; vm_compute; reflexivity. Qed.

(** ** Binary digits *)

Lemma Zdigits2_pos_spec (p : positive) :
  2 ^ (Zpos (digits2_pos p) - 1) <= Zpos p < 2 ^ Zpos (digits2_pos p).
Proof.
  induction p as [p IH|p IH|]; cbn [digits2_pos].
  - rewrite Pos2Z.inj_succ.
    replace (Z.succ (Zpos (digits2_pos p)) - 1) with (Z.succ (Zpos (digits2_pos p) - 1)) by lia.
    rewrite !Z.pow_succ_r by lia. lia.
  - rewrite Pos2Z.inj_succ.
    replace (Z.succ (Zpos (digits2_pos p)) - 1) with (Z.succ (Zpos (digits2_pos p) - 1)) by lia.
    rewrite !Z.pow_succ_r by lia. lia.
  - change (2 ^ (1 - 1)) with 1. change (2 ^ 1) with 2. lia.
Qed.

Lemma Zdigits2_spec (m : Z) :
  0 < m -> 2 ^ (Zdigits2 m - 1) <= m < 2 ^ Zdigits2 m.
Proof.
  destruct m as [|p|p]; try lia. intros _. apply Zdigits2_pos_spec.
Qed.

Lemma Zdigits2_positive (m : Z) : 0 < m -> 0 < Zdigits2 m.
Proof. destruct m; cbn; lia. Qed.

Lemma Zdigits2_unique (m d : Z) :
  2 ^ (d - 1) <= m < 2 ^ d -> 0 < m -> Zdigits2 m = d.
Proof.
  intros [Hlo Hhi] Hm.
  pose proof (Zdigits2_spec m Hm) as [Hlo' Hhi'].
  pose proof (Zdigits2_positive m Hm) as Hd.
  assert (0 < d).
  { destruct (Z.lt_trichotomy d 0) as [Hn|[Hz|Hp]]; [|subst|exact Hp].
    - rewrite (Z.pow_neg_r 2 d Hn) in Hhi. lia.
    - change (2 ^ 0) with 1 in Hhi. lia. }
  assert (Zdigits2 m - 1 < d).
  { apply (Z.pow_lt_mono_r_iff 2); lia. }
  assert (d - 1 < Zdigits2 m).
  { apply (Z.pow_lt_mono_r_iff 2); lia. }
  lia.
Qed.

Lemma Zdigits2_le (a b : Z) : 0 < a -> a <= b -> Zdigits2 a <= Zdigits2 b.
Proof.
  intros Ha Hab.
  pose proof (Zdigits2_spec a Ha) as [Hlo _].
  pose proof (Zdigits2_spec b ltac:(lia)) as [_ Hhi].
  pose proof (Zdigits2_positive b ltac:(lia)).
  assert (Zdigits2 a - 1 < Zdigits2 b); [|lia].
  apply (Z.pow_lt_mono_r_iff 2); lia.
Qed.

Lemma Zdigits2_mul_pow2 (m k : Z) :
  0 < m -> 0 <= k -> Zdigits2 (m * 2 ^ k) = Zdigits2 m + k.
Proof.
  intros Hm Hk.
  pose proof (Zdigits2_spec m Hm) as [Hlo Hhi].
  pose proof (Zdigits2_positive m Hm) as Hd.
  assert (0 < 2 ^ k) by (apply Z.pow_pos_nonneg; lia).
  apply Zdigits2_unique; [|nia].
  replace (Zdigits2 m + k - 1) with (Zdigits2 m - 1 + k) by lia.
  rewrite !Z.pow_add_r by lia. nia.
Qed.

Lemma Zdigits2_div_pow2 (m k : Z) :
  0 < m -> 0 <= k < Zdigits2 m ->
  0 < m / 2 ^ k /\ Zdigits2 (m / 2 ^ k) = Zdigits2 m - k.
Proof.
  intros Hm Hk.
  pose proof (Zdigits2_spec m Hm) as [Hlo Hhi].
  assert (Hp : 0 < 2 ^ k) by (apply Z.pow_pos_nonneg; lia).
  assert (Hlo' : 2 ^ (Zdigits2 m - k - 1) <= m / 2 ^ k).
  { apply Z.div_le_lower_bound; [exact Hp|].
    rewrite <- Z.pow_add_r by lia.
    replace (k + (Zdigits2 m - k - 1)) with (Zdigits2 m - 1) by lia. exact Hlo. }
  assert (Hhi' : m / 2 ^ k < 2 ^ (Zdigits2 m - k)).
  { apply Z.div_lt_upper_bound; [exact Hp|].
    rewrite <- Z.pow_add_r by lia.
    replace (k + (Zdigits2 m - k)) with (Zdigits2 m) by lia. exact Hhi. }
  assert (0 < 2 ^ (Zdigits2 m - k - 1)) by (apply Z.pow_pos_nonneg; lia).
  split; [lia|]. apply Zdigits2_unique; [split; assumption | lia].
Qed.

Lemma div_pow2_small (m k : Z) :
  0 <= m -> Zdigits2 m <= k -> m / 2 ^ k = 0.
Proof.
  intros Hm Hk. destruct (Z.eq_dec m 0) as [->|Hne].
  - apply Z.div_0_l. apply Z.pow_nonzero; [lia|]. cbn in Hk. lia.
  - pose proof (Zdigits2_spec m ltac:(lia)) as [_ Hhi].
    pose proof (Zdigits2_positive m ltac:(lia)).
    apply Z.div_small. split; [lia|].
    apply Z.lt_le_trans with (1 := Hhi). apply Z.pow_le_mono_r; lia.
Qed.

(** ** Right shifts with round and sticky bits *)

Lemma shr_1_m (mrs : shr_record) :
  0 <= shr_m mrs -> shr_m (shr_1 mrs) = shr_m mrs / 2.
Proof.
  destruct mrs as [m r s]. cbn [shr_m]. intros Hm.
  destruct m as [|[p|p|]|p]; cbn [shr_1 shr_m];
    try (Z.div_mod_to_equations; lia).
Qed.

Lemma shr_1_exact (mrs : shr_record) :
  0 <= shr_m mrs ->
  loc_of_shr_record mrs = loc_Exact ->
  shr_m mrs mod 2 = 0 ->
  loc_of_shr_record (shr_1 mrs) = loc_Exact.
Proof.
  destruct mrs as [m [|] [|]]; cbn [shr_m loc_of_shr_record]; try discriminate.
  intros Hm _ Heven.
  destruct m as [|[p|p|]|p]; cbn [shr_1 loc_of_shr_record orb];
    try reflexivity; exfalso; Z.div_mod_to_equations; lia.
Qed.

Lemma iter_shr_1 (p : positive) (mrs : shr_record) :
  0 <= shr_m mrs ->
  shr_m (SpecFloat.iter_pos shr_1 p mrs) = shr_m mrs / 2 ^ Zpos p /\
  (loc_of_shr_record mrs = loc_Exact ->
   shr_m mrs mod 2 ^ Zpos p = 0 ->
   loc_of_shr_record (SpecFloat.iter_pos shr_1 p mrs) = loc_Exact).
Proof.
  revert mrs. induction p as [p IH|p IH|]; intros mrs Hm; cbn [SpecFloat.iter_pos].
  - pose proof (shr_1_m mrs Hm) as H1.
    assert (Hm1 : 0 <= shr_m (shr_1 mrs)) by (rewrite H1; apply Z.div_pos; lia).
    destruct (IH _ Hm1) as [H2 E2].
    assert (Hm2 : 0 <= shr_m (SpecFloat.iter_pos shr_1 p (shr_1 mrs))).
    { rewrite H2. apply Z.div_pos; [lia|]. apply Z.pow_pos_nonneg; lia. }
    destruct (IH _ Hm2) as [H3 E3].
    assert (Hp : 0 < 2 ^ Zpos p) by (apply Z.pow_pos_nonneg; lia).
    assert (Hpow : 2 ^ Zpos p~1 = 2 * 2 ^ Zpos p * 2 ^ Zpos p).
    { replace (Zpos p~1) with (1 + Zpos p + Zpos p) by lia.
      rewrite !Z.pow_add_r by lia. reflexivity. }
    split.
    + rewrite H3, H2, H1, !Z.div_div, Hpow by lia. f_equal. ring.
    + intros Hex Hmod. rewrite Hpow in Hmod.
      apply Z.mod_divide in Hmod; [|nia]. destruct Hmod as [k Hk].
      assert (Hh : shr_m mrs / 2 = k * 2 ^ Zpos p * 2 ^ Zpos p).
      { rewrite Hk. replace (k * (2 * 2 ^ Zpos p * 2 ^ Zpos p))
          with (k * 2 ^ Zpos p * 2 ^ Zpos p * 2) by ring.
        apply Z.div_mul. lia. }
      apply E3.
      * apply E2.
        -- apply shr_1_exact; [exact Hm | exact Hex |].
           rewrite Hk. replace (k * (2 * 2 ^ Zpos p * 2 ^ Zpos p))
             with (k * 2 ^ Zpos p * 2 ^ Zpos p * 2) by ring.
           apply Z.mod_mul. lia.
        -- rewrite H1, Hh. apply Z.mod_mul. lia.
      * rewrite H2, H1, Hh, Z.div_mul by lia. apply Z.mod_mul. lia.
  - destruct (IH _ Hm) as [H2 E2].
    assert (Hm2 : 0 <= shr_m (SpecFloat.iter_pos shr_1 p mrs)).
    { rewrite H2. apply Z.div_pos; [lia|]. apply Z.pow_pos_nonneg; lia. }
    destruct (IH _ Hm2) as [H3 E3].
    assert (Hp : 0 < 2 ^ Zpos p) by (apply Z.pow_pos_nonneg; lia).
    assert (Hpow : 2 ^ Zpos p~0 = 2 ^ Zpos p * 2 ^ Zpos p).
    { replace (Zpos p~0) with (Zpos p + Zpos p) by lia.
      rewrite Z.pow_add_r by lia. reflexivity. }
    split.
    + rewrite H3, H2, !Z.div_div, Hpow by lia. reflexivity.
    + intros Hex Hmod. rewrite Hpow in Hmod.
      apply Z.mod_divide in Hmod; [|nia]. destruct Hmod as [k Hk].
      apply E3.
      * apply E2; [exact Hex|].
        rewrite Hk, Z.mul_assoc. apply Z.mod_mul. lia.
      * rewrite H2, Hk, Z.mul_assoc, Z.div_mul by lia. apply Z.mod_mul. lia.
  - split.
    + rewrite shr_1_m by exact Hm. reflexivity.
    + intros Hex Hmod. apply shr_1_exact; assumption.
Qed.

Lemma shr_record_of_loc_m (m : Z) (l : location) :
  shr_m (shr_record_of_loc m l) = m.
Proof. destruct l as [|[| |]]; reflexivity. Qed.

Lemma loc_of_shr_record_of_loc (m : Z) (l : location) :
  loc_of_shr_record (shr_record_of_loc m l) = l.
Proof. destruct l as [|[| |]]; reflexivity. Qed.

Section Rounding.
Variables prec emax : Z.
Hypothesis prec_positive : 0 < prec.

Local Abbreviation fexp := (SpecFloat.fexp prec emax).
Local Abbreviation emin := (SpecFloat.emin prec emax).

Lemma fexp_mono (a b : Z) : a <= b -> fexp a <= fexp b.
Proof. unfold SpecFloat.fexp. lia. Qed.

Lemma fexp_ge_emin (a : Z) : emin <= fexp a.
Proof. unfold SpecFloat.fexp. lia. Qed.

(** A shift that does not lose the exponent: the mantissa is divided by
    the power of two that brings the exponent to [fexp], and the result
    is inexact only if the input was or a non-zero bit was shifted out. *)
Lemma shr_fexp_spec (m e : Z) (l : location) :
  0 <= m ->
  e <= fexp (Zdigits2 m + e) ->
  exists mrs,
    shr_fexp prec emax m e l = (mrs, fexp (Zdigits2 m + e)) /\
    shr_m mrs = m / 2 ^ (fexp (Zdigits2 m + e) - e) /\
    (l = loc_Exact -> m mod 2 ^ (fexp (Zdigits2 m + e) - e) = 0 ->
     loc_of_shr_record mrs = loc_Exact).
Proof.
  intros Hm Hn. unfold shr_fexp, shr.
  set (n := fexp (Zdigits2 m + e) - e).
  assert (Hrec : 0 <= shr_m (shr_record_of_loc m l))
    by (rewrite shr_record_of_loc_m; exact Hm).
  destruct n as [|p|p] eqn:Hp.
  - exists (shr_record_of_loc m l).
    replace (fexp (Zdigits2 m + e)) with e by lia.
    rewrite shr_record_of_loc_m, Z.div_1_r.
    split; [reflexivity|]. split; [reflexivity|].
    intros -> _. apply loc_of_shr_record_of_loc.
  - destruct (iter_shr_1 p _ Hrec) as [Hval Hex].
    exists (SpecFloat.iter_pos shr_1 p (shr_record_of_loc m l)).
    rewrite shr_record_of_loc_m in Hval, Hex.
    split; [f_equal; lia|]. split; [exact Hval|].
    intros -> Hmod. apply Hex; [apply loc_of_shr_record_of_loc | exact Hmod].
  - lia.
Qed.


Lemma round_nearest_even_range (m : Z) (l : location) :
  m <= round_nearest_even m l <= m + 1 /\
  (l = loc_Exact -> round_nearest_even m l = m).
Proof.
  destruct l as [|[| |]]; cbn [round_nearest_even];
    try destruct (Z.even m); split; try lia; try reflexivity; discriminate.
Qed.

Lemma div_pow2_le (a b k : Z) :
  0 <= k -> a <= b * 2 ^ k -> a / 2 ^ k <= b.
Proof.
  intros Hk Hab.
  assert (0 < 2 ^ k) by (apply Z.pow_pos_nonneg; lia).
  apply Z.div_le_upper_bound; [lia|]. lia.
Qed.

Lemma div_pow2_lt (a b k : Z) :
  0 <= k -> a <= b * 2 ^ k ->
  (a < b * 2 ^ k \/ a mod 2 ^ k <> 0) -> a / 2 ^ k < b.
Proof.
  intros Hk Hab Hstrict.
  assert (Hp : 0 < 2 ^ k) by (apply Z.pow_pos_nonneg; lia).
  pose proof (Z.div_mod a (2 ^ k) ltac:(lia)) as Hdm.
  pose proof (Z.mod_pos_bound a (2 ^ k) Hp) as Hr.
  destruct Hstrict as [Hlt|Hmod].
  - apply Z.div_lt_upper_bound; lia.
  - assert (2 ^ k * (a / 2 ^ k) < 2 ^ k * b); [lia|].
    apply Z.mul_lt_mono_pos_l in H; assumption.
Qed.

Lemma pow2_split (a b c : Z) :
  a <= b -> b <= c -> 2 ^ (c - a) = 2 ^ (c - b) * 2 ^ (b - a).
Proof.
  intros Hab Hbc. rewrite <- Z.pow_add_r by lia. f_equal. lia.
Qed.

(** Rounding does not cross a representable bound.  [mx * 2 ^ ex] (or a
    value strictly above it and below its successor when [lx] is not
    exact) is rounded to precision [prec]; if what is rounded is at most
    the canonical number [mb * 2 ^ eb], so is the result, which is a
    zero or a canonical finite number. *)
Lemma binary_round_aux_bounded (sx : bool) (mx ex : Z) (lx : location)
    (mb : positive) (eb : Z) :
  0 <= mx ->
  ex <= fexp (Zdigits2 mx + ex) ->
  bounded prec emax mb eb = true ->
  ex <= eb ->
  mx <= Zpos mb * 2 ^ (eb - ex) ->
  (lx <> loc_Exact -> mx < Zpos mb * 2 ^ (eb - ex)) ->
  match binary_round_aux prec emax sx mx ex lx with
  | S754_zero s => s = sx
  | S754_finite s m e =>
      s = sx /\ bounded prec emax m e = true /\
      e <= eb /\ Zpos m <= Zpos mb * 2 ^ (eb - e)
  | _ => False
  end.
Proof.
  intros Hmx Hn Hb Hex Hle Hlt.
  unfold bounded, canonical_mantissa in Hb.
  apply andb_prop in Hb. destruct Hb as [Hcan Hmax].
  apply Z.eqb_eq in Hcan. apply Z.leb_le in Hmax.
  change (Zpos (digits2_pos mb)) with (Zdigits2 (Zpos mb)) in Hcan.
  set (e1 := fexp (Zdigits2 mx + ex)) in *.
  (* the exponent after the first shift is at most [eb] *)
  assert (He1 : e1 <= eb).
  { rewrite <- Hcan. subst e1. apply fexp_mono.
    destruct (Z.eq_dec mx 0) as [->|Hne].
    - cbn [Zdigits2]. pose proof (Zdigits2_positive (Zpos mb) ltac:(lia)). lia.
    - pose proof (Zdigits2_le mx _ ltac:(lia) Hle) as Hd.
      rewrite Zdigits2_mul_pow2 in Hd by lia. lia. }
  destruct (shr_fexp_spec mx ex lx Hmx Hn) as (mrs1 & Hshr1 & Hm1 & Hexact1).
  fold e1 in Hshr1, Hm1, Hexact1.
  set (m1 := shr_m mrs1) in *.
  assert (Hm1pos : 0 <= m1).
  { subst m1. rewrite Hm1. apply Z.div_pos; [lia|]. apply Z.pow_pos_nonneg; lia. }
  rewrite (pow2_split ex e1 eb Hn He1) in Hle, Hlt.
  rewrite Z.mul_assoc in Hle, Hlt.
  assert (Hm1le : m1 <= Zpos mb * 2 ^ (eb - e1)).
  { subst m1. rewrite Hm1. apply div_pow2_le; [lia | exact Hle]. }
  assert (Hm1lt : loc_of_shr_record mrs1 <> loc_Exact ->
                  m1 < Zpos mb * 2 ^ (eb - e1)).
  { intros Hinexact. subst m1. rewrite Hm1.
    apply div_pow2_lt; [lia | exact Hle |].
    destruct (Z.eq_dec (mx mod 2 ^ (e1 - ex)) 0) as [Hmod|Hmod]; [|right; exact Hmod].
    left. apply Hlt. intros ->. apply Hinexact, Hexact1; [reflexivity | exact Hmod]. }
  set (m2 := round_nearest_even m1 (loc_of_shr_record mrs1)).
  assert (Hm2 : m1 <= m2 <= Zpos mb * 2 ^ (eb - e1)).
  { subst m2.
    destruct (round_nearest_even_range m1 (loc_of_shr_record mrs1)) as [Hr Hre].
    destruct (loc_of_shr_record mrs1) as [|c] eqn:Hloc.
    - rewrite Hre by reflexivity. lia.
    - specialize (Hm1lt ltac:(discriminate)). lia. }
  unfold binary_round_aux. rewrite Hshr1. fold m1. fold m2.
  destruct (Z.eq_dec m2 0) as [Hz|Hnz].
  - (* the rounded mantissa is zero *)
    rewrite Hz. unfold shr_fexp, shr. cbn [Zdigits2 shr_record_of_loc].
    destruct (fexp (0 + e1) - e1) as [|p|p]; cbn [shr_m]; try reflexivity.
    destruct (iter_shr_1 p {| shr_m := 0; shr_r := false; shr_s := false |}
                ltac:(cbn; lia)) as [Hv _].
    cbn [shr_m] in Hv. rewrite Hv, Z.div_0_l; [reflexivity|].
    apply Z.pow_nonzero; lia.
  - assert (Hm2pos : 0 < m2) by lia.
    pose proof (Zdigits2_positive m2 Hm2pos) as Hd2.
    (* the second shift is by a non-negative amount, less than the digits *)
    assert (Hn2 : e1 <= fexp (Zdigits2 m2 + e1)).
    { unfold SpecFloat.fexp in e1 |- *.
      destruct (Z.max_spec (Zdigits2 mx + ex - prec) emin) as [[_ Hmax']|[Hgt Hmax']].
      - subst e1. unfold SpecFloat.fexp. lia.
      - assert (Hmxpos : 0 < mx).
        { destruct (Z.eq_dec mx 0) as [->|]; [|lia].
          cbn [Zdigits2] in *. subst e1. unfold SpecFloat.fexp in Hn. lia. }
        assert (He1eq : e1 = Zdigits2 mx + ex - prec)
          by (subst e1; unfold SpecFloat.fexp; lia).
        destruct (Zdigits2_div_pow2 mx (e1 - ex) Hmxpos ltac:(lia)) as [Hq Hdq].
        rewrite <- Hm1 in Hq, Hdq.
        pose proof (Zdigits2_le m1 m2 Hq ltac:(lia)). lia. }
    destruct (shr_fexp_spec m2 e1 loc_Exact ltac:(lia) Hn2)
      as (mrs2 & Hshr2 & Hm3 & _).
    rewrite Hshr2.
    set (e3 := fexp (Zdigits2 m2 + e1)) in *.
    assert (Hlt2 : e3 - e1 < Zdigits2 m2).
    { subst e3. unfold SpecFloat.fexp.
      pose proof (fexp_ge_emin (Zdigits2 mx + ex)). fold e1 in H. lia. }
    destruct (Zdigits2_div_pow2 m2 (e3 - e1) Hm2pos ltac:(lia)) as [Hm3pos Hd3].
    rewrite <- Hm3 in Hm3pos, Hd3.
    assert (He3 : e3 <= eb).
    { rewrite <- Hcan. subst e3. apply fexp_mono.
      pose proof (Zdigits2_le m2 _ Hm2pos (proj2 Hm2)) as Hd.
      rewrite Zdigits2_mul_pow2 in Hd by lia. lia. }
    destruct (shr_m mrs2) as [|m3|m3] eqn:Hm3eq; try lia.
    assert (Hfin : (e3 <=? emax - prec) = true) by (apply Z.leb_le; lia).
    rewrite Hfin. split; [reflexivity|]. split; [|split; [exact He3|]].
    + unfold bounded, canonical_mantissa. rewrite Hfin, andb_true_r.
      apply Z.eqb_eq.
      change (Zpos (digits2_pos m3)) with (Zdigits2 (Zpos m3)).
      rewrite Hd3. subst e3. f_equal. lia.
    + rewrite Hm3. apply div_pow2_le; [lia|].
      rewrite <- Z.mul_assoc, <- (pow2_split e1 e3 eb Hn2 He3). apply Hm2.
Qed.

End Rounding.

(** ** binary32 words *)

Lemma prec32_positive : 0 < prec32.
Proof. reflexivity. Qed.

Lemma f32_fields (w : float32) :
  0 <= Z.land (Z.shiftr w 23) 255 < 256 /\
  0 <= Z.land w (2 ^ 23 - 1) < 2 ^ 23.
Proof.
  change 255 with (Z.ones 8). change (2 ^ 23 - 1) with (Z.ones 23).
  rewrite !Z.land_ones by lia.
  split; apply Z.mod_pos_bound; reflexivity.
Qed.

Lemma canonical32_subnormal (m : positive) :
  Zpos m < 2 ^ 23 -> bounded prec32 emax32 m (-149) = true.
Proof.
  intros Hm. unfold bounded, canonical_mantissa.
  change (Zpos (digits2_pos m)) with (Zdigits2 (Zpos m)).
  pose proof (Zdigits2_spec (Zpos m) ltac:(lia)) as [Hlo _].
  assert (Zdigits2 (Zpos m) - 1 < 23).
  { apply (Z.pow_lt_mono_r_iff 2); lia. }
  apply andb_true_intro. split; [apply Z.eqb_eq | reflexivity].
  unfold fexp, emin, prec32, emax32. lia.
Qed.

Lemma canonical32_normal (m : positive) (E : Z) :
  2 ^ 23 <= Zpos m < 2 ^ 24 -> 1 <= E <= 254 ->
  bounded prec32 emax32 m (E - 150) = true.
Proof.
  intros Hm HE. unfold bounded, canonical_mantissa.
  change (Zpos (digits2_pos m)) with (Zdigits2 (Zpos m)).
  rewrite (Zdigits2_unique (Zpos m) 24) by (try exact Hm; lia).
  apply andb_true_intro. split; [apply Z.eqb_eq | apply Z.leb_le].
  - unfold fexp, emin, prec32, emax32. lia.
  - unfold prec32, emax32. lia.
Qed.

(** Every word stands for a valid binary32 value. *)
Lemma f32_value_valid (w : float32) :
  SpecFloat.valid_binary prec32 emax32 (f32_value w) = true.
Proof.
  unfold f32_value.
  destruct (f32_fields w) as [HE Hf].
  set (E := Z.land (Z.shiftr w 23) 255) in *.
  set (f := Z.land w (2 ^ 23 - 1)) in *.
  destruct (Z.eqb_spec E 0) as [HE0|HE0].
  - destruct f as [|m|m] eqn:Hfm; try reflexivity.
    apply canonical32_subnormal. lia.
  - destruct (Z.eqb_spec E 255) as [HE255|HE255].
    + destruct (f =? 0); reflexivity.
    + destruct (f + 2 ^ 23) as [|m|m] eqn:Hfm; try reflexivity.
      apply canonical32_normal; lia.
Qed.

(** ** Order of floating-point values *)

Lemma SFcompare_swap (a b : spec_float) :
  SFcompare a b = option_map CompOpp (SFcompare b a).
Proof.
  destruct a as [[|]|[|]| |[|] ma ea], b as [[|]|[|]| |[|] mb eb];
    cbn [SFcompare option_map CompOpp]; try reflexivity;
    change (Pos.compare_cont Eq) with Pos.compare;
    rewrite (Z.compare_antisym eb ea), (Pos.compare_antisym mb ma);
    destruct (eb ?= ea)%Z, (mb ?= ma)%positive; reflexivity.
Qed.

Lemma SFcompare_finite_eq (s s' : bool) (m m' : positive) (e e' : Z) :
  SFcompare (S754_finite s m e) (S754_finite s' m' e') = Some Eq ->
  S754_finite s m e = S754_finite s' m' e'.
Proof.
  cbn [SFcompare]. change (Pos.compare_cont Eq) with Pos.compare. intros H.
  destruct s, s'; try discriminate H;
    destruct (Z.compare_spec e e') as [He|He|He]; try discriminate H;
    subst e'; f_equal;
    destruct (Pos.compare_spec m m') as [Hm|Hm|Hm];
    try discriminate H; exact Hm.
Qed.

(** ** The 16-bit transform *)

(** A sample clamped to [-1, 1], as a value. *)
Definition clamp_unit (v : spec_float) : spec_float :=
  if SFltb v f32_minus_one then f32_minus_one
  else if SFltb f32_one v then f32_one
  else v.

(** A finite value as a fraction with a positive denominator. *)
Definition fraction (v : spec_float) : Z * Z :=
  match v with
  | S754_finite s m e =>
      if 0 <=? e then (cond_Zopp s (Zpos m * 2 ^ e), 1)
      else (cond_Zopp s (Zpos m), 2 ^ (- e))
  | _ => (0, 1)
  end.

(** The integer part of a value: rounding toward zero. *)
Definition integer_part (v : spec_float) : Z :=
  let '(n, d) := fraction v in Z.quot n d.

(** The integer nearest to a value (ties to even). *)
Definition nearest_integer (v : spec_float) : Z :=
  let '(n, d) := fraction v in Z.sgn n * round_half_even_div (Z.abs n) d.

(** Magnitude at most one, for a binary32 value. *)
Definition within_unit (v : spec_float) : Prop :=
  match v with
  | S754_zero _ => True
  | S754_finite _ m e => e < -23 \/ (e = -23 /\ Zpos m <= 8388608)
  | _ => False
  end.

Lemma f32_value_minus_one : f32_value (f32_word f32_minus_one) = f32_minus_one.
Proof. reflexivity. Qed.

Lemma f32_value_one : f32_value (f32_word f32_one) = f32_one.
Proof. reflexivity. Qed.

Lemma clip32_value (w : float32) :
  f32_value w <> S754_nan ->
  f32_value (clip32 f32_minus_one f32_one w) = clamp_unit (f32_value w).
Proof.
  intros Hnan. unfold clip32, clamp_unit, SFltb.
  rewrite (SFcompare_swap (f32_value w) f32_minus_one).
  rewrite (SFcompare_swap f32_one (f32_value w)).
  pose proof f32_value_minus_one as Hlo1. pose proof f32_value_one as Hhi1.
  assert (Hlh : SFcompare f32_minus_one f32_one = Some Lt) by reflexivity.
  destruct (f32_value w) as [s|s| |s m e] eqn:Hv; [| |contradiction|].
  - destruct s; cbn [SFcompare f32_minus_one f32_one orb option_map CompOpp];
      rewrite ?Hv; cbn [SFcompare f32_one orb]; rewrite ?Hv; reflexivity.
  - destruct s; cbn [SFcompare f32_minus_one f32_one orb option_map CompOpp];
      rewrite ?Hlo1, ?Hv; cbn [SFcompare f32_minus_one f32_one orb];
      rewrite ?Hlo1, ?Hhi1, ?Hv; reflexivity.
  - destruct (SFcompare f32_minus_one (S754_finite s m e)) as [[| |]|] eqn:Hlo;
      cbn [orb option_map CompOpp]; rewrite ?Hlo1, ?Hv, ?Hlh;
      cbn [orb option_map CompOpp]; rewrite ?Hlo1, ?Hv.
    + apply SFcompare_finite_eq in Hlo. rewrite <- Hlo. reflexivity.
    + destruct (SFcompare (S754_finite s m e) f32_one) as [[| |]|] eqn:Hhi;
        cbn [orb option_map CompOpp]; rewrite ?Hhi1, ?Hv; try reflexivity.
      * apply SFcompare_finite_eq in Hhi. exact (eq_sym Hhi).
      * destruct s; discriminate Hhi.
    + reflexivity.
    + destruct s; discriminate Hlo.
Qed.

Lemma compare_cont_Z (p q : positive) :
  Pos.compare_cont Eq p q = (Zpos p ?= Zpos q).
Proof. reflexivity. Qed.

Lemma within_unit_one : within_unit f32_one.
Proof. right. split; [reflexivity | apply Z.le_refl]. Qed.

Lemma within_unit_minus_one : within_unit f32_minus_one.
Proof. right. split; [reflexivity | apply Z.le_refl]. Qed.

Lemma not_above_one (m : positive) (e : Z) :
  SFltb f32_one (S754_finite false m e) = false ->
  e < -23 \/ (e = -23 /\ Zpos m <= 8388608).
Proof.
  unfold SFltb, f32_one. cbn [SFcompare].
  rewrite compare_cont_Z.
  destruct (Z.compare_spec (-23) e) as [He|He|He]; try discriminate.
  - destruct (Z.compare_spec 8388608 (Zpos m)) as [Hm|Hm|Hm]; try discriminate;
      intros _; right; split; lia.
  - intros _. left. lia.
Qed.

Lemma not_below_minus_one (m : positive) (e : Z) :
  SFltb (S754_finite true m e) f32_minus_one = false ->
  e < -23 \/ (e = -23 /\ Zpos m <= 8388608).
Proof.
  unfold SFltb, f32_minus_one. cbn [SFcompare].
  rewrite compare_cont_Z.
  destruct (Z.compare_spec e (-23)) as [He|He|He]; try discriminate.
  - destruct (Z.compare_spec (Zpos m) 8388608) as [Hm|Hm|Hm]; try discriminate;
      intros _; right; split; lia.
  - intros _. left. lia.
Qed.

Lemma clamp_unit_within (v : spec_float) :
  v <> S754_nan -> within_unit (clamp_unit v).
Proof.
  intros Hnan. unfold clamp_unit.
  destruct (SFltb v f32_minus_one) eqn:Hlo; [apply within_unit_minus_one|].
  destruct (SFltb f32_one v) eqn:Hhi; [apply within_unit_one|].
  destruct v as [s|s| |[|] m e]; try contradiction.
  - exact I.
  - destruct s; discriminate.
  - apply not_below_minus_one, Hlo.
  - apply not_above_one, Hhi.
Qed.

Lemma clamp_unit_valid (v : spec_float) :
  SpecFloat.valid_binary prec32 emax32 v = true ->
  SpecFloat.valid_binary prec32 emax32 (clamp_unit v) = true.
Proof.
  intros Hv. unfold clamp_unit.
  destruct (SFltb v f32_minus_one); [reflexivity|].
  destruct (SFltb f32_one v); [reflexivity | exact Hv].
Qed.

(** A value of magnitude at most one, scaled by 32767 in binary32, has
    magnitude at most 32767. *)
Lemma scale_within (s : bool) (m : positive) (e : Z) :
  bounded prec32 emax32 m e = true ->
  within_unit (S754_finite s m e) ->
  match f32_mul (S754_finite s m e) f32_32767 with
  | S754_zero _ => True
  | S754_finite _ m3 e3 => e3 <= -9 /\ Zpos m3 <= 16776704 * 2 ^ (-9 - e3)
  | _ => False
  end.
Proof.
  intros Hb Hunit. cbn [within_unit] in Hunit.
  assert (Hdig : Zdigits2 (Zpos m) <= 24).
  { unfold bounded, canonical_mantissa in Hb.
    apply andb_prop in Hb. destruct Hb as [Hcan _]. apply Z.eqb_eq in Hcan.
    change (Zpos (digits2_pos m)) with (Zdigits2 (Zpos m)) in Hcan.
    unfold fexp, prec32 in Hcan. lia. }
  pose proof (Zdigits2_spec (Zpos m) ltac:(lia)) as [_ Hmhi].
  pose proof (Zdigits2_positive (Zpos m) ltac:(lia)) as Hdpos.
  assert (Hm : Zpos m <= 2 ^ (- e)).
  { destruct Hunit as [He|[-> Hm]]; [|exact Hm].
    apply Z.lt_le_incl, Z.lt_le_trans with (1 := Hmhi).
    apply Z.pow_le_mono_r; lia. }
  assert (Hn : e + -9 <=
               fexp prec32 emax32 (Zdigits2 (Zpos (m * 16776704)) + (e + -9))).
  { assert (Hd : Zdigits2 (Zpos m) + 23 <= Zdigits2 (Zpos (m * 16776704))).
    { rewrite <- (Zdigits2_mul_pow2 (Zpos m) 23) by lia.
      apply Zdigits2_le; [|rewrite Pos2Z.inj_mul]; lia. }
    unfold fexp, prec32. lia. }
  assert (Hle : Zpos (m * 16776704) <= 16776704 * 2 ^ (-9 - (e + -9))).
  { replace (-9 - (e + -9)) with (- e) by lia. rewrite Pos2Z.inj_mul. nia. }
  unfold f32_mul, f32_32767. cbn [SFmul].
  pose proof (binary_round_aux_bounded prec32 emax32 prec32_positive
                (xorb s false) (Zpos (m * 16776704)) (e + -9) loc_Exact
                16776704 (-9) ltac:(lia) Hn eq_refl ltac:(lia) Hle
                ltac:(intros Hne; contradiction)) as Hround.
  destruct (binary_round_aux prec32 emax32 (xorb s false)
              (Zpos (m * 16776704)) (e + -9) loc_Exact) as [s'|s'| |s' m3 e3];
    [exact I | contradiction | contradiction | tauto].
Qed.

Lemma truncate_integer_part (s : bool) (m : positive) (e : Z) :
  truncate s m e = integer_part (S754_finite s m e).
Proof.
  unfold truncate, integer_part, fraction.
  destruct (Z.leb_spec 0 e) as [He|He].
  - rewrite Z.quot_1_r, Z.shiftl_mul_pow2 by exact He. reflexivity.
  - assert (Hp : 0 < 2 ^ (- e)) by (apply Z.pow_pos_nonneg; lia).
    rewrite Z.shiftl_div_pow2 by lia.
    destruct s; cbn [cond_Zopp].
    + rewrite Z.quot_opp_l by lia. rewrite Z.quot_div_nonneg by lia. reflexivity.
    + rewrite Z.quot_div_nonneg by lia. reflexivity.
Qed.

Lemma truncate_range (s : bool) (m : positive) (e : Z) :
  e <= -9 -> Zpos m <= 16776704 * 2 ^ (-9 - e) ->
  -32767 <= truncate s m e <= 32767.
Proof.
  intros He Hm. unfold truncate.
  rewrite Z.shiftl_div_pow2 by lia.
  assert (Hp : 0 < 2 ^ (- e)) by (apply Z.pow_pos_nonneg; lia).
  assert (Hq : 0 <= Zpos m / 2 ^ (- e) <= 32767).
  { split; [apply Z.div_pos; lia|].
    apply div_pow2_le; [lia|].
    replace (- e) with (9 + (-9 - e)) by lia.
    rewrite Z.pow_add_r by lia. change (2 ^ 9) with 512.
    assert (0 < 2 ^ (-9 - e)) by (apply Z.pow_pos_nonneg; lia). nia. }
  destruct s; cbn [cond_Zopp]; lia.
Qed.

Lemma wrap16_small (z : Z) : -32768 <= z < 32768 -> wrap16 z = z.
Proof.
  intros Hz. unfold wrap16. change (2 ^ 15) with 32768. change (2 ^ 16) with 65536.
  rewrite Z.mod_small by lia. lia.
Qed.

Section Pcm16.
Context `{RT : Runtime}.

(** C9, amended. A decoded sample that is not a NaN is clamped to
    [-1.0, 1.0] and multiplied by 32767 in binary32; the 16-bit value is
    the integer part of that product (rounding toward zero, not to the
    nearest integer) and lies between -32767 and 32767. *)
Theorem pcm16_clamps_scales_truncates (w : float32) :
  f32_value w <> S754_nan ->
  let clamped := f32_value (clip32 f32_minus_one f32_one w) in
  let scaled := f32_mul clamped f32_32767 in
  clamped = clamp_unit (f32_value w) /\
  pcm16 w = integer_part scaled /\
  -32767 <= pcm16 w <= 32767.
Proof.
  intros Hnan clamped scaled.
  assert (Hclamped : clamped = clamp_unit (f32_value w))
    by (apply clip32_value, Hnan).
  split; [exact Hclamped|].
  pose proof (clamp_unit_within (f32_value w) Hnan) as Hunit.
  pose proof (clamp_unit_valid _ (f32_value_valid w)) as Hvalid.
  rewrite <- Hclamped in Hunit, Hvalid.
  unfold pcm16. fold clamped. fold scaled.
  destruct clamped as [s|s| |s m e] eqn:Hc; try contradiction.
  - subst scaled. cbn. split; [reflexivity | lia].
  - pose proof (scale_within s m e Hvalid Hunit) as Hscaled.
    fold scaled in Hscaled.
    destruct scaled as [s'|s'| |s' m3 e3]; try contradiction.
    + cbn. split; [reflexivity | lia].
    + destruct Hscaled as [He3 Hm3].
      pose proof (truncate_range s' m3 e3 He3 Hm3) as Hrange.
      cbn [astype_int16]. rewrite wrap16_small by lia.
      split; [apply truncate_integer_part | exact Hrange].
Qed.

End Pcm16.

Lemma pcm16_clamps_scales_truncates_witness :
  f32_value 1048576000 <> S754_nan /\
  f32_value (clip32 f32_minus_one f32_one 1048576000)
    = clamp_unit (f32_value 1048576000) /\
  @pcm16 lcg_runtime 1048576000
    = integer_part (f32_mul (f32_value (clip32 f32_minus_one f32_one 1048576000))
                      f32_32767) /\
  -32767 <= @pcm16 lcg_runtime 1048576000 <= 32767.
Proof.
  assert (Hnan : f32_value 1048576000 <> S754_nan) by discriminate.
  split; [exact Hnan|].
  exact (@pcm16_clamps_scales_truncates lcg_runtime 1048576000 Hnan).
Defined.

(** C9, as stated, fails: the sample 0.25 scales to 8191.75, whose
    nearest integer is 8192, and is converted to 8191. *)
Lemma pcm16_not_nearest :
  f32_value 1048576000 = S754_finite false 8388608 (-25) /\
  f32_mul (clamp_unit (f32_value 1048576000)) f32_32767
    = S754_finite false 16776704 (-11) /\
  nearest_integer (S754_finite false 16776704 (-11)) = 8192 /\
  @pcm16 lcg_runtime 1048576000 = 8191.
Proof. repeat split; vm_compute; reflexivity. Qed.

(** ** Division by the peak *)

Definition one64 : spec_float := S754_finite false 4503599627370496 (-52).

(** [|a| <= |b|] for finite values, by exponent and then mantissa. *)
Definition mag_le (a b : spec_float) : Prop :=
  match a, b with
  | S754_zero _, (S754_zero _ | S754_finite _ _ _) => True
  | S754_finite _ m1 e1, S754_finite _ m2 e2 =>
      e1 < e2 \/ (e1 = e2 /\ Zpos m1 <= Zpos m2)
  | _, _ => False
  end.

Definition finite_value (v : spec_float) : Prop :=
  match v with
  | S754_zero _ | S754_finite _ _ _ => True
  | _ => False
  end.

Lemma prec64_positive : 0 < prec.
Proof. reflexivity. Qed.

Lemma bounded64_digits (m : positive) (e : Z) :
  bounded prec emax m e = true ->
  Zdigits2 (Zpos m) <= 53 /\ -1074 <= e /\
  (-1074 < e -> Zdigits2 (Zpos m) = 53).
Proof.
  unfold bounded, canonical_mantissa. intros Hb.
  apply andb_prop in Hb. destruct Hb as [Hcan _]. apply Z.eqb_eq in Hcan.
  change (Zpos (digits2_pos m)) with (Zdigits2 (Zpos m)) in Hcan.
  unfold fexp, SpecFloat.emin, prec, emax in Hcan. lia.
Qed.

Lemma div_eucl_div_mod (a b : Z) : Z.div_eucl a b = (a / b, a mod b).
Proof. unfold Z.div, Z.modulo. destruct (Z.div_eucl a b). reflexivity. Qed.

Lemma new_location_exact (n r : Z) :
  new_location n r <> loc_Exact -> r <> 0.
Proof.
  intros Hne ->. apply Hne. unfold new_location, new_location_even, new_location_odd.
  destruct (Z.even n); reflexivity.
Qed.

(** The quotient of a finite value by one of larger or equal magnitude
    has magnitude at most one. *)
Lemma SFdiv_within (sx sy : bool) (mx my : positive) (ex ey : Z) :
  bounded prec emax mx ex = true ->
  bounded prec emax my ey = true ->
  mag_le (S754_finite sx mx ex) (S754_finite sy my ey) ->
  match SFdiv prec emax (S754_finite sx mx ex) (S754_finite sy my ey) with
  | S754_zero _ => True
  | S754_finite _ m e =>
      bounded prec emax m e = true /\ e <= -52 /\ Zpos m <= 2 ^ (- e)
  | _ => False
  end.
Proof.
  intros Hbx Hby Hle. cbn [mag_le] in Hle.
  destruct (bounded64_digits mx ex Hbx) as (Hdx & Hex & Hnx).
  destruct (bounded64_digits my ey Hby) as (Hdy & Hey & Hny).
  pose proof (Zdigits2_spec (Zpos mx) ltac:(lia)) as [Hxlo Hxhi].
  pose proof (Zdigits2_spec (Zpos my) ltac:(lia)) as [Hylo Hyhi].
  pose proof (Zdigits2_positive (Zpos mx) ltac:(lia)) as Hdxpos.
  pose proof (Zdigits2_positive (Zpos my) ltac:(lia)) as Hdypos.
  set (d1 := Zdigits2 (Zpos mx)) in *. set (d2 := Zdigits2 (Zpos my)) in *.
  (* the larger magnitude has at least as many digits above the point *)
  assert (Hmag : d1 + ex <= d2 + ey).
  { destruct Hle as [He|[-> Hm]].
    - rewrite (Hny ltac:(lia)). lia.
    - assert (d1 <= d2); [|lia]. apply Zdigits2_le; lia. }
  cbn [SFdiv]. unfold SFdiv_core_binary. fold d1. fold d2.
  set (e' := Z.min (fexp prec emax (d1 + ex - (d2 + ey))) (ex - ey)).
  set (s := ex - ey - e').
  assert (Hs : 0 <= s) by (subst s e'; lia).
  assert (He' : e' <= -53).
  { subst e'. unfold fexp, SpecFloat.emin, prec, emax. lia. }
  set (m' := match s with Zpos _ => Z.shiftl (Zpos mx) s | Z0 => Zpos mx | Zneg _ => 0 end).
  assert (Hm' : m' = Zpos mx * 2 ^ s).
  { subst m'. destruct s as [|p|p] eqn:Hsp; [|apply Z.shiftl_mul_pow2|]; lia. }
  rewrite div_eucl_div_mod. rewrite Hm'.
  set (q := Zpos mx * 2 ^ s / Zpos my).
  set (r := (Zpos mx * 2 ^ s) mod Zpos my).
  assert (Hps : 0 < 2 ^ s) by (apply Z.pow_pos_nonneg; lia).
  pose proof (Z.div_mod (Zpos mx * 2 ^ s) (Zpos my) ltac:(lia)) as Hdm.
  pose proof (Z.mod_pos_bound (Zpos mx * 2 ^ s) (Zpos my) ltac:(lia)) as Hr.
  fold q r in Hdm, Hr.
  assert (Hq : 0 <= q) by (subst q; apply Z.div_pos; lia).
  (* the dividend is at most the divisor times 2 ^ (- e') *)
  assert (Hnum : Zpos mx * 2 ^ s <= Zpos my * 2 ^ (- e')).
  { destruct Hle as [He|[-> Hm]].
    - replace (- e') with (s + (ey - ex)) by (subst s; lia).
      rewrite Z.pow_add_r by lia.
      assert (2 ^ 1 <= 2 ^ (ey - ex)) by (apply Z.pow_le_mono_r; lia).
      change (2 ^ 1) with 2 in H.
      assert (Hd2 : d2 = 53) by (apply Hny; lia).
      rewrite Hd2 in Hylo. change (2 ^ (53 - 1)) with 4503599627370496 in Hylo.
      assert (Zpos mx < 2 ^ 53).
      { apply Z.lt_le_trans with (1 := Hxhi). apply Z.pow_le_mono_r; lia. }
      change (2 ^ 53) with 9007199254740992 in H0.
      apply Z.le_trans with (Zpos my * (2 ^ s * 2)).
      + rewrite (Z.mul_comm (2 ^ s) 2), Z.mul_assoc.
        apply Z.mul_le_mono_nonneg_r; lia.
      + apply Z.mul_le_mono_nonneg_l; [lia|].
        apply Z.mul_le_mono_nonneg_l; lia.
    - replace (- e') with s by (subst s; lia).
      apply Z.mul_le_mono_nonneg_r; lia. }
  assert (Hqle : q <= 2 ^ (- e')).
  { assert (0 < 2 ^ (- e')) by (apply Z.pow_pos_nonneg; lia). nia. }
  pose proof (binary_round_aux_bounded prec emax prec64_positive
                (xorb sx sy) q e' (new_location (Zpos my) r)
                4503599627370496 (-52) Hq) as Hround.
  assert (Hn : e' <= fexp prec emax (Zdigits2 q + e')).
  { destruct (Z.le_gt_cases e' (-1074)) as [Hsmall|Hbig].
    - unfold fexp, SpecFloat.emin, prec, emax. lia.
    - assert (Hs53 : 53 + d2 - d1 <= s).
      { subst s e'. unfold fexp, SpecFloat.emin, prec, emax in *. lia. }
      assert (Hq52 : 2 ^ 52 <= q).
      { subst q. apply Z.div_le_lower_bound; [lia|].
        apply Z.le_trans with (2 ^ (d1 - 1) * 2 ^ s); [|nia].
        rewrite <- Z.pow_add_r by lia.
        apply Z.le_trans with (2 ^ d2 * 2 ^ 52); [nia|].
        rewrite <- Z.pow_add_r by lia. apply Z.pow_le_mono_r; lia. }
      assert (53 <= Zdigits2 q).
      { change 53 with (Zdigits2 (2 ^ 52)). apply Zdigits2_le; [reflexivity | exact Hq52]. }
      unfold fexp, SpecFloat.emin, prec, emax. lia. }
  specialize (Hround Hn eq_refl ltac:(lia)).
  replace (-52 - e') with (- e' - 52) in Hround by lia.
  assert (Hone : Zpos 4503599627370496 * 2 ^ (- e' - 52) = 2 ^ (- e')).
  { change (Zpos 4503599627370496) with (2 ^ 52).
    rewrite <- Z.pow_add_r by lia. f_equal. lia. }
  rewrite Hone in Hround.
  specialize (Hround Hqle).
  assert (Hstrict : new_location (Zpos my) r <> loc_Exact -> q < 2 ^ (- e')).
  { intros Hinexact. apply new_location_exact in Hinexact.
    assert (0 < 2 ^ (- e')) by (apply Z.pow_pos_nonneg; lia). nia. }
  specialize (Hround Hstrict).
  destruct (binary_round_aux prec emax (xorb sx sy) q e'
              (new_location (Zpos my) r)) as [?|?| |s3 m3 e3];
    try contradiction; [exact I|].
  destruct Hround as (_ & Hb3 & He3 & Hm3).
  split; [exact Hb3|]. split; [exact He3|].
  replace (-52 - e3) with (- e3 - 52) in Hm3 by lia.
  change (Zpos 4503599627370496) with (2 ^ 52) in Hm3.
  rewrite <- Z.pow_add_r in Hm3 by lia.
  replace (52 + (- e3 - 52)) with (- e3) in Hm3 by lia. exact Hm3.
Qed.

(** A finite non-zero value divided by one of the same magnitude is
    [1.0] or [-1.0]. *)
Lemma SFdiv_same (sx sy : bool) (m : positive) (e : Z) :
  SFdiv prec emax (S754_finite sx m e) (S754_finite sy m e)
  = S754_finite (xorb sx sy) 4503599627370496 (-52).
Proof.
  cbn [SFdiv]. unfold SFdiv_core_binary.
  rewrite !Z.sub_diag.
  change (Z.min (fexp prec emax 0) 0) with (-53).
  change (0 - -53) with 53.
  cbv iota.
  rewrite div_eucl_div_mod, Z.shiftl_mul_pow2 by lia.
  rewrite Z.mul_comm, Z.div_mul, Z.mod_mul by lia.
  replace (new_location (Zpos m) 0) with loc_Exact.
  2:{ unfold new_location, new_location_even, new_location_odd.
      destruct (Z.even (Zpos m)); reflexivity. }
  reflexivity.
Qed.

Lemma Zpos_iter_xO (m d : positive) :
  Zpos (Pos.iter xO m d) = Zpos m * 2 ^ Zpos d.
Proof.
  induction d as [|d IH] using Pos.peano_ind.
  - cbn [Pos.iter]. lia.
  - rewrite Pos.iter_succ, Pos2Z.inj_xO, IH, Pos2Z.inj_succ, Z.pow_succ_r by lia.
    ring.
Qed.

(** Rounding to binary32 keeps a magnitude of at most one. *)
Lemma SF64_to_SF32_within (s : bool) (m : positive) (e : Z) :
  e <= -52 -> Zpos m <= 2 ^ (- e) ->
  match SF64_to_SF32 (S754_finite s m e) with
  | S754_zero _ => True
  | S754_finite s' m' e' =>
      bounded prec32 emax32 m' e' = true /\ within_unit (S754_finite s' m' e')
  | _ => False
  end.
Proof.
  intros He Hm. cbn [SF64_to_SF32]. unfold binary_round, shl_align.
  change (Zpos (digits2_pos m)) with (Zdigits2 (Zpos m)).
  set (F := fexp prec32 emax32 (Zdigits2 (Zpos m) + e)).
  pose proof (Zdigits2_positive (Zpos m) ltac:(lia)) as Hd.
  assert (Hone : forall ez, ez <= -23 ->
            Zpos 8388608 * 2 ^ (-23 - ez) = 2 ^ (- ez)).
  { intros ez Hez. change (Zpos 8388608) with (2 ^ 23).
    rewrite <- Z.pow_add_r by lia. f_equal. lia. }
  assert (Hfinish : forall (mz : positive) (ez : Z),
            ez <= fexp prec32 emax32 (Zdigits2 (Zpos mz) + ez) ->
            ez <= -23 -> Zpos mz <= 2 ^ (- ez) ->
            match binary_round_aux prec32 emax32 s (Zpos mz) ez loc_Exact with
            | S754_zero _ => True
            | S754_finite s' m' e' =>
                bounded prec32 emax32 m' e' = true /\
                within_unit (S754_finite s' m' e')
            | _ => False
            end).
  { intros mz ez Hn Hez Hmz.
    pose proof (binary_round_aux_bounded prec32 emax32 prec32_positive
                  s (Zpos mz) ez loc_Exact 8388608 (-23) ltac:(lia) Hn eq_refl Hez)
      as Hround.
    rewrite (Hone ez Hez) in Hround.
    specialize (Hround Hmz ltac:(intros Hne; contradiction)).
    destruct (binary_round_aux prec32 emax32 s (Zpos mz) ez loc_Exact)
      as [?|?| |s3 m3 e3]; try contradiction; [exact I|].
    destruct Hround as (_ & Hb3 & He3 & Hm3).
    split; [exact Hb3|]. cbn [within_unit].
    destruct (Z.eq_dec e3 (-23)) as [->|Hne]; [right|left; lia].
    split; [reflexivity|]. change (2 ^ (-23 - -23)) with 1 in Hm3. lia. }
  destruct (F - e) as [|p|p] eqn:Hshift.
  - apply Hfinish; [fold F; lia | lia | exact Hm].
  - apply Hfinish; [fold F; lia | lia | exact Hm].
  - assert (Hmz : Zpos (Pos.iter xO m p) = Zpos m * 2 ^ (e - F)).
    { rewrite Zpos_iter_xO. f_equal. f_equal. lia. }
    apply Hfinish.
    + rewrite Hmz, Zdigits2_mul_pow2 by lia.
      replace (Zdigits2 (Zpos m) + (e - F) + F) with (Zdigits2 (Zpos m) + e) by lia.
      fold F. lia.
    + lia.
    + rewrite Hmz. replace (- F) with (- e + (e - F)) by lia.
      rewrite Z.pow_add_r by lia.
      apply Z.mul_le_mono_nonneg_r; [|exact Hm].
      apply Z.pow_nonneg. lia.
Qed.

Lemma SF64_to_SF32_one (s : bool) :
  SF64_to_SF32 (S754_finite s 4503599627370496 (-52))
  = S754_finite s 8388608 (-23).
Proof. destruct s; reflexivity. Qed.

(** ** Words of valid binary32 values *)

Lemma f32_decode (S E f : Z) :
  0 <= S <= 1 -> 0 <= E < 256 -> 0 <= f < 2 ^ 23 ->
  let w := S * 2 ^ 31 + E * 2 ^ 23 + f in
  Z.testbit w 31 = (S =? 1) /\
  Z.land (Z.shiftr w 23) 255 = E /\
  Z.land w (2 ^ 23 - 1) = f.
Proof.
  intros HS HE Hf w.
  change 255 with (Z.ones 8). change (2 ^ 23 - 1) with (Z.ones 23).
  rewrite !Z.land_ones, Z.shiftr_div_pow2 by lia.
  rewrite Z.testbit_odd, Z.shiftr_div_pow2 by lia.
  change (2 ^ 31) with 2147483648 in *. change (2 ^ 23) with 8388608 in *.
  change (2 ^ 8) with 256.
  assert (Hhi : w / 2147483648 = S).
  { subst w. symmetry. apply (Z.div_unique _ _ S (E * 8388608 + f)); lia. }
  assert (Hmid : w / 8388608 = S * 256 + E).
  { subst w. symmetry. apply (Z.div_unique _ _ (S * 256 + E) f); lia. }
  assert (Hlo : w mod 8388608 = f).
  { subst w. symmetry. apply (Z.mod_unique _ _ (S * 256 + E) f); lia. }
  rewrite Hhi, Hmid, Hlo. split; [|split; [|reflexivity]].
  - assert (S = 0 \/ S = 1) as [-> | ->] by lia; reflexivity.
  - symmetry. apply (Z.mod_unique _ _ S E); lia.
Qed.

Lemma f32_value_word (v : spec_float) :
  SpecFloat.valid_binary prec32 emax32 v = true ->
  f32_value (f32_word v) = v.
Proof.
  destruct v as [[|]|[|]| |s m e]; try reflexivity.
  cbn [SpecFloat.valid_binary]. intros Hb.
  assert (Hb' := Hb). unfold bounded, canonical_mantissa in Hb'.
  apply andb_prop in Hb'. destruct Hb' as [Hcan Hmax].
  apply Z.eqb_eq in Hcan. apply Z.leb_le in Hmax.
  change (Zpos (digits2_pos m)) with (Zdigits2 (Zpos m)) in Hcan.
  pose proof (Zdigits2_spec (Zpos m) ltac:(lia)) as [Hlo Hhi].
  pose proof (Zdigits2_positive (Zpos m) ltac:(lia)) as Hd.
  unfold fexp, SpecFloat.emin, prec32, emax32 in Hcan, Hmax.
  assert (Hm24 : Zpos m < 2 ^ 24).
  { apply Z.lt_le_trans with (1 := Hhi). apply Z.pow_le_mono_r; lia. }
  change (2 ^ 24) with 16777216 in Hm24.
  set (S := if s then 1 else 0).
  destruct (Z.lt_ge_cases (Zpos m) (2 ^ 23)) as [Hsub|Hnorm].
  - (* subnormal *)
    assert (He : e = -149).
    { destruct (Z.eq_dec e (-149)) as [|Hne]; [assumption|].
      assert (Zdigits2 (Zpos m) = 24) by lia.
      rewrite H in Hlo. change (2 ^ (24 - 1)) with (2 ^ 23) in Hlo. lia. }
    subst e.
    destruct (f32_decode S 0 (Zpos m)) as (Hs & HE & Hf);
      [destruct s; subst S; lia | lia | lia |].
    unfold f32_value, f32_word, sign_word.
    replace ((if s then 2 ^ 31 else 0) + (-149 + 149) * 2 ^ 23 + Zpos m)
      with (S * 2 ^ 31 + 0 * 2 ^ 23 + Zpos m) by (destruct s; subst S; lia).
    rewrite Hs, HE, Hf. cbn [Z.eqb]. destruct s; reflexivity.
  - (* normal *)
    change (2 ^ 23) with 8388608 in Hnorm.
    destruct (f32_decode S (e + 150) (Zpos m - 8388608)) as (Hs & HE & Hf);
      [destruct s; subst S; lia | lia | change (2 ^ 23) with 8388608; lia |].
    unfold f32_value, f32_word, sign_word.
    replace ((if s then 2 ^ 31 else 0) + (e + 149) * 2 ^ 23 + Zpos m)
      with (S * 2 ^ 31 + (e + 150) * 2 ^ 23 + (Zpos m - 8388608))
      by (change (2 ^ 23) with 8388608; destruct s; subst S; lia).
    rewrite Hs, HE, Hf.
    destruct (Z.eqb_spec (e + 150) 0) as [H0|_]; [lia|].
    destruct (Z.eqb_spec (e + 150) 255) as [H255|_]; [lia|].
    replace (Zpos m - 8388608 + 2 ^ 23) with (Zpos m)
      by (change (2 ^ 23) with 8388608; lia).
    replace (e + 150 - 150) with e by lia.
    destruct s; reflexivity.
Qed.

(** ** The peak of a finite waveform *)

Definition finite_sample (x : float) : Prop := finite_value (Prim2SF x).

Lemma mag_le_refl (v : spec_float) : finite_value v -> mag_le v v.
Proof.
  destruct v as [?|?| |s m e]; cbn; try tauto.
  intros _. right. split; [reflexivity | apply Z.le_refl].
Qed.

Lemma mag_le_trans (a b c : spec_float) :
  mag_le a b -> mag_le b c -> mag_le a c.
Proof.
  destruct a as [?|?| |sa ma ea], b as [?|?| |sb mb eb],
    c as [?|?| |sc mc ec]; cbn; try tauto. lia.
Qed.

Lemma mag_le_abs_l (a b : spec_float) : mag_le (SFabs a) b <-> mag_le a b.
Proof. destruct a, b; cbn; tauto. Qed.

Lemma mag_le_abs_r (a b : spec_float) : mag_le a (SFabs b) <-> mag_le a b.
Proof. destruct a, b; cbn; tauto. Qed.

Lemma finite_value_abs (v : spec_float) : finite_value v -> finite_value (SFabs v).
Proof. destruct v; cbn; tauto. Qed.

(** The comparison of two magnitudes decides [mag_le]. *)
Lemma SFltb_abs_mag (a b : spec_float) :
  finite_value a -> finite_value b ->
  if SFltb (SFabs a) (SFabs b) then mag_le a b else mag_le b a.
Proof.
  destruct a as [?|?| |sa ma ea], b as [?|?| |sb mb eb]; cbn; try tauto.
  intros _ _. unfold SFltb. cbn [SFcompare].
  rewrite compare_cont_Z.
  destruct (Z.compare_spec ea eb) as [He|He|He]; cbv iota.
  - destruct (Z.compare_spec (Zpos ma) (Zpos mb)) as [Hm|Hm|Hm]; cbv iota;
      right; split; lia.
  - left. exact He.
  - left. lia.
Qed.

Lemma is_nan_finite (x : float) : finite_sample x -> is_nan x = false.
Proof.
  unfold finite_sample, is_nan. rewrite FloatAxioms.eqb_spec. unfold SFeqb.
  destruct (Prim2SF x) as [?|?| |[|] m e]; cbn [finite_value SFcompare];
    try tauto; intros _; try reflexivity;
    rewrite Z.compare_refl; change (Pos.compare_cont Eq) with Pos.compare;
    rewrite Pos.compare_refl; reflexivity.
Qed.

Lemma finite_sample_abs (x : float) : finite_sample x -> finite_sample (abs x).
Proof. unfold finite_sample. rewrite abs_spec. apply finite_value_abs. Qed.

(** [np.maximum] of two finite magnitudes is one of them and bounds both. *)
Lemma np_maximum_abs (acc y : float) :
  finite_sample acc -> finite_sample y ->
  let r := np_maximum (abs acc) (abs y) in
  (r = abs acc \/ r = abs y) /\
  mag_le (Prim2SF acc) (Prim2SF r) /\ mag_le (Prim2SF y) (Prim2SF r).
Proof.
  intros Hacc Hy. cbv zeta. unfold np_maximum.
  rewrite (is_nan_finite _ (finite_sample_abs _ Hacc)).
  rewrite (is_nan_finite _ (finite_sample_abs _ Hy)).
  rewrite ltb_spec, !abs_spec.
  pose proof (SFltb_abs_mag _ _ Hacc Hy) as Hcmp.
  destruct (SFltb (SFabs (Prim2SF acc)) (SFabs (Prim2SF y))).
  - split; [right; reflexivity|]. rewrite abs_spec, !mag_le_abs_r.
    split; [exact Hcmp | apply mag_le_refl, Hy].
  - split; [left; reflexivity|]. rewrite abs_spec, !mag_le_abs_r.
    split; [apply mag_le_refl, Hacc | exact Hcmp].
Qed.

Lemma abs_involutive (x : float) : abs (abs x) = abs x.
Proof.
  apply Prim2SF_inj. rewrite !abs_spec. destruct (Prim2SF x); reflexivity.
Qed.

(** The peak of a finite waveform is the magnitude of one of its samples
    and bounds the magnitude of each. *)
Lemma peak_of_finite (rest : list float) (first : float) :
  finite_sample first -> Forall finite_sample rest ->
  let peak := fold_left np_maximum (List.map abs rest) (abs first) in
  (exists y, In y (first :: rest) /\ peak = abs y) /\
  (forall y, In y (first :: rest) -> mag_le (Prim2SF y) (Prim2SF peak)).
Proof.
  intros Hfirst Hrest. revert first Hfirst.
  induction Hrest as [|x rest Hx Hrest IH]; intros first Hfirst; cbv zeta.
  - cbn [List.map fold_left]. split.
    + exists first. split; [left; reflexivity | reflexivity].
    + intros y [<-|[]]. rewrite abs_spec, mag_le_abs_r.
      apply mag_le_refl, Hfirst.
  - cbn [List.map fold_left].
    destruct (np_maximum_abs first x Hfirst Hx) as (Hsel & Hle1 & Hle2).
    set (r := np_maximum (abs first) (abs x)) in *.
    assert (Hr : exists z, In z [first; x] /\ r = abs z /\ finite_sample z).
    { destruct Hsel as [-> | ->]; [exists first | exists x];
        (split; [cbn; tauto | split; [reflexivity | assumption]]). }
    destruct Hr as (z & Hzin & Hrz & Hz).
    specialize (IH z Hz). cbv zeta in IH. rewrite <- Hrz in IH.
    destruct IH as ((y & Hyin & Hy) & Hbound).
    assert (Hzr : mag_le (Prim2SF r)
                    (Prim2SF (fold_left np_maximum (List.map abs rest) r))).
    { specialize (Hbound z (or_introl eq_refl)).
      rewrite Hrz at 1. rewrite abs_spec, mag_le_abs_l. exact Hbound. }
    split.
    + exists y. split; [|exact Hy].
      destruct Hyin as [<-|Hyin].
      * destruct Hzin as [<-|[<-|[]]]; cbn; tauto.
      * right. right. exact Hyin.
    + intros u [<-|[<-|Hu]].
      * apply mag_le_trans with (1 := Hle1), Hzr.
      * apply mag_le_trans with (1 := Hle2), Hzr.
      * apply Hbound. right. exact Hu.
Qed.

(** ** Normalization *)

(** Within [-1.0, 1.0], by the comparison of binary32 values. *)
Definition in_unit_interval (v : spec_float) : Prop :=
  SFleb f32_minus_one v = true /\ SFleb v f32_one = true.

Lemma within_unit_interval (v : spec_float) :
  within_unit v -> in_unit_interval v.
Proof.
  destruct v as [s|s| |s m e]; cbn [within_unit]; try tauto.
  - intros _. split; reflexivity.
  - intros Hunit. unfold in_unit_interval, SFleb, f32_one, f32_minus_one.
    cbn [SFcompare].
    rewrite !compare_cont_Z.
    destruct s; split; try reflexivity.
    + destruct (Z.compare_spec (-23) e) as [He|He|He]; try reflexivity; [|lia].
      destruct (Z.compare_spec 8388608 (Zpos m)) as [Hm|Hm|Hm];
        try reflexivity. lia.
    + destruct (Z.compare_spec e (-23)) as [He|He|He]; try reflexivity; [|lia].
      destruct (Z.compare_spec (Zpos m) 8388608) as [Hm|Hm|Hm];
        try reflexivity. lia.
Qed.

Lemma Prim2SF_bounded (x : float) (s : bool) (m : positive) (e : Z) :
  Prim2SF x = S754_finite s m e -> bounded prec emax m e = true.
Proof.
  intros Hx. pose proof (Prim2SF_valid x) as Hv. rewrite Hx in Hv. exact Hv.
Qed.

Lemma is_zero_sample_spec (x : float) :
  finite_sample x -> ~ is_zero_sample x ->
  exists s m e, Prim2SF x = S754_finite s m e.
Proof.
  unfold finite_sample, is_zero_sample. rewrite FloatAxioms.eqb_spec.
  change (Prim2SF 0) with (S754_zero false).
  destruct (Prim2SF x) as [s|s| |s m e]; cbn [finite_value]; try tauto.
  intros _ _. exists s, m, e. reflexivity.
Qed.

(** A finite sample divided by a peak that bounds it, then stored as
    binary32, lies in [-1.0, 1.0]. *)
Lemma normalized_sample_within (x peak : float) (mp : positive) (ep : Z) :
  finite_sample x ->
  Prim2SF peak = S754_finite false mp ep ->
  mag_le (Prim2SF x) (Prim2SF peak) ->
  within_unit (f32_value (astype_float32 (x / peak))).
Proof.
  intros Hx Hpeak Hle. unfold astype_float32.
  rewrite div_spec. unfold SF64div. rewrite Hpeak in Hle |- *.
  pose proof (Prim2SF_bounded peak _ _ _ Hpeak) as Hbp.
  unfold finite_sample in Hx.
  destruct (Prim2SF x) as [s|s| |s m e] eqn:Hvx; cbn [finite_value] in Hx;
    try contradiction.
  - cbn [SFdiv SF64_to_SF32]. rewrite f32_value_word by reflexivity. exact I.
  - pose proof (SFdiv_within s false m mp e ep
                  (Prim2SF_bounded x _ _ _ Hvx) Hbp Hle) as Hq.
    destruct (SFdiv prec emax (S754_finite s m e) (S754_finite false mp ep))
      as [sq|sq| |sq mq eq]; try contradiction.
    + cbn [SF64_to_SF32]. rewrite f32_value_word by reflexivity. exact I.
    + destruct Hq as (_ & Heq & Hmq).
      pose proof (SF64_to_SF32_within sq mq eq Heq Hmq) as Hc.
      destruct (SF64_to_SF32 (S754_finite sq mq eq)) as [sc|sc| |sc mc ec];
        try contradiction.
      * rewrite f32_value_word by reflexivity. exact I.
      * destruct Hc as [Hbc Hunit]. rewrite f32_value_word by exact Hbc.
        exact Hunit.
Qed.

(** The sample whose magnitude is the peak becomes [1.0] or [-1.0]. *)
Lemma normalized_peak_sample (y peak : float) (s : bool) (mp : positive) (ep : Z) :
  Prim2SF y = S754_finite s mp ep ->
  Prim2SF peak = S754_finite false mp ep ->
  SFabs (f32_value (astype_float32 (y / peak))) = f32_one.
Proof.
  intros Hy Hpeak. unfold astype_float32.
  rewrite div_spec. unfold SF64div. rewrite Hy, Hpeak.
  rewrite SFdiv_same, SF64_to_SF32_one.
  rewrite f32_value_word by reflexivity. reflexivity.
Qed.

Section Normalization.
Context `{RT : Runtime}.

(** C7. When the mixed waveform is finite and not identically zero, the
    returned float32 buffer has a peak magnitude of exactly 1.0: every
    sample lies in [-1.0, 1.0] and at least one sample is 1.0 or -1.0. *)
Theorem normalized_peak_is_one (a : ambient) (text : str) (duration : float)
    (sample_rate : Z) (waveform : list float) :
  mixed_waveform a text duration sample_rate = Ok waveform ->
  Forall finite_sample waveform ->
  ~ Forall is_zero_sample waveform ->
  exists buffer,
    generate_waveform a text duration sample_rate = Ok (buffer, sample_rate) /\
    length buffer = length waveform /\
    Forall (fun b => in_unit_interval (f32_value b)) buffer /\
    Exists (fun b => SFabs (f32_value b) = f32_one) buffer.
Proof.
  intros Hmix Hfin Hnz.
  destruct waveform as [|first rest].
  { exfalso. apply Hnz. constructor. }
  assert (Hfirst : finite_sample first) by (inversion Hfin; assumption).
  assert (Hrest : Forall finite_sample rest) by (inversion Hfin; assumption).
  destruct (peak_of_finite rest first Hfirst Hrest) as ((y & Hyin & Hy) & Hbound).
  set (peak := fold_left np_maximum (List.map abs rest) (abs first)) in *.
  set (w := first :: rest) in *.
  unfold generate_waveform. rewrite Hmix. cbn [rbind].
  unfold normalize, np_abs.
  change (np_max (List.map abs w)) with (Ok peak). cbn [rbind].
  (* some sample is not zero, hence neither is the peak *)
  assert (Hex : exists z, In z (first :: rest) /\ ~ is_zero_sample z).
  { apply not_Forall_Exists in Hnz; [|intros x; unfold is_zero_sample; apply _].
    apply Exists_exists in Hnz. destruct Hnz as (z & Hz & Hznz).
    exists z. split; [apply list_elem_of_In, Hz | exact Hznz]. }
  destruct Hex as (z & Hzin & Hznz).
  assert (Hzfin : finite_sample z).
  { rewrite Forall_forall in Hfin. apply Hfin, list_elem_of_In, Hzin. }
  destruct (is_zero_sample_spec z Hzfin Hznz) as (sz & mz & ez & Hzv).
  assert (Hyfin : finite_sample y).
  { rewrite Forall_forall in Hfin. apply Hfin, list_elem_of_In, Hyin. }
  assert (Hpeak : exists mp ep, Prim2SF peak = S754_finite false mp ep /\
                                exists sy, Prim2SF y = S754_finite sy mp ep).
  { specialize (Hbound z Hzin). rewrite Hzv in Hbound.
    rewrite Hy, abs_spec in Hbound |- *. unfold finite_sample in Hyfin.
    destruct (Prim2SF y) as [?|?| |sy my ey]; cbn in Hbound, Hyfin |- *;
      try contradiction.
    exists my, ey. split; [reflexivity | exists sy; reflexivity]. }
  destruct Hpeak as (mp & ep & Hpv & sy & Hyv).
  eexists. split; [reflexivity|].
  split; [rewrite !length_map; reflexivity|]. split.
  - rewrite List.map_map. apply Forall_forall. intros b Hb.
    apply list_elem_of_In, in_map_iff in Hb. destruct Hb as (x & <- & Hx).
    apply within_unit_interval.
    apply (normalized_sample_within x peak mp ep).
    + rewrite Forall_forall in Hfin. apply Hfin, list_elem_of_In, Hx.
    + exact Hpv.
    + apply Hbound, Hx.
  - rewrite List.map_map. apply Exists_exists.
    exists (astype_float32 (y / peak)). split.
    + apply list_elem_of_In, in_map_iff. exists y. split; [reflexivity | exact Hyin].
    + apply (normalized_peak_sample y peak sy mp ep Hyv Hpv).
Qed.

End Normalization.

Definition sample_mix : list float :=
  [0x1.9a2f3280e8de8p+1; 0x1.3ed855854847ep+2;
   0x1.44ee274015e9dp+2; 0x1.409a15645db70p+2]%float.

Lemma normalized_peak_is_one_witness :
  @mixed_waveform lcg_runtime sample_ambient (lit "hello") 0.5 8 = Ok sample_mix /\
  Forall finite_sample sample_mix /\
  ~ Forall is_zero_sample sample_mix /\
  exists buffer,
    @generate_waveform lcg_runtime sample_ambient (lit "hello") 0.5 8
      = Ok (buffer, 8) /\
    length buffer = length sample_mix /\
    Forall (fun b => in_unit_interval (f32_value b)) buffer /\
    Exists (fun b => SFabs (f32_value b) = f32_one) buffer.
Proof.
  assert (Hmix : @mixed_waveform lcg_runtime sample_ambient (lit "hello") 0.5 8
                 = Ok sample_mix) by (vm_compute; reflexivity).
  assert (Hfin : Forall finite_sample sample_mix).
  { repeat (apply Forall_cons_2; [exact I|]). apply Forall_nil_2. }
  assert (Hnz : ~ Forall is_zero_sample sample_mix).
  { intros Hall. apply Forall_cons_1 in Hall. destruct Hall as [Hz _].
    discriminate Hz. }
  split; [exact Hmix|]. split; [exact Hfin|]. split; [exact Hnz|].
  exact (@normalized_peak_is_one lcg_runtime sample_ambient (lit "hello")
           0.5%float 8 sample_mix Hmix Hfin Hnz).
Defined.

(* ===================================================================== *)
(** * Further properties of the code *)
(* ===================================================================== *)

(** ** The codec, from bytes to samples and back *)

Lemma le_bytes_word (b0 b1 b2 b3 : byte) :
  le_bytes 4 (Z_of_byte b0 + 256 * (Z_of_byte b1 + 256 * (Z_of_byte b2
                + 256 * Z_of_byte b3)))
  = [b0; b1; b2; b3].
Proof.
  pose proof (Z_of_byte_range b0). pose proof (Z_of_byte_range b1).
  pose proof (Z_of_byte_range b2). pose proof (Z_of_byte_range b3).
  cbn [le_bytes].
  assert (Hsplit : forall lo hi, 0 <= lo < 256 ->
            byte_of_Z (lo + 256 * hi) = byte_of_Z lo /\ (lo + 256 * hi) / 256 = hi).
  { intros lo hi Hlo. split.
    - unfold byte_of_Z. rewrite Z.mul_comm, Z.mod_add by lia. reflexivity.
    - rewrite Z.mul_comm, Z.div_add by lia. rewrite Z.div_small by lia. lia. }
  destruct (Hsplit (Z_of_byte b0) (Z_of_byte b1 + 256 * (Z_of_byte b2
              + 256 * Z_of_byte b3)) ltac:(lia)) as [-> ->].
  destruct (Hsplit (Z_of_byte b1) (Z_of_byte b2 + 256 * Z_of_byte b3)
              ltac:(lia)) as [-> ->].
  destruct (Hsplit (Z_of_byte b2) (Z_of_byte b3) ltac:(lia)) as [-> ->].
  rewrite !byte_of_Z_of_byte. reflexivity.
Qed.

Lemma word_of_bytes_range (b0 b1 b2 b3 : byte) :
  is_float32 (Z_of_byte b0 + 256 * (Z_of_byte b1 + 256 * (Z_of_byte b2
                + 256 * Z_of_byte b3))).
Proof.
  pose proof (Z_of_byte_range b0). pose proof (Z_of_byte_range b1).
  pose proof (Z_of_byte_range b2). pose proof (Z_of_byte_range b3).
  unfold is_float32. change (2 ^ 32) with 4294967296. lia.
Qed.

(** Induction four bytes at a time. *)
Lemma words_of_bytes_ind4 (P : list byte -> Prop) :
  P [] ->
  (forall b0 b1 b2 b3 rest, P rest -> P (b0 :: b1 :: b2 :: b3 :: rest)) ->
  forall data, Z.of_nat (length data) mod 4 = 0 -> P data.
Proof.
  intros Hnil Hstep data.
  remember (length data) as n eqn:Hn. revert data Hn.
  induction n as [n IH] using lt_wf_ind. intros data Hn Hmod.
  destruct data as [|b0 [|b1 [|b2 [|b3 rest]]]]; cbn [length] in Hn; subst n;
    try exact Hnil; try (exfalso; cbn in Hmod; discriminate Hmod).
  apply Hstep. apply (IH (length rest)); [cbn [length]; lia | reflexivity |].
  cbn [length] in Hmod.
  replace (Z.of_nat (S (S (S (S (length rest))))))
    with (Z.of_nat (length rest) + 1 * 4) in Hmod by lia.
  rewrite Z.mod_add in Hmod by lia. exact Hmod.
Qed.

Lemma words_of_bytes_inverse (data : list byte) :
  Z.of_nat (length data) mod 4 = 0 ->
  tobytes_float32 (words_of_bytes data) = data /\
  (4 * length (words_of_bytes data) = length data)%nat /\
  Forall is_float32 (words_of_bytes data).
Proof.
  revert data.
  apply (words_of_bytes_ind4 (fun data =>
    tobytes_float32 (words_of_bytes data) = data /\
    (4 * length (words_of_bytes data) = length data)%nat /\
    Forall is_float32 (words_of_bytes data))).
  - repeat split. constructor.
  - intros b0 b1 b2 b3 rest (Henc & Hlen & Hall).
    cbn [words_of_bytes]. unfold tobytes_float32 in *.
    cbn [List.map concat]. rewrite le_bytes_word, Henc.
    split; [reflexivity|]. split.
    + cbn [length]. lia.
    + constructor; [apply word_of_bytes_range | exact Hall].
Qed.

(** X1. Whatever [np.frombuffer] accepts is encoded back to the same
    bytes: the decoded buffer has one well-formed 32-bit word for every
    four bytes, and [tobytes] of it is the input. *)
Theorem decode_then_encode (data : list byte) (buffer : list float32) :
  frombuffer_float32 data = Ok buffer ->
  tobytes_float32 buffer = data /\
  (4 * length buffer = length data)%nat /\
  Forall is_float32 buffer.
Proof.
  unfold frombuffer_float32.
  destruct (Z.eqb_spec (Z.of_nat (length data) mod 4) 0) as [Hmod|Hmod];
    [|discriminate].
  intros Hok. injection Hok as <-. apply words_of_bytes_inverse, Hmod.
Qed.

(** The bytes of the samples 1.0 and -1.0. *)
Definition unit_pair_bytes : list byte :=
  [x00; x00; x80; x3f; x00; x00; x80; xbf].

Definition unit_pair : list float32 := [1065353216; 3212836864].

Lemma decode_then_encode_witness :
  frombuffer_float32 unit_pair_bytes = Ok unit_pair /\
  tobytes_float32 unit_pair = unit_pair_bytes /\
  (4 * length unit_pair = length unit_pair_bytes)%nat /\
  Forall is_float32 unit_pair.
Proof.
  assert (H : frombuffer_float32 unit_pair_bytes = Ok unit_pair) by reflexivity.
  split; [exact H | exact (decode_then_encode _ _ H)].
Defined.

(** ** Every stored sample is a well-formed word *)

Section RoundingValid.
Variables prec emax : Z.
Hypothesis prec_positive : 0 < prec.

(** Whatever is rounded, the result is a valid number of the format: a
    zero, an infinity or a canonical finite number. *)
Lemma binary_round_aux_valid (sx : bool) (mx ex : Z) (lx : location) :
  0 <= mx ->
  ex <= SpecFloat.fexp prec emax (Zdigits2 mx + ex) ->
  SpecFloat.valid_binary prec emax (binary_round_aux prec emax sx mx ex lx) = true.
Proof.
  intros Hmx Hn.
  set (e1 := SpecFloat.fexp prec emax (Zdigits2 mx + ex)) in *.
  destruct (shr_fexp_spec prec emax mx ex lx Hmx Hn) as (mrs1 & Hshr1 & Hm1 & _).
  fold e1 in Hshr1, Hm1.
  set (m1 := shr_m mrs1) in *.
  assert (Hm1pos : 0 <= m1).
  { subst m1. rewrite Hm1. apply Z.div_pos; [lia|]. apply Z.pow_pos_nonneg; lia. }
  set (m2 := round_nearest_even m1 (loc_of_shr_record mrs1)).
  assert (Hm2 : m1 <= m2) by apply round_nearest_even_range.
  unfold binary_round_aux. rewrite Hshr1. fold m1. fold m2.
  destruct (Z.eq_dec m2 0) as [Hz|Hnz].
  - rewrite Hz. unfold shr_fexp, shr. cbn [Zdigits2 shr_record_of_loc].
    destruct (SpecFloat.fexp prec emax (0 + e1) - e1) as [|p|p];
      cbn [shr_m]; try reflexivity.
    destruct (iter_shr_1 p {| shr_m := 0; shr_r := false; shr_s := false |}
                ltac:(cbn; lia)) as [Hv _].
    cbn [shr_m] in Hv. rewrite Hv, Z.div_0_l; [reflexivity|].
    apply Z.pow_nonzero; lia.
  - assert (Hm2pos : 0 < m2) by lia.
    pose proof (Zdigits2_positive m2 Hm2pos) as Hd2.
    assert (Hn2 : e1 <= SpecFloat.fexp prec emax (Zdigits2 m2 + e1)).
    { destruct (Z.max_spec (Zdigits2 mx + ex - prec) (SpecFloat.emin prec emax))
        as [[_ Hmax']|[Hgt Hmax']].
      - subst e1. unfold SpecFloat.fexp in *. lia.
      - assert (Hmxpos : 0 < mx).
        { destruct (Z.eq_dec mx 0) as [->|]; [|lia].
          cbn [Zdigits2] in *. subst e1. unfold SpecFloat.fexp in Hn. lia. }
        assert (He1eq : e1 = Zdigits2 mx + ex - prec)
          by (subst e1; unfold SpecFloat.fexp; lia).
        destruct (Zdigits2_div_pow2 mx (e1 - ex) Hmxpos ltac:(lia)) as [Hq Hdq].
        rewrite <- Hm1 in Hq, Hdq.
        pose proof (Zdigits2_le m1 m2 Hq ltac:(lia)).
        unfold SpecFloat.fexp. lia. }
    destruct (shr_fexp_spec prec emax m2 e1 loc_Exact ltac:(lia) Hn2)
      as (mrs2 & Hshr2 & Hm3 & _).
    rewrite Hshr2.
    set (e3 := SpecFloat.fexp prec emax (Zdigits2 m2 + e1)) in *.
    assert (Hlt2 : e3 - e1 < Zdigits2 m2).
    { subst e3. unfold SpecFloat.fexp.
      assert (SpecFloat.emin prec emax <= e1)
        by (subst e1; unfold SpecFloat.fexp; lia).
      lia. }
    destruct (Zdigits2_div_pow2 m2 (e3 - e1) Hm2pos ltac:(lia)) as [Hm3pos Hd3].
    rewrite <- Hm3 in Hm3pos, Hd3.
    destruct (shr_m mrs2) as [|m3|m3] eqn:Hm3eq; try lia.
    destruct (e3 <=? emax - prec) eqn:Hfin; [|reflexivity].
    cbn [SpecFloat.valid_binary]. unfold bounded, canonical_mantissa.
    rewrite Hfin, andb_true_r. apply Z.eqb_eq.
    change (Zpos (digits2_pos m3)) with (Zdigits2 (Zpos m3)).
    rewrite Hd3. subst e3. f_equal. lia.
Qed.

End RoundingValid.

(** The rounding of any binary64 value to binary32 is a valid binary32
    value. *)
Lemma SF64_to_SF32_valid (v : spec_float) :
  SpecFloat.valid_binary prec32 emax32 (SF64_to_SF32 v) = true.
Proof.
  destruct v as [s|s| |s m e]; try reflexivity.
  cbn [SF64_to_SF32]. unfold binary_round, shl_align.
  change (Zpos (digits2_pos m)) with (Zdigits2 (Zpos m)).
  set (F := fexp prec32 emax32 (Zdigits2 (Zpos m) + e)).
  pose proof (Zdigits2_positive (Zpos m) ltac:(lia)) as Hd.
  destruct (F - e) as [|p|p] eqn:Hshift;
    apply (binary_round_aux_valid prec32 emax32 prec32_positive); try lia.
  assert (Hmz : Zpos (Pos.iter xO m p) = Zpos m * 2 ^ (e - F)).
  { rewrite Zpos_iter_xO. f_equal. f_equal. lia. }
  rewrite Hmz, Zdigits2_mul_pow2 by lia.
  replace (Zdigits2 (Zpos m) + (e - F) + F) with (Zdigits2 (Zpos m) + e) by lia.
  fold F. lia.
Qed.

Lemma f32_word_range (v : spec_float) :
  SpecFloat.valid_binary prec32 emax32 v = true -> is_float32 (f32_word v).
Proof.
  unfold is_float32. change (2 ^ 32) with 4294967296.
  destruct v as [[|]|[|]| |s m e];
    [intros _; vm_compute; split; [discriminate | reflexivity] ..|].
  cbn [f32_word sign_word SpecFloat.valid_binary].
  unfold bounded, canonical_mantissa. intros Hb.
  apply andb_prop in Hb. destruct Hb as [Hcan Hmax].
  apply Z.eqb_eq in Hcan. apply Z.leb_le in Hmax.
  change (Zpos (digits2_pos m)) with (Zdigits2 (Zpos m)) in Hcan.
  pose proof (Zdigits2_spec (Zpos m) ltac:(lia)) as [_ Hhi].
  unfold fexp, SpecFloat.emin, prec32, emax32 in Hcan, Hmax.
  assert (Hm24 : Zpos m < 2 ^ 24).
  { apply Z.lt_le_trans with (1 := Hhi). apply Z.pow_le_mono_r; lia. }
  change (2 ^ 24) with 16777216 in Hm24.
  unfold sign_word.
  change (2 ^ 31) with 2147483648. change (2 ^ 23) with 8388608.
  destruct s; lia.
Qed.

Lemma astype_float32_range (x : float) : is_float32 (astype_float32 x).
Proof. apply f32_word_range, SF64_to_SF32_valid. Qed.

(** ** The response of [resonate] *)

(** The characters of the words of a text are characters of the text. *)
Lemma split_from_Forall (P : N -> Prop) (s cur : str) :
  Forall P cur -> Forall P s -> Forall (Forall P) (split_from cur s).
Proof.
  revert cur. induction s as [|c s IH]; intros cur Hcur Hs; cbn [split_from].
  - destruct cur as [|d cur]; constructor; [|constructor].
    apply Forall_rev. exact Hcur.
  - inversion Hs as [|? ? Hc Hs']; subst.
    destruct (isspace c).
    + destruct cur as [|d cur].
      * apply IH; [constructor | exact Hs'].
      * constructor; [apply Forall_rev; exact Hcur|].
        apply IH; [constructor | exact Hs'].
    + apply IH; [constructor; assumption | exact Hs'].
Qed.

Definition latin1_text (s : str) : Prop :=
  Forall (fun c => latin1_has c = true) s.

Lemma latin1_text_dec (s : str) : {latin1_text s} + {~ latin1_text s}.
Proof.
  unfold latin1_text. apply Forall_dec. intros c.
  destruct (latin1_has c); [left; reflexivity | right; discriminate].
Qed.

Lemma abstract_latin1 : Forall latin1_text abstract.
Proof. unfold abstract. repeat constructor. Qed.

(** A surrogate is not a Latin-1 character. *)
Lemma latin1_utf8_text (s : str) : latin1_text s -> utf8_text s.
Proof.
  unfold latin1_text, utf8_text. intros Hs.
  eapply Forall_impl; [exact Hs|]. cbv beta. intros c Hc.
  unfold latin1_has in Hc. apply N.ltb_lt in Hc. unfold is_surrogate.
  apply andb_false_intro1. apply N.leb_gt. lia.
Qed.

Section Resonate.
Context `{RT : Runtime}.

Lemma float_of_int_44100 : float_of_int 44100 = Ok 44100%float.
Proof. vm_compute. reflexivity. Qed.

Lemma int_of_float_88200 : int_of_float (44100 * 2) = Ok 88200.
Proof. vm_compute. reflexivity. Qed.

(** Every sample of a returned buffer is a well-formed word. *)
Lemma generate_waveform_words (a : ambient) (text : str) (duration : float)
    (sample_rate : Z) (buffer : list float32) (sr : Z) :
  generate_waveform a text duration sample_rate = Ok (buffer, sr) ->
  Forall is_float32 buffer.
Proof.
  intros Hgen. unfold generate_waveform in Hgen.
  destruct (mixed_waveform a text duration sample_rate) as [mixed|e];
    [|discriminate Hgen].
  cbn [rbind] in Hgen.
  destruct (normalize mixed) as [normalized|e]; [|discriminate Hgen].
  cbn [rbind] in Hgen. injection Hgen as <- _.
  apply Forall_forall. intros b Hb.
  apply list_elem_of_In, in_map_iff in Hb. destruct Hb as (x & <- & _).
  apply astype_float32_range.
Qed.

(** The waveform behind a response: 88200 well-formed samples. *)
Lemma default_waveform (a : ambient) (text : str) :
  utf8_text text ->
  array_refused 88200 = None ->
  exists buffer,
    generate_waveform a text 2 44100 = Ok (buffer, 44100) /\
    Z.of_nat (length buffer) = 88200 /\
    Forall is_float32 buffer.
Proof.
  intros Htext Hroom.
  destruct (generate_waveform_returns a text 2%float 44100 44100%float 88200
              Htext float_of_int_44100 int_of_float_88200 ltac:(lia) Hroom)
    as (buffer & Hgen & Hlen).
  exists buffer. split; [exact Hgen|]. split.
  - rewrite Hlen. reflexivity.
  - apply (generate_waveform_words _ _ _ _ _ _ Hgen).
Qed.

(** And only such a waveform is behind a response. *)
Lemma default_waveform_inv (a : ambient) (text : str) (buffer : list float32)
    (sr : Z) :
  generate_waveform a text 2 44100 = Ok (buffer, sr) ->
  sr = 44100 /\ Z.of_nat (length buffer) = 88200 /\ Forall is_float32 buffer.
Proof.
  intros Hgen.
  destruct (generate_waveform_inv _ _ _ _ _ _ Hgen)
    as (Hsr & _ & rate & num & Hrate & Hnum & _ & _ & Hlen).
  rewrite float_of_int_44100 in Hrate. injection Hrate as <-.
  rewrite int_of_float_88200 in Hnum. injection Hnum as <-.
  split; [exact Hsr|]. split; [rewrite Hlen; reflexivity|].
  apply (generate_waveform_words _ _ _ _ _ _ Hgen).
Qed.

(** The fragment of a Latin-1 text is a Latin-1 text. *)
Lemma generate_fragment_latin1 (a : ambient) (text fragment : str) :
  latin1_text text ->
  generate_fragment a text = Ok fragment ->
  latin1_text fragment.
Proof.
  intros Htext Hfrag.
  destruct (generate_fragment_drawn a text)
    as (word & t1 & t2 & t3 & g & Hfrag' & Hsel & _ & _ & _ & H1 & H2 & H3).
  assert (fragment = join (lit " ") [rstrip_nul word; t1; t2; t3]) as ->
    by congruence.
  clear Hfrag.
  assert (Hword : latin1_text word).
  { unfold cryptic_choice in Hsel.
    pose proof (split_from_Forall _ text [] ltac:(constructor) Htext) as Hall.
    fold (split text) in Hall.
    destruct (split text) as [|w ws].
    - subst word. repeat constructor.
    - rewrite Forall_forall in Hall. apply Hall, Hsel. }
  pose proof abstract_latin1 as Habs. rewrite Forall_forall in Habs.
  unfold latin1_text in *.
  assert (Hspace : Forall (fun c => latin1_has c = true) (lit " "))
    by (repeat constructor).
  revert Hspace. generalize (lit " "). intros sp Hspace.
  change (join sp [rstrip_nul word; t1; t2; t3])
    with (rstrip_nul word ++ sp ++ t1 ++ sp ++ t2 ++ sp ++ t3).
  repeat (apply Forall_app_2;
          [first [apply rstrip_nul_Forall, Hword | exact Hspace | apply Habs; assumption]|]).
  apply Habs, H3.
Qed.

(** The two headers of the response are accepted exactly when the
    fragment is a Latin-1 text. *)
Lemma response_headers (fragment : str) :
  (latin1_text fragment ->
   headers_error [(lit "X-Memory-Fragment", fragment);
                  (lit "X-Sample-Rate", str_of_Z 44100)] = None) /\
  (~ latin1_text fragment ->
   exists msg,
     headers_error [(lit "X-Memory-Fragment", fragment);
                    (lit "X-Sample-Rate", str_of_Z 44100)]
       = Some (UnicodeEncodeError msg)).
Proof.
  cbn [headers_error].
  change (encode_error (lit "latin-1") (lit "ordinal not in range(256)")
            latin1_has (lit "X-Memory-Fragment")) with (@None exn).
  change (encode_error (lit "latin-1") (lit "ordinal not in range(256)")
            latin1_has (lit "X-Sample-Rate")) with (@None exn).
  change (encode_error (lit "latin-1") (lit "ordinal not in range(256)")
            latin1_has (str_of_Z 44100)) with (@None exn).
  split; intros Hfrag.
  - rewrite (proj2 (encode_error_none _ _ _ _) Hfrag). reflexivity.
  - destruct (encode_error_some (lit "latin-1") (lit "ordinal not in range(256)")
                latin1_has fragment Hfrag) as (msg & ->).
    exists msg. reflexivity.
Qed.

(** [resonate], once both syntheses have returned. *)
Lemma resonate_of_parts (a : ambient) (text : str) (buffer : list float32)
    (fragment : str) :
  generate_waveform a text 2 44100 = Ok (buffer, 44100) ->
  generate_fragment a text = Ok fragment ->
  resonate a text =
    new_response (tobytes_float32 buffer) (lit "application/octet-stream")
      [(lit "X-Memory-Fragment", fragment); (lit "X-Sample-Rate", str_of_Z 44100)].
Proof.
  intros Hgen Hfrag. unfold resonate. rewrite Hgen. cbn [rbind].
  rewrite Hfrag. reflexivity.
Qed.


(** [resonate] answers a Latin-1 text. *)
Lemma resonate_of_latin1 (a : ambient) (input_text : str) :
  latin1_text input_text ->
  array_refused 88200 = None ->
  exists response, resonate a input_text = Ok response.
Proof.
  intros Hlatin Hroom.
  destruct (default_waveform a input_text (latin1_utf8_text _ Hlatin) Hroom)
    as (buffer & Hgen & _).
  destruct (generate_fragment_returns a input_text) as (fragment & Hfrag).
  rewrite (resonate_of_parts a input_text buffer fragment Hgen Hfrag).
  unfold new_response.
  rewrite (proj1 (response_headers fragment)
             (generate_fragment_latin1 a _ _ Hlatin Hfrag)).
  eexists. reflexivity.
Qed.

(** What is behind a response. *)
Lemma resonate_inv (a : ambient) (input_text : str) (response : Response) :
  resonate a input_text = Ok response ->
  exists buffer fragment,
    generate_waveform a input_text 2 44100 = Ok (buffer, 44100) /\
    generate_fragment a input_text = Ok fragment /\
    Z.of_nat (length buffer) = 88200 /\
    Forall is_float32 buffer /\
    response = {| content := tobytes_float32 buffer;
                  media_type := lit "application/octet-stream";
                  headers := [(lit "X-Memory-Fragment", fragment);
                              (lit "X-Sample-Rate", lit "44100")] |}.
Proof.
  intros Hres. unfold resonate in Hres.
  destruct (generate_waveform a input_text 2 44100) as [[buffer sr]|e] eqn:Hgen;
    [|discriminate Hres].
  cbn [rbind] in Hres.
  destruct (default_waveform_inv a input_text buffer sr Hgen)
    as (-> & Hlen & Hwords).
  destruct (generate_fragment a input_text) as [fragment|e] eqn:Hfrag;
    [|discriminate Hres].
  cbn [rbind] in Hres. unfold new_response in Hres.
  destruct (headers_error _); [discriminate Hres|]. injection Hres as <-.
  exists buffer, fragment. repeat split; assumption.
Qed.

(** X3. The body of every response [resonate] gives is accepted by
    the decoder of [play_audio.py] and decodes to exactly the 88200
    samples that were synthesized. *)
Theorem resonate_body_decodes (a : ambient) (input_text : str)
    (response : Response) :
  resonate a input_text = Ok response ->
  exists buffer,
    generate_waveform a input_text 2 44100 = Ok (buffer, 44100) /\
    frombuffer_float32 (content response) = Ok buffer /\
    Z.of_nat (length buffer) = 88200.
Proof.
  intros Hres.
  destruct (resonate_inv a input_text response Hres)
    as (buffer & fragment & Hgen & _ & Hlen & Hwords & ->).
  exists buffer. split; [exact Hgen|]. split; [|exact Hlen].
  cbn [content]. unfold frombuffer_float32.
  rewrite length_tobytes_float32.
  replace (Z.of_nat (4 * length buffer) mod 4) with 0.
  2:{ rewrite Nat2Z.inj_mul, Z.mul_comm, Z.mod_mul by lia. reflexivity. }
  cbn [Z.eqb]. rewrite words_of_tobytes by exact Hwords. reflexivity.
Qed.

End Resonate.

Lemma hello_latin1 : latin1_text (lit "hello").
Proof. repeat constructor. Qed.


Lemma resonate_body_decodes_witness :
  exists response,
    @resonate lcg_runtime sample_ambient (lit "hello") = Ok response /\
    exists buffer,
      @generate_waveform lcg_runtime sample_ambient (lit "hello") 2 44100
        = Ok (buffer, 44100) /\
      frombuffer_float32 (content response) = Ok buffer /\
      Z.of_nat (length buffer) = 88200.
Proof.
  destruct (@resonate_of_latin1 lcg_runtime sample_ambient (lit "hello")
              hello_latin1 eq_refl) as (response & Hres).
  exists response. split; [exact Hres|].
  exact (@resonate_body_decodes lcg_runtime sample_ambient (lit "hello")
           response Hres).
Defined.
(** ** The console and the files, step by step *)

(** The world once [lines] have been printed, and once a file has been
    written. *)
Definition printed (w : world) (lines : list str) : world :=
  {| files := files w; stdout := stdout w ++ lines |}.

Definition written (w : world) (name : str) (data : list byte) : world :=
  {| files := <[name := data]> (files w); stdout := stdout w |}.

Lemma printed_nil (w : world) : printed w [] = w.
Proof. destruct w as [fs out]. unfold printed. cbn. rewrite app_nil_r. reflexivity. Qed.

Lemma printed_app (w : world) (l1 l2 : list str) :
  printed (printed w l1) l2 = printed w (l1 ++ l2).
Proof. unfold printed. cbn. rewrite app_assoc. reflexivity. Qed.

(** The console takes each of the lines. *)
Definition accepted (p : platform) (lines : list str) : Prop :=
  Forall (fun line => console_refuses p line = None) lines.

(** A console that takes every line. *)
Definition takes_all (p : platform) : Prop :=
  forall line, console_refuses p line = None.

Lemma takes_all_accepted (p : platform) (lines : list str) :
  takes_all p -> accepted p lines.
Proof. intros Hall. apply Forall_forall. intros line _. apply Hall. Qed.

(** What opening a name for writing raises, the name included. *)
Definition write_refused (p : platform) (name : str) : option exn :=
  match name_refused p name with
  | Some e => Some e
  | None => open_refused p name
  end.

Lemma write_file_on_cases (p : platform) (name : str) (data : list byte)
    (w : world) :
  write_file_on p name data w =
    match write_refused p name with
    | Some e => (Raise e, w)
    | None => (Ok tt, written w name data)
    end.
Proof.
  unfold write_file_on, write_refused.
  destruct (name_refused p name); [reflexivity|].
  destruct (open_refused p name); reflexivity.
Qed.

Local Open Scope io_scope.

(** One [print] after the other. *)
Fixpoint print_all (p : platform) (lines : list str) : io unit :=
  match lines with
  | [] => io_ret tt
  | line :: rest => print_on p line;; print_all p rest
  end.

(** Either every line is printed, or the lines before the first one
    that the console refuses are, and its error is raised. *)
Lemma print_all_cases (p : platform) (lines : list str) (w : world) :
  (accepted p lines /\ print_all p lines w = (Ok tt, printed w lines)) \/
  (exists done line rest e,
     lines = done ++ line :: rest /\ accepted p done /\
     console_refuses p line = Some e /\
     print_all p lines w = (Raise e, printed w done)).
Proof.
  revert w. induction lines as [|line lines IH]; intros w.
  - left. split; [constructor|]. cbn [print_all]. unfold io_ret.
    rewrite printed_nil. reflexivity.
  - cbn [print_all]. unfold io_bind, print_on.
    destruct (console_refuses p line) as [e|] eqn:Hline.
    + right. exists [], line, lines, e.
      split; [reflexivity|]. split; [constructor|]. split; [exact Hline|].
      rewrite printed_nil. reflexivity.
    + fold (printed w [line]).
      destruct (IH (printed w [line]))
        as [[Hall Hrun] | (done & l & rest & e & Heq & Hdone & Hl & Hrun)].
      * left. split; [constructor; assumption|].
        rewrite Hrun, printed_app. reflexivity.
      * right. exists (line :: done), l, rest, e.
        split; [rewrite Heq; reflexivity|].
        split; [constructor; assumption|]. split; [exact Hl|].
        rewrite Hrun, printed_app. reflexivity.
Qed.

Lemma print_all_accepted (p : platform) (lines : list str) (w : world) :
  accepted p lines -> print_all p lines w = (Ok tt, printed w lines).
Proof.
  intros Hall.
  destruct (print_all_cases p lines w)
    as [[_ Hrun] | (done & l & rest & e & Heq & _ & Hl & _)]; [exact Hrun|].
  exfalso. subst lines. apply Forall_app in Hall. destruct Hall as [_ Hall].
  inversion Hall as [|? ? Hl' _]. congruence.
Qed.

(** A handler that prints the error: it prints its line or raises what
    the console raises. *)
Lemma print_on_cases (p : platform) (line : str) (w : world) :
  (console_refuses p line = None /\
   print_on p line w = (Ok tt, printed w [line])) \/
  (exists e, console_refuses p line = Some e /\ print_on p line w = (Raise e, w)).
Proof.
  unfold print_on. destruct (console_refuses p line) as [e|].
  - right. exists e. split; reflexivity.
  - left. split; reflexivity.
Qed.

(** ** Conversion to WAV *)

Lemma length_tobytes_int16 (a : list Z) :
  length (tobytes_int16 a) = (2 * length a)%nat.
Proof.
  unfold tobytes_int16. induction a as [|z a IH]; [reflexivity|].
  cbn [List.map concat]. rewrite length_app, length_le_bytes, IH.
  cbn [length]. lia.
Qed.

Lemma length_wave_file (nchannels sampwidth framerate : Z) (frames : list byte) :
  length (wave_file nchannels sampwidth framerate frames)
  = (44 + length frames)%nat.
Proof.
  unfold wave_file, tag. rewrite !length_app, !length_le_bytes, !length_map.
  cbn [list_ascii_of_string length]. lia.
Qed.

(** The name of the output file. *)
Definition wav_name (raw_file : str) (wav_file : option str) : str :=
  match wav_file with
  | None => replace (lit ".raw") (lit ".wav") raw_file
  | Some name => name
  end.

Definition converted_lines (raw_file out : str) (samples : list float32)
    : list str :=
  [[10003%N] ++ lit " Converted " ++ raw_file ++ lit " to " ++ out;
   lit "  Duration: " ++
     format_2f (truediv (Z.of_nat (length samples)) 44100) ++ lit " seconds";
   lit "  Samples: " ++ format_comma (Z.of_nat (length samples))].

(** The line of the handler of [convert_to_wav]. *)
Definition conversion_error (p : platform) (e : exn) : str :=
  lit "Error converting file: " ++ exn_str p e.

Section Convert.
Context `{RT : Runtime}.

(** The content of the output file for decoded samples. *)
Definition wav_content (audio_data : list float32) : list byte :=
  wave_file 1 2 44100 (tobytes_int16 (List.map pcm16 audio_data)).


Variable p : platform.

(** The handler of [convert_to_wav]. *)
Definition convert_handler (e : exn) : io (option str) :=
  print_on p (conversion_error p e);; io_ret None.

(** The report of a conversion, with its handler. *)
Definition convert_report (raw_file out : str) (samples : list float32)
    : io (option str) :=
  try_except
    (print_all p (converted_lines raw_file out samples);; io_ret (Some out))
    convert_handler.

(** [convert_to_wav], step by step. *)
Lemma convert_on_steps (raw_file : str) (wav_file : option str) (w : world) :
  convert_to_wav_on p raw_file wav_file w =
    match name_refused p raw_file with
    | Some e => convert_handler e w
    | None =>
        match files w !! raw_file with
        | None => convert_handler (FileNotFoundError raw_file) w
        | Some data =>
            if Z.of_nat (length data) mod 4 =? 0 then
              let out := wav_name raw_file wav_file in
              let samples := words_of_bytes data in
              match write_refused p out with
              | Some e => convert_handler e w
              | None =>
                  convert_report raw_file out samples
                    (written w out (wav_content samples))
              end
            else convert_handler (ValueError element_size_message) w
        end
    end.
Proof.
  unfold convert_to_wav_on, try_except, io_bind at 1 2, read_file_on.
  destruct (name_refused p raw_file) as [e|]; [reflexivity|].
  destruct (files w !! raw_file) as [data|]; [|reflexivity].
  unfold lift, frombuffer_float32.
  destruct (Z.of_nat (length data) mod 4 =? 0); [|reflexivity].
  fold (wav_name raw_file wav_file). cbv zeta.
  unfold io_bind at 1. rewrite write_file_on_cases.
  rewrite !length_map, List.map_map.
  change (wave_file 1 2 44100
            (tobytes_int16
               (List.map
                  (fun w0 => astype_int16
                     (f32_mul (f32_value (clip32 f32_minus_one f32_one w0))
                        f32_32767))
                  (words_of_bytes data))))
    with (wav_content (words_of_bytes data)).
  destruct (write_refused p (wav_name raw_file wav_file)) as [e|]; [reflexivity|].
  unfold convert_report, convert_handler, conversion_error, try_except,
    converted_lines.
  cbn [print_all].
  unfold io_bind, io_ret, print_on. cbn [files stdout written].
  repeat match goal with
         | |- context [console_refuses p ?l] => destruct (console_refuses p l)
         end; reflexivity.
Qed.

(** The handler prints its line, or raises what the console raises for
    it; it changes no file. *)
Lemma convert_handler_cases (e : exn) (w : world) :
  (console_refuses p (conversion_error p e) = None /\
   convert_handler e w = (Ok None, printed w [conversion_error p e])) \/
  (exists e',
     console_refuses p (conversion_error p e) = Some e' /\
     convert_handler e w = (Raise e', w)).
Proof.
  unfold convert_handler, io_bind.
  destruct (print_on_cases p (conversion_error p e) w)
    as [[Hline ->] | (e' & Hline & ->)].
  - left. split; [exact Hline | reflexivity].
  - right. exists e'. split; [exact Hline | reflexivity].
Qed.

(** The report prints its three lines and returns the name, or stops at
    the first line the console refuses and goes through the handler. *)
Lemma convert_report_cases (raw_file out : str) (samples : list float32)
    (w : world) :
  (accepted p (converted_lines raw_file out samples) /\
   convert_report raw_file out samples w
     = (Ok (Some out), printed w (converted_lines raw_file out samples))) \/
  (exists done line rest e,
     converted_lines raw_file out samples = done ++ line :: rest /\
     accepted p done /\ console_refuses p line = Some e /\
     convert_report raw_file out samples w
       = convert_handler e (printed w done)).
Proof.
  unfold convert_report, try_except, io_bind.
  destruct (print_all_cases p (converted_lines raw_file out samples) w)
    as [[Hall ->] | (done & line & rest & e & Heq & Hdone & Hline & ->)].
  - left. split; [exact Hall | reflexivity].
  - right. exists done, line, rest, e.
    repeat split; first [assumption | reflexivity].
Qed.

(** Whatever happens, only the output file can change, and it changes
    only to the converted samples. *)
Lemma convert_on_outcome (raw_file : str) (wav_file : option str) (w : world) :
  exists r lines,
    (convert_to_wav_on p raw_file wav_file w = (r, printed w lines) \/
     exists data,
       name_refused p raw_file = None /\
       files w !! raw_file = Some data /\
       Z.of_nat (length data) mod 4 = 0 /\
       write_refused p (wav_name raw_file wav_file) = None /\
       convert_to_wav_on p raw_file wav_file w
         = (r, printed (written w (wav_name raw_file wav_file)
                          (wav_content (words_of_bytes data))) lines)) /\
    (takes_all p -> exists result, r = Ok result).
Proof.
  assert (Hhandler : forall e w0,
    exists r lines, convert_handler e w0 = (r, printed w0 lines) /\
                    (takes_all p -> exists result, r = Ok result)).
  { intros e w0.
    destruct (convert_handler_cases e w0) as [[_ ->] | (e' & Hline & ->)].
    - eexists _, _. split; [reflexivity|]. intros _. eexists. reflexivity.
    - exists (Raise e'), []. rewrite printed_nil. split; [reflexivity|].
      intros Hall. rewrite Hall in Hline. discriminate Hline. }
  assert (Hplain : forall e,
    exists r lines,
      (convert_handler e w = (r, printed w lines) \/
       exists data,
         name_refused p raw_file = None /\
         files w !! raw_file = Some data /\
         Z.of_nat (length data) mod 4 = 0 /\
         write_refused p (wav_name raw_file wav_file) = None /\
         convert_handler e w
           = (r, printed (written w (wav_name raw_file wav_file)
                            (wav_content (words_of_bytes data))) lines)) /\
      (takes_all p -> exists result, r = Ok result)).
  { intros e. destruct (Hhandler e w) as (r & lines & Hrun & Hok).
    exists r, lines. split; [left; exact Hrun | exact Hok]. }
  rewrite convert_on_steps.
  destruct (name_refused p raw_file) as [e|] eqn:Hname; [apply Hplain|].
  destruct (files w !! raw_file) as [data|] eqn:Hfile; [|apply Hplain].
  destruct (Z.eqb_spec (Z.of_nat (length data) mod 4) 0) as [Hlen|_];
    [|apply Hplain].
  cbv zeta.
  destruct (write_refused p (wav_name raw_file wav_file)) as [e|] eqn:Hopen;
    [apply Hplain|].
  set (out := wav_name raw_file wav_file) in *.
  set (samples := words_of_bytes data).
  set (w1 := written w out (wav_content samples)).
  destruct (convert_report_cases raw_file out samples w1)
    as [[Hall ->] | (done & line & rest & e & _ & _ & Hline & ->)].
  - eexists _, _. split.
    + right. exists data. repeat split; try assumption.
    + intros _. eexists. reflexivity.
  - destruct (Hhandler e (printed w1 done)) as (r & lines & Hrun & Hok).
    exists r, (done ++ lines). split; [|exact Hok].
    right. exists data. repeat split; try assumption.
    rewrite Hrun, printed_app. reflexivity.
Qed.

(** Once the output has been opened, the converted samples are in
    it, whatever the console does with the report. *)
Lemma convert_on_written (w : world) (raw_file : str) (wav_file : option str)
    (data : list byte) :
  name_refused p raw_file = None ->
  files w !! raw_file = Some data ->
  Z.of_nat (length data) mod 4 = 0 ->
  write_refused p (wav_name raw_file wav_file) = None ->
  exists r lines,
    convert_to_wav_on p raw_file wav_file w
      = (r, printed (written w (wav_name raw_file wav_file)
                       (wav_content (words_of_bytes data))) lines) /\
    (accepted p (converted_lines raw_file (wav_name raw_file wav_file)
                   (words_of_bytes data)) ->
     r = Ok (Some (wav_name raw_file wav_file)) /\
     lines = converted_lines raw_file (wav_name raw_file wav_file)
               (words_of_bytes data)).
Proof.
  intros Hname Hfile Hlen Hopen.
  rewrite convert_on_steps, Hname, Hfile, Hlen. cbn [Z.eqb]. cbv zeta.
  rewrite Hopen.
  set (out := wav_name raw_file wav_file).
  set (samples := words_of_bytes data).
  set (w1 := written w out (wav_content samples)).
  destruct (convert_report_cases raw_file out samples w1)
    as [[Hall ->] | (done & line & rest & e & Heq & _ & Hline & ->)].
  - eexists _, _. split; [reflexivity|]. intros _. split; reflexivity.
  - assert (Hnot : ~ accepted p (converted_lines raw_file out samples)).
    { intros Hall. rewrite Heq in Hall. apply Forall_app in Hall.
      destruct Hall as [_ Hall]. inversion Hall as [|? ? Hl _]. congruence. }
    destruct (convert_handler_cases e (printed w1 done))
      as [[_ ->] | (e' & _ & ->)].
    + eexists _, _. rewrite printed_app. split; [reflexivity|].
      intros Hall. contradiction.
    + eexists _, _. split; [reflexivity|]. intros Hall. contradiction.
Qed.


(** A name of printable ASCII characters other than the apostrophe and
    the backslash: its [repr] is the name between apostrophes. *)
Definition plain_name (name : str) : Prop :=
  Forall (fun c => (32 <= c < 127)%N /\ c <> 39%N /\ c <> backslash) name.

Lemma py_repr_plain (printable : N -> bool) (name : str) :
  plain_name name -> py_repr printable name = lit "'" ++ name ++ lit "'".
Proof.
  intros Hname. unfold py_repr.
  assert (Hquote : existsb (fun c => (c =? 39)%N) name = false).
  { induction Hname as [|c name (_ & Hc & _) _ IH]; [reflexivity|].
    cbn [existsb]. rewrite IH, orb_false_r. apply N.eqb_neq, Hc. }
  rewrite Hquote. cbn [andb].
  change (lit "'" ++ name ++ lit "'") with (39%N :: name ++ [39%N]).
  f_equal. f_equal.
  induction Hname as [|c name (Hrange & Hc & Hb) _ IH]; [reflexivity|].
  cbn [flat_map]. rewrite IH; [|cbn [existsb] in Hquote;
    apply orb_false_elim in Hquote; apply Hquote].
  unfold repr_char.
  rewrite (proj2 (N.eqb_neq c 39) Hc), (proj2 (N.eqb_neq c backslash) Hb).
  cbn [orb].
  replace (c =? 9)%N with false by (symmetry; apply N.eqb_neq; lia).
  replace (c =? 10)%N with false by (symmetry; apply N.eqb_neq; lia).
  replace (c =? 13)%N with false by (symmetry; apply N.eqb_neq; lia).
  replace (c <? 32)%N with false by (symmetry; apply N.ltb_ge; lia).
  replace (c =? 127)%N with false by (symmetry; apply N.eqb_neq; lia).
  replace (c <? 127)%N with true by (symmetry; apply N.ltb_lt; lia).
  reflexivity.
Qed.

(** X5. When the machine accepts the name of the raw file and no such
    file exists, [convert_to_wav] changes no file and goes through its
    handler; for a name of plain ASCII characters and a console that
    takes the line, it prints the error with the name between
    apostrophes and returns [None]. *)
Theorem convert_to_wav_missing_file (w : world) (raw_file : str)
    (wav_file : option str) :
  name_refused p raw_file = None ->
  files w !! raw_file = None ->
  plain_name raw_file ->
  console_refuses p
    (lit "Error converting file: [Errno 2] No such file or directory: '"
     ++ raw_file ++ lit "'") = None ->
  convert_to_wav_on p raw_file wav_file w =
    (Ok None,
     {| files := files w;
        stdout := stdout w ++
          [lit "Error converting file: [Errno 2] No such file or directory: '"
           ++ raw_file ++ lit "'"] |}).
Proof.
  intros Hname Hfile Hplain Hline.
  rewrite convert_on_steps, Hname, Hfile.
  assert (Heq : conversion_error p (FileNotFoundError raw_file)
                = lit "Error converting file: [Errno 2] No such file or directory: '"
                  ++ raw_file ++ lit "'").
  { unfold conversion_error. cbn [exn_str].
    rewrite (py_repr_plain _ _ Hplain). reflexivity. }
  destruct (convert_handler_cases (FileNotFoundError raw_file) w)
    as [[_ ->] | (e' & Hline' & _)].
  - rewrite Heq. reflexivity.
  - rewrite Heq in Hline'. congruence.
Qed.



End Convert.

Definition unit_pair_world : world :=
  {| files := {[ lit "tone.raw" := unit_pair_bytes ]}; stdout := [] |}.


Lemma none_raw_plain : plain_name (lit "none.raw").
Proof.
  unfold plain_name.
  repeat (apply Forall_cons_2;
          [split; [vm_compute; split; congruence | split; discriminate]|]).
  apply Forall_nil_2.
Qed.

Lemma convert_to_wav_missing_file_witness :
  name_refused ascii_terminal (lit "none.raw") = None /\
  files unit_pair_world !! lit "none.raw" = None /\
  plain_name (lit "none.raw") /\
  console_refuses ascii_terminal
    (lit "Error converting file: [Errno 2] No such file or directory: '"
     ++ lit "none.raw" ++ lit "'") = None /\
  @convert_to_wav_on lcg_runtime ascii_terminal (lit "none.raw") None
      unit_pair_world =
    (Ok None,
     {| files := files unit_pair_world;
        stdout := stdout unit_pair_world ++
          [lit "Error converting file: [Errno 2] No such file or directory: '"
           ++ lit "none.raw" ++ lit "'"] |}).
Proof.
  assert (Hname : name_refused ascii_terminal (lit "none.raw") = None)
    by reflexivity.
  assert (Hfile : files unit_pair_world !! lit "none.raw" = None)
    by (vm_compute; reflexivity).
  assert (Hline : console_refuses ascii_terminal
            (lit "Error converting file: [Errno 2] No such file or directory: '"
             ++ lit "none.raw" ++ lit "'") = None) by (vm_compute; reflexivity).
  split; [exact Hname|]. split; [exact Hfile|]. split; [exact none_raw_plain|].
  split; [exact Hline|].
  exact (@convert_to_wav_missing_file lcg_runtime ascii_terminal _ _ None
           Hname Hfile none_raw_plain Hline).
Defined.



(** ** The default name of the output *)






Section OutputName.
Context `{RT : Runtime}.
Variable p : platform.



End OutputName.




(** ** Saturation of the 16-bit transform *)

Lemma clamp_unit_high (v : spec_float) :
  SFleb f32_one v = true -> clamp_unit v = f32_one.
Proof.
  unfold clamp_unit, SFleb, SFltb.
  rewrite (SFcompare_swap v f32_minus_one).
  destruct v as [s|s| |s m e].
  - destruct s; discriminate.
  - destruct s; [discriminate|]. reflexivity.
  - discriminate.
  - destruct (SFcompare f32_one (S754_finite s m e)) as [[| |]|] eqn:Hone;
      try discriminate; intros _.
    + apply SFcompare_finite_eq in Hone. rewrite <- Hone. reflexivity.
    + assert (Hs : s = false).
      { destruct s; [discriminate Hone | reflexivity]. }
      subst s. reflexivity.
Qed.

Lemma clamp_unit_low (v : spec_float) :
  SFleb v f32_minus_one = true -> clamp_unit v = f32_minus_one.
Proof.
  unfold clamp_unit, SFleb, SFltb.
  destruct (SFcompare v f32_minus_one) as [[| |]|] eqn:Hlow;
    try discriminate; intros _; [|reflexivity].
  destruct v as [s|s| |s m e].
  - destruct s; discriminate Hlow.
  - destruct s; discriminate Hlow.
  - discriminate Hlow.
  - apply SFcompare_finite_eq in Hlow. rewrite Hlow. reflexivity.
Qed.

Section Saturation.
Context `{RT : Runtime}.

(** X9. Samples of 1.0 and above, plus infinity included, are converted to
    32767; samples of -1.0 and below, minus infinity included, to
    -32767. *)
Theorem pcm16_saturates (w : float32) :
  (SFleb f32_one (f32_value w) = true -> pcm16 w = 32767) /\
  (SFleb (f32_value w) f32_minus_one = true -> pcm16 w = -32767).
Proof.
  split; intros Hv.
  - assert (Hnan : f32_value w <> S754_nan).
    { intros E. rewrite E in Hv. discriminate Hv. }
    unfold pcm16. rewrite (clip32_value w Hnan), (clamp_unit_high _ Hv).
    reflexivity.
  - assert (Hnan : f32_value w <> S754_nan).
    { intros E. rewrite E in Hv. discriminate Hv. }
    unfold pcm16. rewrite (clip32_value w Hnan), (clamp_unit_low _ Hv).
    reflexivity.
Qed.

End Saturation.

(** ** [info] *)

(** The line of the handler of [info]. *)
Definition reading_error (p : platform) (e : exn) : str :=
  lit "Error reading file: " ++ exn_str p e.

Section Info.
Variable p : platform.

Local Open Scope io_scope.

(** [info], step by step. *)
Lemma info_on_steps (raw_file : str) (w : world) :
  info_on p raw_file w =
    match name_refused p raw_file with
    | Some e => print_on p (reading_error p e) w
    | None =>
        match files w !! raw_file with
        | None => print_on p (reading_error p (FileNotFoundError raw_file)) w
        | Some data =>
            try_except (print_all p (info_lines raw_file data))
              (fun e => print_on p (reading_error p e)) w
        end
    end.
Proof.
  unfold info_on, try_except, io_bind at 1, read_file_on.
  destruct (name_refused p raw_file) as [e|]; [reflexivity|].
  destruct (files w !! raw_file) as [data|]; [|reflexivity].
  cbv zeta. unfold info_lines. cbn [print_all].
  unfold io_bind, io_ret, print_on, reading_error. cbn [files stdout].
  repeat match goal with
         | |- context [console_refuses p ?l] => destruct (console_refuses p l)
         end; reflexivity.
Qed.

Lemma info_on_outcome (w : world) (raw_file : str) :
  (exists r lines, info_on p raw_file w = (r, printed w lines)) /\
  (takes_all p ->
   exists lines,
     info_on p raw_file w = (Ok tt, printed w lines) /\
     (length lines = 7%nat \/ length lines = 1%nat)).
Proof.
  assert (Hhandler : forall e w0,
    (exists r lines, print_on p (reading_error p e) w0 = (r, printed w0 lines)) /\
    (takes_all p ->
       print_on p (reading_error p e) w0 = (Ok tt, printed w0 [reading_error p e]))).
  { intros e w0.
    destruct (print_on_cases p (reading_error p e) w0)
      as [[_ Hrun] | (e' & Hline & Hrun)].
    - split; [eexists _, _; exact Hrun | intros _; exact Hrun].
    - split.
      + exists (Raise e'), []. rewrite printed_nil. exact Hrun.
      + intros Hall. rewrite Hall in Hline. discriminate Hline. }
  rewrite info_on_steps.
  destruct (name_refused p raw_file) as [e|]; [|destruct (files w !! raw_file) as [data|]].
  - destruct (Hhandler e w) as (Hrun & Hok). split; [exact Hrun|].
    intros Hall. eexists. split; [apply Hok, Hall | right; reflexivity].
  - unfold try_except.
    destruct (print_all_cases p (info_lines raw_file data) w)
      as [[_ ->] | (done & line & rest & e & _ & _ & Hline & ->)].
    + split; [eexists _, _; reflexivity|].
      intros _. eexists. split; [reflexivity | left; reflexivity].
    + split.
      * destruct (Hhandler e (printed w done)) as ((r & lines & Hrun) & _).
        exists r, (done ++ lines). rewrite Hrun, printed_app. reflexivity.
      * intros Hall. rewrite Hall in Hline. discriminate Hline.
  - destruct (Hhandler (FileNotFoundError raw_file) w) as (Hrun & Hok).
    split; [exact Hrun|].
    intros Hall. eexists. split; [apply Hok, Hall | right; reflexivity].
Qed.


End Info.

(** ** Fragments *)

Lemma split_from_spaces (s : str) :
  Forall (fun c => isspace c = true) s -> split_from [] s = [].
Proof.
  induction 1 as [|c s Hc _ IH]; [reflexivity|].
  cbn [split_from]. rewrite Hc. exact IH.
Qed.


Section Fragments.
Context `{RT : Runtime}.

(** X11. A text without a word, empty or made of whitespace only, gets
    the fallback word: its fragment is ["echo"] followed by three tokens
    of the vocabulary. *)
Theorem generate_fragment_without_words (a : ambient) (text : str) :
  Forall (fun c => isspace c = true) text ->
  exists t1 t2 t3,
    generate_fragment a text
      = Ok (lit "echo " ++ t1 ++ lit " " ++ t2 ++ lit " " ++ t3) /\
    t1 ∈ abstract /\ t2 ∈ abstract /\ t3 ∈ abstract.
Proof.
  intros Hspace. unfold generate_fragment.
  unfold split. rewrite (split_from_spaces text Hspace). cbn [rbind].
  destruct (choice_n_abstract 3 (default_rng (Some (sum_ord text)) a))
    as (ts & g2 & Hts & Hlen & Hall).
  destruct ts as [|t1 [|t2 [|t3 [|? ?]]]]; try discriminate Hlen.
  rewrite Hts. cbn [rbind].
  inversion Hall as [|? ? H1 Hall1]; subst.
  inversion Hall1 as [|? ? H2 Hall2]; subst.
  inversion Hall2 as [|? ? H3 _]; subst.
  exists t1, t2, t3. split; [reflexivity|]. auto.
Qed.



End Fragments.

Lemma generate_fragment_without_words_witness :
  Forall (fun c => isspace c = true) (lit "  ") /\
  exists t1 t2 t3,
    @generate_fragment lcg_runtime sample_ambient (lit "  ")
      = Ok (lit "echo " ++ t1 ++ lit " " ++ t2 ++ lit " " ++ t3) /\
    t1 ∈ abstract /\ t2 ∈ abstract /\ t3 ∈ abstract.
Proof.
  assert (H : Forall (fun c => isspace c = true) (lit "  ")).
  { repeat (apply Forall_cons_2; [reflexivity|]). apply Forall_nil_2. }
  split; [exact H|].
  exact (@generate_fragment_without_words lcg_runtime sample_ambient _ H).
Defined.


(** ** When waveform synthesis answers *)

Section WaveformReturns.
Context `{RT : Runtime}.

(** X13. For a sample rate that converts to a float, waveform
    synthesis returns a buffer exactly when the text has no surrogate,
    the number of samples [int(sample_rate * duration)] exists and is
    at least one, and the machine can hold that many samples;
    otherwise it raises. *)
Theorem generate_waveform_returns_iff (a : ambient) (text : str)
    (duration : float) (sample_rate : Z) (rate : float) :
  float_of_int sample_rate = Ok rate ->
  (exists buffer,
     generate_waveform a text duration sample_rate = Ok (buffer, sample_rate))
  <->
  (utf8_text text /\
   exists num,
     int_of_float (rate * duration) = Ok num /\ 1 <= num /\
     array_refused num = None).
Proof.
  intros Hrate. split.
  - intros (buffer & Hgen).
    destruct (generate_waveform_inv _ _ _ _ _ _ Hgen)
      as (_ & Htext & rate' & num & Hrate' & Hnum & Hpos & Hroom & _).
    rewrite Hrate in Hrate'. injection Hrate' as <-.
    split; [exact Htext|]. exists num. auto.
  - intros (Htext & num & Hnum & Hpos & Hroom).
    destruct (generate_waveform_returns a text duration sample_rate rate num
                Htext Hrate Hnum Hpos Hroom) as (buffer & Hgen & _).
    exists buffer. exact Hgen.
Qed.

End WaveformReturns.

Lemma generate_waveform_returns_iff_witness :
  float_of_int 44100 = Ok 44100%float /\
  ((exists buffer,
      @generate_waveform lcg_runtime sample_ambient (lit "hello") 2 44100
        = Ok (buffer, 44100))
   <->
   (utf8_text (lit "hello") /\
    exists num,
      int_of_float (44100 * 2) = Ok num /\ 1 <= num /\
      @array_refused lcg_runtime num = None)).
Proof.
  assert (Hrate : float_of_int 44100 = Ok 44100%float) by (vm_compute; reflexivity).
  split; [exact Hrate|].
  exact (@generate_waveform_returns_iff lcg_runtime sample_ambient (lit "hello")
           2%float 44100 44100%float Hrate).
Defined.

(** ** The command line *)

Section CommandLineProperties.
Context `{RT : Runtime}.
Variable subprocess_run : list str -> io unit.

Lemma takes_all_permissive : takes_all permissive.
Proof. intros line. reflexivity. Qed.

Lemma info_returns (w : world) (raw_file : str) :
  exists lines,
    info raw_file w = (Ok tt, {| files := files w; stdout := stdout w ++ lines |}).
Proof.
  destruct (proj2 (info_on_outcome permissive w raw_file) takes_all_permissive)
    as (lines & Hrun & _).
  exists lines. exact Hrun.
Qed.

(** On a console that takes every line, [convert_to_wav] returns, and
    has changed no file but the output. *)
Lemma convert_on_returns (p : platform) (w : world) (raw_file : str)
    (wav_file : option str) :
  takes_all p ->
  exists result w',
    convert_to_wav_on p raw_file wav_file w = (Ok result, w') /\
    forall name, name <> wav_name raw_file wav_file ->
      files w' !! name = files w !! name.
Proof.
  intros Hall.
  destruct (convert_on_outcome p raw_file wav_file w)
    as (r & lines & Hrun & Hok).
  destruct (Hok Hall) as (result & ->).
  destruct Hrun as [Hrun | (data & _ & _ & _ & _ & Hrun)];
    exists result; eexists; (split; [exact Hrun|]).
  - reflexivity.
  - cbn [printed written files]. intros name Hname.
    apply lookup_insert_ne. congruence.
Qed.

Lemma convert_returns (w : world) (raw_file : str) (wav_file : option str) :
  exists result w',
    convert_to_wav raw_file wav_file w = (Ok result, w') /\
    forall name, name <> wav_name raw_file wav_file ->
      files w' !! name = files w !! name.
Proof. apply convert_on_returns, takes_all_permissive. Qed.

(** On a console that takes every line, what the player raises ends in
    the handler. *)
Lemma play_on_returns (p : platform) (w : world) (raw_file : str) :
  takes_all p ->
  exists w', play_with_ffplay_on subprocess_run p raw_file w = (Ok tt, w').
Proof.
  intros Hall. unfold play_with_ffplay_on, try_except. cbv zeta.
  destruct (subprocess_run _ w) as [[[]|e] w1].
  - eexists. reflexivity.
  - destruct e; unfold io_bind, print_on, print2_on; rewrite ?Hall;
      eexists; reflexivity.
Qed.

(** X14. On a console that takes every line, the command line never
    ends in an exception, whatever the flags, the files, what the
    machine refuses of the names and of the files, and the behaviour
    of the external player. *)
Theorem main_never_raises (p : platform) (args : Args) (w : world) :
  takes_all p ->
  exists w', main_on subprocess_run p args w = (Ok tt, w').
Proof.
  intros Hall. unfold main_on, io_bind.
  assert (Hinfo : exists w1,
    (if arg_info args || (negb (arg_convert args) && negb (arg_play args))
     then info_on p (arg_file args) else io_ret tt) w = (Ok tt, w1)).
  { destruct (_ || _).
    - destruct (proj2 (info_on_outcome p w (arg_file args)) Hall)
        as (lines & -> & _).
      eexists. reflexivity.
    - eexists. reflexivity. }
  destruct Hinfo as (w1 & ->).
  assert (Hconv : exists w2,
    (if arg_convert args
     then io_bind (convert_to_wav_on p (arg_file args) (arg_output args))
            (fun _ => io_ret tt)
     else io_ret tt) w1 = (Ok tt, w2)).
  { destruct (arg_convert args).
    - unfold io_bind.
      destruct (convert_on_returns p w1 (arg_file args) (arg_output args) Hall)
        as (result & w2 & -> & _).
      eexists. reflexivity.
    - eexists. reflexivity. }
  unfold io_bind in Hconv. destruct Hconv as (w2 & ->).
  destruct (arg_play args).
  - apply play_on_returns, Hall.
  - eexists. reflexivity.
Qed.

(** X15. Without [--play], the command line changes no file but the
    output of the conversion; without [--convert] either, it changes
    no file at all. *)
Theorem main_without_play (args : Args) (w : world) :
  arg_play args = false ->
  exists w',
    main subprocess_run args w = (Ok tt, w') /\
    (forall name, name <> wav_name (arg_file args) (arg_output args) ->
       files w' !! name = files w !! name) /\
    (arg_convert args = false -> files w' = files w).
Proof.
  intros Hplay. unfold main, main_on, io_bind. rewrite Hplay.
  fold (info (arg_file args)).
  fold (convert_to_wav (arg_file args) (arg_output args)).
  assert (Hinfo : exists w1,
    (if arg_info args || (negb (arg_convert args) && negb false)
     then info (arg_file args) else io_ret tt) w = (Ok tt, w1) /\
    files w1 = files w).
  { destruct (_ || _).
    - destruct (info_returns w (arg_file args)) as (lines & ->).
      eexists. split; reflexivity.
    - eexists. split; reflexivity. }
  destruct Hinfo as (w1 & -> & Hfiles1).
  destruct (arg_convert args).
  - destruct (convert_returns w1 (arg_file args) (arg_output args))
      as (result & w2 & -> & Hframe).
    eexists. split; [reflexivity|]. split; [|discriminate].
    intros name Hname. rewrite (Hframe name Hname), Hfiles1. reflexivity.
  - eexists. split; [reflexivity|]. split; [|intros _; exact Hfiles1].
    intros name _. rewrite Hfiles1. reflexivity.
Qed.

End CommandLineProperties.

(** A machine without the player: running it raises. *)
Definition missing_player (cmd : list str) : io unit :=
  fun w => (Raise (FileNotFoundError (lit "ffplay")), w).

Definition convert_only : Args :=
  {| arg_file := lit "tone.raw"; arg_convert := true; arg_play := false;
     arg_info := false; arg_output := None |}.

Definition convert_and_play : Args :=
  {| arg_file := lit "tone.raw"; arg_convert := true; arg_play := true;
     arg_info := true; arg_output := Some [] |}.

(** A machine that takes every line and opens no file for writing. *)
Definition read_only : platform := {|
  console_refuses := fun _ => None;
  name_refused := name_refused ascii_terminal;
  open_refused := fun name => Some (FileNotFoundError name);
  isprintable := isprintable ascii_terminal
|}.

Lemma main_never_raises_witness :
  takes_all read_only /\
  exists w',
    @main_on lcg_runtime missing_player read_only convert_and_play
      unit_pair_world = (Ok tt, w').
Proof.
  assert (Hall : takes_all read_only) by (intros line; reflexivity).
  split; [exact Hall|].
  exact (@main_never_raises lcg_runtime missing_player read_only
           convert_and_play unit_pair_world Hall).
Defined.

Lemma main_without_play_witness :
  arg_play convert_only = false /\
  exists w',
    @main lcg_runtime missing_player convert_only unit_pair_world = (Ok tt, w') /\
    (forall name,
       name <> wav_name (arg_file convert_only) (arg_output convert_only) ->
       files w' !! name = files unit_pair_world !! name) /\
    (arg_convert convert_only = false -> files w' = files unit_pair_world).
Proof.
  split; [reflexivity|].
  exact (@main_without_play lcg_runtime missing_player convert_only
           unit_pair_world eq_refl).
Defined.

(** ** From the response to the WAV file *)

Lemma format_two_seconds : format_2f (truediv 88200 44100) = lit "2.00".
Proof. vm_compute. reflexivity. Qed.

Lemma format_88200 : format_comma 88200 = lit "88,200".
Proof. vm_compute. reflexivity. Qed.

(** The report of the conversion of a response. *)
Definition response_report (raw_file wav_file : str) : list str :=
  [[10003%N] ++ lit " Converted " ++ raw_file ++ lit " to " ++ wav_file;
   lit "  Duration: 2.00 seconds";
   lit "  Samples: 88,200"].

Section Pipeline.
Context `{RT : Runtime}.

(** X16. The body of a response, saved to a file, is converted by
    [convert_to_wav] with a given output name, when the machine accepts
    both names, opens the output and takes the three lines of the
    report: the output is a WAV file of 176444 bytes (the header and
    88200 16-bit frames) and the console reports two seconds and 88,200
    samples. *)
Theorem resonate_then_convert (p : platform) (a : ambient) (input_text : str)
    (response : Response) (fs : gmap str (list byte)) (out : list str)
    (raw_file wav_file : str) :
  resonate a input_text = Ok response ->
  name_refused p raw_file = None ->
  write_refused p wav_file = None ->
  accepted p (response_report raw_file wav_file) ->
  exists wav,
    convert_to_wav_on p raw_file (Some wav_file)
        {| files := <[raw_file := content response]> fs; stdout := out |} =
      (Ok (Some wav_file),
       {| files := <[wav_file := wav]> (<[raw_file := content response]> fs);
          stdout := out ++ response_report raw_file wav_file |}) /\
    Z.of_nat (length wav) = 176444.
Proof.
  intros Hres Hname Hopen Hlines.
  destruct (resonate_inv a input_text response Hres)
    as (buffer & fragment & _ & _ & Hlen & Hwords & ->).
  cbn [content].
  assert (Hmod : Z.of_nat (length (tobytes_float32 buffer)) mod 4 = 0).
  { rewrite length_tobytes_float32, Nat2Z.inj_mul, Z.mul_comm, Z.mod_mul by lia.
    reflexivity. }
  assert (Hreport :
    converted_lines raw_file wav_file (words_of_bytes (tobytes_float32 buffer))
    = response_report raw_file wav_file).
  { rewrite (words_of_tobytes buffer Hwords). unfold converted_lines.
    rewrite Hlen, format_two_seconds, format_88200. reflexivity. }
  set (w := {| files := <[raw_file := tobytes_float32 buffer]> fs;
               stdout := out |}).
  destruct (convert_on_written p w raw_file (Some wav_file)
              (tobytes_float32 buffer) Hname)
    as (r & lines & Hrun & Hrep); [apply lookup_insert_eq | exact Hmod | exact Hopen |].
  cbn [wav_name] in Hrun, Hrep. rewrite Hreport in Hrep.
  destruct (Hrep Hlines) as (-> & ->).
  exists (wav_content (words_of_bytes (tobytes_float32 buffer))).
  split; [exact Hrun|].
  rewrite (words_of_tobytes buffer Hwords). unfold wav_content.
  rewrite length_wave_file, length_tobytes_int16, length_map.
  rewrite Nat2Z.inj_add, Nat2Z.inj_mul, Hlen. reflexivity.
Qed.

End Pipeline.

Lemma resonate_then_convert_witness :
  exists response,
    @resonate lcg_runtime sample_ambient (lit "hello") = Ok response /\
    name_refused utf8_terminal (lit "hello.raw") = None /\
    write_refused utf8_terminal (lit "hello.wav") = None /\
    accepted utf8_terminal (response_report (lit "hello.raw") (lit "hello.wav")) /\
    exists wav,
      @convert_to_wav_on lcg_runtime utf8_terminal (lit "hello.raw")
          (Some (lit "hello.wav"))
          {| files := <[lit "hello.raw" := content response]> ∅; stdout := [] |} =
        (Ok (Some (lit "hello.wav")),
         {| files := <[lit "hello.wav" := wav]>
                       (<[lit "hello.raw" := content response]> ∅);
            stdout := [] ++ response_report (lit "hello.raw") (lit "hello.wav") |}) /\
      Z.of_nat (length wav) = 176444.
Proof.
  destruct (@resonate_of_latin1 lcg_runtime sample_ambient (lit "hello")
              hello_latin1 eq_refl) as (response & Hres).
  assert (Hname : name_refused utf8_terminal (lit "hello.raw") = None)
    by reflexivity.
  assert (Hopen : write_refused utf8_terminal (lit "hello.wav") = None)
    by reflexivity.
  assert (Hlines : accepted utf8_terminal
            (response_report (lit "hello.raw") (lit "hello.wav"))).
  { repeat (apply Forall_cons_2; [vm_compute; reflexivity|]). apply Forall_nil_2. }
  exists response. split; [exact Hres|]. split; [exact Hname|].
  split; [exact Hopen|]. split; [exact Hlines|].
  exact (@resonate_then_convert lcg_runtime utf8_terminal sample_ambient
           (lit "hello") response ∅ [] _ _ Hres Hname Hopen Hlines).
Defined.

(** ** A NaN sample in the 16-bit transform *)

Section NaNSample.
Context `{RT : Runtime}.

(** X17. A NaN sample passes the clamp and the scaling unchanged, and
    its 16-bit value is whatever the platform's conversion of an invalid
    value gives. *)
Theorem pcm16_of_nan (w : float32) :
  f32_value w = S754_nan ->
  f32_value (clip32 f32_minus_one f32_one w) = S754_nan /\
  pcm16 w = int16_of_invalid.
Proof.
  intros Hnan.
  assert (Hclip : clip32 f32_minus_one f32_one w = w).
  { unfold clip32. rewrite Hnan. cbn [orb]. rewrite Hnan. reflexivity. }
  split.
  - rewrite Hclip. exact Hnan.
  - unfold pcm16. rewrite Hclip, Hnan. reflexivity.
Qed.

End NaNSample.

Lemma pcm16_of_nan_witness :
  f32_value nan32 = S754_nan /\
  f32_value (clip32 f32_minus_one f32_one nan32) = S754_nan /\
  @pcm16 lcg_runtime nan32 = @int16_of_invalid lcg_runtime.
Proof.
  assert (Hnan : f32_value nan32 = S754_nan) by (vm_compute; reflexivity).
  split; [exact Hnan|].
  exact (@pcm16_of_nan lcg_runtime nan32 Hnan).
Defined.
